(** * hostnic-cni: pod wiring (package driver) and daemon bootstrap (package ipam)

    A shallow embedding of the two Go source files

      - package [driver]: [New], [SetupNS], [TeardownNS],
        [createVethPairContext.run], [setupNS], [addContainerRule],
        [tearDownNS];
      - package [ipam]: [parseEnv], [setup], [setupNic], [prepareLocalPods],
        [getNicIndexByIP], [StartIPAMD], [StartGrpcServer], [WriteCNIConfig],
        [Start].

    Both packages talk to the outside (kernel netlink, the cloud, the
    orchestrator, the file system) through Go interfaces.  An interface is
    embedded as a record of operations over an abstract world [K]; a Go
    function that returns [error] is a computation in a state-and-error
    monad whose state carries the world and the list of interface calls
    made so far, each with the answer it received. *)

From Stdlib Require Import ZArith List String Ascii Bool Lia.
Import ListNotations.
Local Open Scope string_scope.
Local Open Scope list_scope.
Local Open Scope Z_scope.

Set Implicit Arguments.

(* ================================================================== *)
(** * Go values shared by both packages *)
(* ================================================================== *)

(** [net.IP] and [net.IPMask] are byte slices. *)
Definition net_IP := list Z.
Definition net_IPMask := list Z.

(** [net.IPNet] *)
Module IPNet.
Record t := mk { IP : net_IP; Mask : net_IPMask }.
End IPNet.

(** [net.IPv4(a, b, c, d)]: the 16-byte form of an IPv4 address. *)
Definition v4InV6Prefix : list Z := [0; 0; 0; 0; 0; 0; 0; 0; 0; 0; 255; 255].
Definition IPv4 (a b c d : Z) : net_IP := v4InV6Prefix ++ [a; b; c; d].

(** [net.CIDRMask(ones, bits)]: [ones] 1-bits followed by 0s, [bits] long;
    nil (the empty slice) when the arguments are out of range. *)
Fixpoint CIDRMask_bytes (l : nat) (n : Z) : list Z :=
  match l with
  | O => []
  | S l' =>
      if 8 <=? n then 255 :: CIDRMask_bytes l' (n - 8)
      else Z.land (Z.lnot (Z.shiftr 255 n)) 255 :: CIDRMask_bytes l' 0
  end.

Definition CIDRMask (ones bits : Z) : net_IPMask :=
  if negb (bits =? 32) && negb (bits =? 128) then []
  else if (ones <? 0) || (bits <? ones) then []
  else CIDRMask_bytes (Z.to_nat (bits / 8)) ones.

(** [net.IPv4Mask(a, b, c, d)] *)
Definition IPv4Mask (a b c d : Z) : net_IPMask := [a; b; c; d].

Module LinkAttrs.
(** [netlink.LinkAttrs], the fields the driver reads or writes. *)
Record t := mk {
  Index : Z;
  MTU : Z;
  TxQLen : Z;
  Name : string;
  HardwareAddr : list Z;
  Flags : Z
}.
End LinkAttrs.

(** [netlink.Link]: a veth pair under construction, or any other link. *)
Inductive Link :=
| Veth (attrs : LinkAttrs.t) (PeerName : string)
| Device (attrs : LinkAttrs.t).

Definition Attrs (l : Link) : LinkAttrs.t :=
  match l with Veth a _ => a | Device a => a end.

Module Route.
(** [netlink.Route] *)
Record t := mk { LinkIndex : Z; Scope : Z; Dst : option IPNet.t }.
End Route.

Module Rule.
(** [netlink.Rule] *)
Record t := mk {
  Priority : Z;
  Table : Z;
  Src : option IPNet.t;
  Dst : option IPNet.t
}.
Definition set_Src (v : option IPNet.t) (r : t) : t :=
  mk (Priority r) (Table r) v (Dst r).
Definition set_Dst (v : option IPNet.t) (r : t) : t :=
  mk (Priority r) (Table r) (Src r) v.
Definition set_Table (v : Z) (r : t) : t :=
  mk (Priority r) v (Src r) (Dst r).
Definition set_Priority (v : Z) (r : t) : t :=
  mk v (Table r) (Src r) (Dst r).
End Rule.

Module Neigh.
(** [netlink.Neigh] *)
Record t := mk {
  LinkIndex : Z;
  State : Z;
  IP : net_IP;
  HardwareAddr : list Z
}.
End Neigh.

(** [ns.NetNS]: a handle on a network namespace. *)
Record NetNS := { Fd : Z }.

(** Constants of the libraries the driver imports. *)
Definition RT_TABLE_MAIN : Z := 254.     (* unix.RT_TABLE_MAIN *)
Definition SCOPE_LINK : Z := 253.        (* netlink.SCOPE_LINK *)
Definition NUD_PERMANENT : Z := 128.     (* netlink.NUD_PERMANENT *)
Definition FlagUp : Z := 1.              (* net.FlagUp *)
Definition EEXIST : Z := 17.             (* syscall.EEXIST *)
Definition ENOENT : Z := 2.              (* syscall.ENOENT *)

(* ================================================================== *)
(** * Errors *)
(* ================================================================== *)

(** An argument of a format string, kept unrendered. *)
Inductive fmtarg :=
| AStr (s : string)
| ANet (n : IPNet.t)
| ARule (r : Rule.t).

(** Go [error] values: a kernel errno, [errors.New], [errors.Wrapf] (which
    keeps its cause) and [fmt.Errorf] over the text of another error. *)
Inductive error :=
| Errno (n : Z)
| ErrorNew (msg : string)
| Wrapf (fmt : string) (args : list fmtarg) (cause : error)
| Errorf (fmt : string) (inner : error).

(** Modelled from the spec: [networkutils.IsRuleExistsError] (package
    networkutils is not among the sources).  "Rule already exists" is the
    kernel's EEXIST on rule add; a nil error is not one. *)
Definition IsRuleExistsError (err : option error) : bool :=
  match err with
  | Some (Errno n) => n =? EEXIST
  | _ => false
  end.

(** Modelled from the spec: [networkutils.ContainsNoSuchRule] (package
    networkutils is not among the sources).  "No such rule" is the kernel's
    ENOENT on rule del. *)
Definition ContainsNoSuchRule (err : error) : bool :=
  match err with
  | Errno n => n =? ENOENT
  | _ => false
  end.

(** [errors.Cause] of github.com/pkg/errors: the error under every layer
    that [errors.Wrap] and [errors.Wrapf] have put around it.  An error
    made by [fmt.Errorf] has no cause but itself. *)
Fixpoint Cause (err : error) : error :=
  match err with
  | Wrapf _ _ cause => Cause cause
  | _ => err
  end.

(* ================================================================== *)
(** * The state-and-error monad *)
(* ================================================================== *)

(** What an interface method with a [(value, error)] result answers. *)
Inductive res (A : Type) :=
| Ok (a : A)
| Err (e : error).
Arguments Ok {A} a.
Arguments Err {A} e.

Definition is_ok {A} (r : res A) : bool :=
  match r with Ok _ => true | Err _ => false end.

(** How a run of a Go function with an [error] result ends: it returns
    (with a value and a nil error), it returns a non-nil error, or a
    run-time panic (a nil pointer dereference) unwinds through it. *)
Inductive exit (A : Type) :=
| Return (a : A)
| Raise (e : error)
| Panic (msg : string).
Arguments Return {A} a.
Arguments Raise {A} e.
Arguments Panic {A} msg.

Definition returned {A} (x : exit A) : bool :=
  match x with Return _ => true | _ => false end.

Section Monad.
Variable S : Type.

Definition M (A : Type) := S -> exit A * S.

Definition ret {A} (a : A) : M A := fun s => (Return a, s).

Definition throw {A} (e : error) : M A := fun s => (Raise e, s).

Definition panic {A} (msg : string) : M A := fun s => (Panic msg, s).

Definition bind {A B} (m : M A) (f : A -> M B) : M B :=
  fun s =>
    match m s with
    | (Return a, s') => f a s'
    | (Raise e, s') => (Raise e, s')
    | (Panic msg, s') => (Panic msg, s')
    end.

(** [if err != nil { return w(err) }] *)
Definition guard (err : option error) (w : error -> error) : M unit :=
  match err with
  | None => ret tt
  | Some e => throw (w e)
  end.

(** [x, err := ...; if err != nil { return w(err) }] *)
Definition unwrap {A} (r : res A) (w : error -> error) : M A :=
  match r with
  | Ok a => ret a
  | Err e => throw (w e)
  end.

(** [if err := f(...); err != nil { return errors.Wrap(err, ...) }] around
    a call of another function of the package. *)
Definition wrap_err {A} (w : error -> error) (m : M A) : M A :=
  fun s =>
    match m s with
    | (Raise e, s') => (Raise (w e), s')
    | out => out
    end.

(** [err := f(...)] where the error is looked at instead of returned. *)
Definition attempt (m : M unit) : M (option error) :=
  fun s =>
    match m s with
    | (Return _, s') => (Return None, s')
    | (Raise e, s') => (Return (Some e), s')
    | (Panic msg, s') => (Panic msg, s')
    end.

(** [p.field] through a pointer [p]. *)
Definition deref {A} (p : option A) : M A :=
  match p with
  | Some a => ret a
  | None => panic "invalid memory address or nil pointer dereference"
  end.
End Monad.

Arguments ret {S A} a.
Arguments throw {S A} e.
Arguments panic {S A} msg.
Arguments bind {S A B} m f.
Arguments guard {S} err w.
Arguments unwrap {S A} r w.
Arguments wrap_err {S A} w m.
Arguments attempt {S} m.
Arguments deref {S A} p.

(** [wp m s Q]: the run of [m] from [s] ends in an exit and a state that
    satisfy [Q]. *)
Definition wp {S A} (m : M S A) (s : S) (Q : exit A -> S -> Prop) : Prop :=
  Q (fst (m s)) (snd (m s)).

Declare Scope go_scope.
Delimit Scope go_scope with go.
Notation "x <- m ;; k" := (bind m (fun x => k))
  (at level 61, m at next level, right associativity) : go_scope.
Notation "m ;;; k" := (bind m (fun _ => k))
  (at level 61, right associativity) : go_scope.

(** ** The world behind the interfaces *)

Section World.
Variables K E Self : Type.

(** The world, the interface calls made so far with their answers, and the
    receiver of the methods being run. *)
Record state := { kernel : K; trace : list E; self : Self }.

(** One interface call: the world moves, the call and its answer are
    appended to the trace, the answer is handed to the caller. *)
Definition call {A} (op : K -> A * K) (ev : A -> E) : M state A :=
  fun st =>
    let (a, k') := op (kernel st) in
    (Return a, {| kernel := k'; trace := trace st ++ [ev a]; self := self st |}).

(** A call with no answer ([time.Sleep], leaving a namespace, a [go]
    statement). *)
Definition tell (op : K -> K) (ev : E) : M state unit :=
  fun st =>
    (Return tt,
     {| kernel := op (kernel st); trace := trace st ++ [ev]; self := self st |}).

Definition get_self : M state Self := fun st => (Return (self st), st).

(** [emits m P]: whatever the state [m] starts from, it only appends to the
    trace, and its exit and the calls it appended satisfy [P]. *)
Definition emits {A} (m : M state A) (P : exit A -> list E -> Prop) : Prop :=
  forall st,
    wp m st (fun r st' => exists tr, trace st' = trace st ++ tr /\ P r tr).

Definition modify_self (f : Self -> Self) : M state unit :=
  fun st =>
    (Return tt, {| kernel := kernel st; trace := trace st; self := f (self st) |}).
End World.

Arguments call {K E Self A} op ev.
Arguments tell {K E Self} op ev.
Arguments get_self {K E Self}.
Arguments emits {K E Self A} m P.
Arguments modify_self {K E Self} f.

(** [networkutils.NetworkAPIs], the methods the two packages call. *)
Record NetworkAPIs (K : Type) := {
  SetupHostNetwork :
    IPNet.t -> list string -> string -> net_IP -> K -> option error * K;
  SetupNICNetwork : string -> string -> Z -> string -> K -> option error * K;
  GetRuleList : K -> res (list Rule.t) * K;
  UpdateRuleListBySrc :
    list Rule.t -> IPNet.t -> list string -> bool -> Z -> K -> option error * K;
  DeleteRuleListBySrc : IPNet.t -> K -> option error * K;
  UseExternalSNAT : K -> bool * K
}.

(* ================================================================== *)
(** * Package driver *)
(* ================================================================== *)

Module Driver.

Local Open Scope go_scope.

(** ** Constants *)

(** ip rules priority and leave 512 gap for future *)
Definition toContainerRulePriority : Z := 512.
(** 1024 is reserved for (ip rule not to <vpc's subnet> table main) *)
Definition fromContainerRulePriority : Z := 1536.
(** main routing table number *)
Definition mainRouteTable : Z := RT_TABLE_MAIN.
(** MTU of veth *)
Definition ethernetMTU : Z := 9001.

(** ** The interfaces the driver is handed *)

(** [netlinkwrapper.NetLink]: each method acts on the world and answers
    with an error (nil is [None]) or with a value. *)
Record NetLink (K : Type) := {
  LinkByName : string -> K -> res Link * K;
  LinkAdd : Link -> K -> option error * K;
  LinkDel : Link -> K -> option error * K;
  LinkSetUp : Link -> K -> option error * K;
  LinkSetNsFd : Link -> Z -> K -> option error * K;
  RouteReplace : Route.t -> K -> option error * K;
  RouteDel : Route.t -> K -> option error * K;
  AddrAdd : Link -> IPNet.t -> K -> option error * K;
  NeighAdd : Neigh.t -> K -> option error * K;
  RuleAdd : Rule.t -> K -> option error * K;
  RuleDel : Rule.t -> K -> option error * K;
  NewRule : Rule.t
}.

(** [ipwrapper.IP] *)
Record IP (K : Type) := {
  AddDefaultRoute : net_IP -> Link -> K -> option error * K
}.

(** [nswrapper.NS], as the two moves [WithNetNSPath] is made of. *)
Record NS (K : Type) := {
  enterNS : string -> K -> res NetNS * K;
  leaveNS : K -> K
}.

(** ** Calls and their answers *)

Inductive event :=
| EvLinkByName (name : string) (r : res Link)
| EvLinkAdd (l : Link) (e : option error)
| EvLinkDel (l : Link) (e : option error)
| EvLinkSetUp (l : Link) (e : option error)
| EvLinkSetNsFd (l : Link) (fd : Z) (e : option error)
| EvRouteReplace (r : Route.t) (e : option error)
| EvRouteDel (r : Route.t) (e : option error)
| EvAddrAdd (l : Link) (a : IPNet.t) (e : option error)
| EvNeighAdd (n : Neigh.t) (e : option error)
| EvRuleAdd (r : Rule.t) (e : option error)
| EvRuleDel (r : Rule.t) (e : option error)
| EvAddDefaultRoute (gw : net_IP) (l : Link) (e : option error)
| EvEnterNS (path : string) (r : res NetNS)
| EvLeaveNS
| EvDeleteRuleListBySrc (src : IPNet.t) (e : option error).

Section WithWorld.
Variable K : Type.

(** The driver's functions have no receiver state of their own. *)
Definition state := state K event unit.

(** [defer]: [after] runs when [m] is over, whatever its outcome. *)
Definition finally {A} (m : M state A) (after : M state unit) : M state A :=
  fun st =>
    let (out, st') := m st in
    (out, snd (after st')).

(** Modelled from the spec: [nswrapper.NS.WithNetNSPath] (package
    nswrapper is not among the sources).  "Enter the pod network
    namespace and create a veth pair": the closure runs once inside the
    namespace at [netnsPath] and is handed the host namespace; its error
    is the result.  When the namespace cannot be entered the closure
    does not run. *)
Definition WithNetNSPath (ns : NS K) (netnsPath : string)
    (toRun : NetNS -> M state unit) : M state unit :=
  r <- call (enterNS ns netnsPath) (EvEnterNS netnsPath);;
  hostNS <- unwrap r (fun e => e);;
  finally (toRun hostNS) (tell (leaveNS ns) EvLeaveNS).

(** ** createVethPairContext *)

Record createVethPairContext := {
  contVethName : string;
  hostVethName : string;
  addr : IPNet.t;
  netLink : NetLink K;
  ip : IP K
}.

Definition newCreateVethPairContext (contVethName hostVethName : string)
    (addr : IPNet.t) (netLink : NetLink K) (ip : IP K) : createVethPairContext :=
  {| contVethName := contVethName;
     hostVethName := hostVethName;
     addr := addr;
     netLink := netLink;
     ip := ip |}.

Definition gw : net_IP := IPv4 169 254 1 1.
Definition gwNet : IPNet.t := IPNet.mk gw (CIDRMask 32 32).

(** The link handed to [LinkAdd]. *)
Definition run_veth (c : createVethPairContext) : Link :=
  Veth {| LinkAttrs.Index := 0;
          LinkAttrs.MTU := ethernetMTU;
          LinkAttrs.TxQLen := -1;
          LinkAttrs.Name := contVethName c;
          LinkAttrs.HardwareAddr := [];
          LinkAttrs.Flags := FlagUp |}
       (hostVethName c).

(** The on-link route to the dummy next hop, through [contVeth]. *)
Definition run_gwRoute (contVeth : Link) : Route.t :=
  {| Route.LinkIndex := LinkAttrs.Index (Attrs contVeth);
     Route.Scope := SCOPE_LINK;
     Route.Dst := Some gwNet |}.

(** The static ARP entry for the default gateway. *)
Definition run_neigh (hostVeth contVeth : Link) : Neigh.t :=
  {| Neigh.LinkIndex := LinkAttrs.Index (Attrs contVeth);
     Neigh.State := NUD_PERMANENT;
     Neigh.IP := IPNet.IP gwNet;
     Neigh.HardwareAddr := LinkAttrs.HardwareAddr (Attrs hostVeth) |}.

(** [run]: the closure to execute within the container's namespace to
    create the veth pair. *)
Definition run (c : createVethPairContext) (hostNS : NetNS) : M state unit :=
  let nl := netLink c in
  let veth := run_veth c in
  err <- call (LinkAdd nl veth) (EvLinkAdd veth);;
  guard err (fun e => e);;;
  r <- call (LinkByName nl (hostVethName c)) (EvLinkByName (hostVethName c));;
  hostVeth <- unwrap r
    (Wrapf "setup NS network: failed to find link %q" [AStr (hostVethName c)]);;
  (* Explicitly set the veth to UP state *)
  err <- call (LinkSetUp nl hostVeth) (EvLinkSetUp hostVeth);;
  guard err
    (Wrapf "setup NS network: failed to set link %q up" [AStr (hostVethName c)]);;;
  r <- call (LinkByName nl (contVethName c)) (EvLinkByName (contVethName c));;
  contVeth <- unwrap r
    (Wrapf "setup NS network: failed to find link %q" [AStr (contVethName c)]);;
  err <- call (LinkSetUp nl contVeth) (EvLinkSetUp contVeth);;
  guard err
    (Wrapf "setup NS network: failed to set link %q up" [AStr (contVethName c)]);;;
  (* Add a connected route to a dummy next hop (169.254.1.1) *)
  err <- call (RouteReplace nl (run_gwRoute contVeth))
              (EvRouteReplace (run_gwRoute contVeth));;
  guard err (Wrapf "setup NS network: failed to add default gateway" []);;;
  (* Add a default route via dummy next hop (169.254.1.1) *)
  err <- call (AddDefaultRoute (ip c) (IPNet.IP gwNet) contVeth)
              (EvAddDefaultRoute (IPNet.IP gwNet) contVeth);;
  guard err (Wrapf "setup NS network: failed to add default route" []);;;
  err <- call (AddrAdd nl contVeth (addr c)) (EvAddrAdd contVeth (addr c));;
  guard err
    (Wrapf "setup NS network: failed to add IP addr %s to %q"
           [ANet (addr c); AStr (contVethName c)]);;;
  (* add static ARP entry for default gateway *)
  err <- call (NeighAdd nl (run_neigh hostVeth contVeth))
              (EvNeighAdd (run_neigh hostVeth contVeth));;
  guard err (Wrapf "setup NS network: failed to add static ARP" []);;;
  (* move the host end of the veth into the host namespace *)
  err <- call (LinkSetNsFd nl hostVeth (Fd hostNS))
              (EvLinkSetNsFd hostVeth (Fd hostNS));;
  guard err (Wrapf "setup NS network: failed to move veth to host netns" []);;;
  ret tt.

(** ** addContainerRule *)

Definition containerRule (nl : NetLink K) (isToContainer : bool)
    (addr : IPNet.t) (priority table : Z) : Rule.t :=
  let r := NewRule nl in
  let r := if isToContainer then Rule.set_Dst (Some addr) r
           else Rule.set_Src (Some addr) r in
  let r := Rule.set_Table table r in
  Rule.set_Priority priority r.

(** [if err != nil && !networkutils.ContainsNoSuchRule(err) { return ... }] *)
Definition guardDel (err : option error) (w : error -> error) : M state unit :=
  match err with
  | Some e => if negb (ContainsNoSuchRule e) then throw (w e) else ret tt
  | None => ret tt
  end.

Definition addContainerRule (nl : NetLink K) (isToContainer : bool)
    (addr : IPNet.t) (priority table : Z) : M state unit :=
  let containerRule := containerRule nl isToContainer addr priority table in
  err <- call (RuleDel nl containerRule) (EvRuleDel containerRule);;
  guardDel err
    (Wrapf "addContainerRule: failed to delete old container rule for %s" [ANet addr]);;;
  err <- call (RuleAdd nl containerRule) (EvRuleAdd containerRule);;
  guard err (Wrapf "addContainerRule: failed to add container rule for %s" [ANet addr]);;;
  ret tt.

(** ** setupNS *)

Section SetupNS.
(** [net.ParseCIDR], keeping the network it returns: nil ([None]) for a
    string that is not a CIDR. *)
Variable ParseCIDR : string -> option IPNet.t.

(** The rule built in the body of the loop over [vpcCIDRs]. *)
Definition podRule (nl : NetLink K) (addr : IPNet.t) (table : Z)
    (cidr : string) : Rule.t :=
  let r := NewRule nl in
  let r := Rule.set_Dst (ParseCIDR cidr) r in
  let r := Rule.set_Src (Some addr) r in
  let r := Rule.set_Table table r in
  Rule.set_Priority fromContainerRulePriority r.

(** [if networkutils.IsRuleExistsError(err) { ... } else { if err != nil
    { return ... } }] *)
Definition guardAdd (err : option error) (w : error -> error) : M state unit :=
  if IsRuleExistsError err then ret tt else guard err w.

(** [for _, cidr := range vpcCIDRs { ... }] *)
Fixpoint addPodRules (nl : NetLink K) (addr : IPNet.t) (table : Z)
    (vpcCIDRs : list string) : M state unit :=
  match vpcCIDRs with
  | [] => ret tt
  | cidr :: rest =>
      let podRule := podRule nl addr table cidr in
      err <- call (RuleAdd nl podRule) (EvRuleAdd podRule);;
      guardAdd err (Wrapf "setupNS: failed to add pod rule [%v]" [ARule podRule]);;;
      addPodRules nl addr table rest
  end.

(** [if tunnelNet != "" { vpcCIDRs = append(vpcCIDRs, tunnelNet) }] *)
Definition withTunnel (vpcCIDRs : list string) (tunnelNet : string) : list string :=
  if negb (tunnelNet =? "")%string then vpcCIDRs ++ [tunnelNet] else vpcCIDRs.

(** The host route to the pod address, through [hostVeth]. *)
Definition hostRoute (addr : IPNet.t) (linkIndex : Z) : Route.t :=
  {| Route.LinkIndex := linkIndex;
     Route.Scope := SCOPE_LINK;
     Route.Dst := Some (IPNet.mk (IPNet.IP addr) (CIDRMask 32 32)) |}.

(** [// Clean up if hostVeth exists.] *)
Definition cleanupOldHostVeth (hostVethName : string) (netLink : NetLink K)
  : M state unit :=
  r <- call (LinkByName netLink hostVethName) (EvLinkByName hostVethName);;
  match r with
  | Ok oldHostVeth =>
      err <- call (LinkDel netLink oldHostVeth) (EvLinkDel oldHostVeth);;
      guard err (Wrapf "setupNS network: failed to delete old hostVeth %q"
                       [AStr hostVethName])
  | Err _ => ret tt
  end.

(** [// add from-pod rule, only need it when it is not primary ENI] *)
Definition addFromPodRules (addr : IPNet.t) (table : Z) (vpcCIDRs : list string)
    (useExternalSNAT : bool) (tunnelNet : string) (netLink : NetLink K)
  : M state unit :=
  if 0 <? table then
    if useExternalSNAT then
      (* add rule: 1536: from <podIP> use table <table> *)
      wrap_err (Wrapf "add NS network: failed to add fromContainer rule" [])
        (addContainerRule netLink false addr fromContainerRulePriority table)
    else
      (* add rule: 1536: list of from <podIP> to <vpcCIDR> use table <table> *)
      addPodRules netLink addr table (withTunnel vpcCIDRs tunnelNet)
  else ret tt.

(** The host side of the veth, once it is back in the host namespace: set
    it up and route the pod address through it. *)
Definition setupHostVeth (hostVethName : string) (addr : IPNet.t)
    (netLink : NetLink K) : M state unit :=
  r <- call (LinkByName netLink hostVethName) (EvLinkByName hostVethName);;
  hostVeth <- unwrap r
    (Wrapf "setupNS network: failed to find link %q" [AStr hostVethName]);;
  (* Explicitly set the veth to UP state *)
  err <- call (LinkSetUp netLink hostVeth) (EvLinkSetUp hostVeth);;
  guard err (Wrapf "setupNS network: failed to set link %q up" [AStr hostVethName]);;;
  (* Add or replace host route *)
  let route := hostRoute addr (LinkAttrs.Index (Attrs hostVeth)) in
  err <- call (RouteReplace netLink route) (EvRouteReplace route);;
  guard err
    (Wrapf "setupNS: unable to add or replace route entry for %s"
           [ANet (IPNet.mk (IPNet.IP addr) (CIDRMask 32 32))]).

Definition setupNS (hostVethName contVethName netnsPath : string)
    (addr : IPNet.t) (table : Z) (vpcCIDRs : list string)
    (useExternalSNAT : bool) (tunnelNet : string)
    (netLink containerNetlink : NetLink K) (ns : NS K) (ip : IP K)
  : M state unit :=
  cleanupOldHostVeth hostVethName netLink;;;
  let createVethContext :=
    newCreateVethPairContext contVethName hostVethName addr containerNetlink ip in
  wrap_err (Wrapf "setupNS network: failed to setup NS network" [])
    (WithNetNSPath ns netnsPath (run createVethContext));;;
  setupHostVeth hostVethName addr netLink;;;
  wrap_err (Wrapf "setupNS network: failed to add toContainer" [])
    (addContainerRule netLink true addr toContainerRulePriority mainRouteTable);;;
  addFromPodRules addr table vpcCIDRs useExternalSNAT tunnelNet netLink.
End SetupNS.

(** ** tearDownNS *)

Definition toContainerRule (nl : NetLink K) (addr : IPNet.t) : Rule.t :=
  let r := NewRule nl in
  let r := Rule.set_Dst (Some addr) r in
  Rule.set_Priority toContainerRulePriority r.

Definition deleteRuleListBySrc (networkClient : NetworkAPIs K) (src : IPNet.t)
  : M state (option error) :=
  call (DeleteRuleListBySrc networkClient src) (EvDeleteRuleListBySrc src).

Definition tearDownNS (addr : IPNet.t) (table : Z)
    (netLink : NetLink K) (networkClient : NetworkAPIs K) : M state unit :=
  (* remove to-pod rule; an error is only logged *)
  let toContainerRule := toContainerRule netLink addr in
  _ <- call (RuleDel netLink toContainerRule) (EvRuleDel toContainerRule);;
  (if 0 <? table then
     (* remove from-pod rule only for non main table *)
     err <- deleteRuleListBySrc networkClient addr;;
     guard err
       (Wrapf "delete NS network: failed to delete fromContainer rule for %s"
              [ANet addr])
   else ret tt);;;
  (* cleanup host route; an error is only logged *)
  let route := hostRoute addr 0 in
  _ <- call (RouteDel netLink route) (EvRouteDel route);;
  ret tt.

(** ** Vocabulary of the statements about the driver *)

(** The in-namespace steps of a [run] that returns nil, in order, for the
    two links [LinkByName] answered with. *)
Definition run_steps (c : createVethPairContext) (hostNS : NetNS)
    (hostVeth contVeth : Link) : list event :=
  [ EvLinkAdd (run_veth c) None;
    EvLinkByName (hostVethName c) (Ok hostVeth);
    EvLinkSetUp hostVeth None;
    EvLinkByName (contVethName c) (Ok contVeth);
    EvLinkSetUp contVeth None;
    EvRouteReplace (run_gwRoute contVeth) None;
    EvAddDefaultRoute gw contVeth None;
    EvAddrAdd contVeth (addr c) None;
    EvNeighAdd (run_neigh hostVeth contVeth) None;
    EvLinkSetNsFd hostVeth (Fd hostNS) None ].

(** The calls of a trace that add or delete a policy rule. *)
Definition is_rule_event (ev : event) : bool :=
  match ev with
  | EvRuleAdd _ _ | EvRuleDel _ _ => true
  | _ => false
  end.

Definition rule_events (tr : list event) : list event := filter is_rule_event tr.

(** The rules handed to [RuleAdd], in order. *)
Fixpoint rule_adds (tr : list event) : list Rule.t :=
  match tr with
  | [] => []
  | EvRuleAdd r _ :: rest => r :: rule_adds rest
  | _ :: rest => rule_adds rest
  end.

(** The rules handed to [RuleDel], in order. *)
Fixpoint rule_dels (tr : list event) : list Rule.t :=
  match tr with
  | [] => []
  | EvRuleDel r _ :: rest => r :: rule_dels rest
  | _ :: rest => rule_dels rest
  end.

Definition is_LinkDel (ev : event) : bool :=
  match ev with EvLinkDel _ _ => true | _ => false end.

Definition is_LinkAdd (ev : event) : bool :=
  match ev with EvLinkAdd _ _ => true | _ => false end.

Definition failed (e : option error) : bool :=
  match e with Some _ => true | None => false end.

(** An error of a rule deletion other than "no such rule". *)
Definition del_refused (e : option error) : bool :=
  match e with
  | Some err => negb (ContainsNoSuchRule err)
  | None => false
  end.

(** The answers [setupNS] does not survive, the first lookup of the host
    veth apart: any error, except "no such rule" on a rule deletion and
    "rule already exists" on the addition of a per-CIDR rule. *)
Definition fatal_in_setup (useExternalSNAT : bool) (ev : event) : bool :=
  match ev with
  | EvLinkByName _ r | EvEnterNS _ r => negb (is_ok r)
  | EvLeaveNS => false
  | EvRuleDel _ e => del_refused e
  | EvRuleAdd r e =>
      failed e &&
      negb (IsRuleExistsError e && negb useExternalSNAT &&
            (Rule.Priority r =? fromContainerRulePriority))
  | EvLinkAdd _ e | EvLinkDel _ e | EvLinkSetUp _ e | EvLinkSetNsFd _ _ e
  | EvRouteReplace _ e | EvRouteDel _ e | EvAddrAdd _ _ e | EvNeighAdd _ e
  | EvAddDefaultRoute _ _ e | EvDeleteRuleListBySrc _ e => failed e
  end.

(** The answers that would be fatal if "rule already exists" were absorbed
    on every rule addition. *)
Definition fatal_if_exists_absorbed (ev : event) : bool :=
  match ev with
  | EvRuleAdd _ e => failed e && negb (IsRuleExistsError e)
  | _ => fatal_in_setup false ev
  end.

(** The answers [tearDownNS] does not survive: an error of
    [DeleteRuleListBySrc], and nothing else. *)
Definition fatal_in_teardown (ev : event) : bool :=
  match ev with
  | EvDeleteRuleListBySrc _ e => failed e
  | _ => false
  end.

(** The two kinds of rule [setupNS] may touch for the pod [addr] whose
    NIC has the table [table]. *)
Definition rule_ok (addr : IPNet.t) (table : Z) (r : Rule.t) : Prop :=
  (Rule.Priority r = 512 /\ Rule.Table r = 254 /\ Rule.Dst r = Some addr) \/
  (0 < table /\ Rule.Priority r = 1536 /\ Rule.Table r = table /\
   Rule.Src r = Some addr).

(** A call that deletes no link and touches no rule but those two kinds. *)
Definition tame (addr : IPNet.t) (table : Z) (ev : event) : Prop :=
  match ev with
  | EvLinkDel _ _ => False
  | EvRuleAdd r _ | EvRuleDel r _ => rule_ok addr table r
  | _ => True
  end.

Definition no_panic {A} (r : exit A) : Prop :=
  match r with Panic _ => False | _ => True end.

(** What is shown of each block of [setupNS] after the cleanup: its calls
    are tame, it does not panic, it returns nil exactly when no answer was
    fatal, and when it returns nil its calls are the ones [Succ] lists. *)
Definition good (addr : IPNet.t) (table : Z) (useExternalSNAT : bool)
    (Succ : list event -> Prop) (r : exit unit) (tr : list event) : Prop :=
  Forall (tame addr table) tr /\
  no_panic r /\
  returned r = forallb (fun ev => negb (fatal_in_setup useExternalSNAT ev)) tr /\
  (r = Return tt -> Succ tr).

(** The to-pod rule and the from-pod rule of external SNAT mode. *)
Definition toPodRule (nl : NetLink K) (addr : IPNet.t) : Rule.t :=
  containerRule nl true addr toContainerRulePriority mainRouteTable.

Definition fromPodRule (nl : NetLink K) (addr : IPNet.t) (table : Z) : Rule.t :=
  containerRule nl false addr fromContainerRulePriority table.

(** An answer to the addition of a per-CIDR rule that the loop goes past:
    nil or "rule already exists". *)
Definition absorbed (e : option error) : Prop :=
  e = None \/ IsRuleExistsError e = true.

(** One [RuleAdd] per CIDR, in order, with the answers received. *)
Definition podRuleAdds (ParseCIDR : string -> option IPNet.t) (nl : NetLink K)
    (addr : IPNet.t) (table : Z) (cidrs : list string)
    (answers : list (option error)) : list event :=
  map (fun ce => EvRuleAdd (podRule ParseCIDR nl addr table (fst ce)) (snd ce))
      (combine cidrs answers).

(** The calls of [addFromPodRules] when it returns nil. *)
Definition fromPodCalls (ParseCIDR : string -> option IPNet.t) (nl : NetLink K)
    (addr : IPNet.t) (table : Z) (vpcCIDRs : list string)
    (useExternalSNAT : bool) (tunnelNet : string) (tr : list event) : Prop :=
  if 0 <? table then
    if useExternalSNAT then
      exists e, del_refused e = false /\
        tr = [ EvRuleDel (fromPodRule nl addr table) e;
               EvRuleAdd (fromPodRule nl addr table) None ]
    else
      exists answers,
        List.length answers = List.length (withTunnel vpcCIDRs tunnelNet) /\
        Forall absorbed answers /\
        tr = podRuleAdds ParseCIDR nl addr table
               (withTunnel vpcCIDRs tunnelNet) answers
  else tr = [].

(** The calls of [setupNS] after the cleanup when it returns nil. *)
Definition wiringCalls (ParseCIDR : string -> option IPNet.t)
    (hostVethName contVethName netnsPath : string) (addr : IPNet.t) (table : Z)
    (vpcCIDRs : list string) (useExternalSNAT : bool) (tunnelNet : string)
    (netLink containerNetlink : NetLink K) (ip : IP K) (tr : list event) : Prop :=
  exists hostNS hostVeth contVeth hostVeth' e fromCalls,
    del_refused e = false /\
    fromPodCalls ParseCIDR netLink addr table vpcCIDRs useExternalSNAT tunnelNet
      fromCalls /\
    tr = (EvEnterNS netnsPath (Ok hostNS)
            :: run_steps (newCreateVethPairContext contVethName hostVethName addr
                            containerNetlink ip)
                 hostNS hostVeth contVeth
            ++ [EvLeaveNS])
         ++ [ EvLinkByName hostVethName (Ok hostVeth');
              EvLinkSetUp hostVeth' None;
              EvRouteReplace
                (hostRoute addr (LinkAttrs.Index (Attrs hostVeth'))) None ]
         ++ [ EvRuleDel (toPodRule netLink addr) e;
              EvRuleAdd (toPodRule netLink addr) None ]
         ++ fromCalls.

(** The calls of the cleanup: the lookup of the host veth and, when it
    answers with a link, the deletion of that link. *)
Definition cleanupCalls (hostVethName : string) (r : exit unit)
    (first : res Link) (del : list event) : Prop :=
  match first with
  | Ok old => exists e, del = [EvLinkDel old e] /\ returned r = negb (failed e)
  | Err _ => del = [] /\ r = Return tt
  end.

(** The error a call was answered with, nil ([None]) when it succeeded. *)
Definition error_of (ev : event) : option error :=
  match ev with
  | EvLinkByName _ r =>
      match r with Ok _ => None | Err e => Some e end
  | EvEnterNS _ r =>
      match r with Ok _ => None | Err e => Some e end
  | EvLeaveNS => None
  | EvLinkAdd _ e | EvLinkDel _ e | EvLinkSetUp _ e | EvLinkSetNsFd _ _ e
  | EvRouteReplace _ e | EvRouteDel _ e | EvAddrAdd _ _ e | EvNeighAdd _ e
  | EvRuleAdd _ e | EvRuleDel _ e | EvAddDefaultRoute _ _ e
  | EvDeleteRuleListBySrc _ e => e
  end.

(** The call [ev] was answered with an error that is the cause of [e]. *)
Definition cause_of (e : error) (ev : event) : Prop :=
  exists e0, error_of ev = Some e0 /\ Cause e = Cause e0.

(** An exit that, when it is an error, has its cause in the answer to the
    last call. *)
Definition caused_by_last (r : exit unit) (tr : list event) : Prop :=
  forall e, r = Raise e -> exists pre ev, tr = pre ++ [ev] /\ cause_of e ev.

(** The same, when the namespace may have been left after that call. *)
Definition caused (r : exit unit) (tr : list event) : Prop :=
  forall e, r = Raise e ->
    exists pre ev post,
      tr = pre ++ ev :: post /\ cause_of e ev /\ (post = [] \/ post = [EvLeaveNS]).

(** The calls of the wiring of a pod before any policy rule is touched:
    the namespace is entered, the ten steps of [run] succeed, the namespace
    is left, and the host end is looked up, set up and routed to. *)
Definition wiredCalls (hostVethName contVethName netnsPath : string)
    (addr : IPNet.t) (containerNetlink : NetLink K) (ip : IP K)
    (tr : list event) : Prop :=
  exists hostNS hostVeth contVeth hostVeth',
    tr = (EvEnterNS netnsPath (Ok hostNS)
            :: run_steps (newCreateVethPairContext contVethName hostVethName addr
                            containerNetlink ip)
                 hostNS hostVeth contVeth
            ++ [EvLeaveNS])
         ++ [ EvLinkByName hostVethName (Ok hostVeth');
              EvLinkSetUp hostVeth' None;
              EvRouteReplace
                (hostRoute addr (LinkAttrs.Index (Attrs hostVeth'))) None ].

End WithWorld.

Arguments run_steps {K} c hostNS hostVeth contVeth.

(** ** linuxNetwork *)

Module linuxNetwork.
Record t (K : Type) := mk {
  netLink : NetLink K;
  ns : NS K;
  ip : IP K;
  containerNetlink : NetLink K;
  networkClient : NetworkAPIs K
}.
End linuxNetwork.

Definition newDriverNetworkAPI {K} (netLink containerNetlink : NetLink K)
    (networkClient : NetworkAPIs K) (ns : NS K) (ip : IP K) : linuxNetwork.t K :=
  {| linuxNetwork.netLink := netLink;
     linuxNetwork.ns := ns;
     linuxNetwork.ip := ip;
     linuxNetwork.containerNetlink := containerNetlink;
     linuxNetwork.networkClient := networkClient |}.

(** [New] creates the linuxNetwork object, from what the constructors of
    the wrapper packages hand out. *)
Definition New {K} (NewNetLink : NetLink K) (networkutils_New : NetworkAPIs K)
    (NewNS : NS K) (NewIP : IP K) : linuxNetwork.t K :=
  newDriverNetworkAPI NewNetLink NewNetLink networkutils_New NewNS NewIP.

(** [SetupNS] wires up linux networking for a pod's network. *)
Definition SetupNS {K} (ParseCIDR : string -> option IPNet.t)
    (os : linuxNetwork.t K) (hostVethName contVethName netnsPath : string)
    (addr : IPNet.t) (table : Z) (vpcCIDRs : list string) (tunnelNet : string)
    (useExternalSNAT : bool) : M (state K) unit :=
  setupNS ParseCIDR hostVethName contVethName netnsPath addr table vpcCIDRs
    useExternalSNAT tunnelNet (linuxNetwork.netLink os)
    (linuxNetwork.containerNetlink os) (linuxNetwork.ns os) (linuxNetwork.ip os).

(** [TeardownNS]: cleanup ip rules. *)
Definition TeardownNS {K} (os : linuxNetwork.t K) (addr : IPNet.t) (table : Z)
  : M (state K) unit :=
  tearDownNS addr table (linuxNetwork.netLink os) (linuxNetwork.networkClient os).

(** ** Test doubles *)

(** A netlink with canned answers over a world with nothing in it:
    [byName] answers [LinkByName], [ruleAdd] and [ruleDel] answer the rule
    calls, everything else succeeds. *)
Definition stubNetLink (byName : string -> res Link)
    (ruleAdd ruleDel : Rule.t -> option error) : NetLink unit :=
  {| LinkByName := fun name k => (byName name, k);
     LinkAdd := fun _ k => (None, k);
     LinkDel := fun _ k => (None, k);
     LinkSetUp := fun _ k => (None, k);
     LinkSetNsFd := fun _ _ k => (None, k);
     RouteReplace := fun _ k => (None, k);
     RouteDel := fun _ k => (None, k);
     AddrAdd := fun _ _ k => (None, k);
     NeighAdd := fun _ k => (None, k);
     RuleAdd := fun r k => (ruleAdd r, k);
     RuleDel := fun r k => (ruleDel r, k);
     (* netlink.NewRule: no selector; unset numbers are -1 *)
     NewRule := Rule.mk (-1) 0 None None |}.

Definition stubIP : IP unit :=
  {| AddDefaultRoute := fun _ _ k => (None, k) |}.

Definition stubNS : NS unit :=
  {| enterNS := fun _ k => (Ok {| Fd := 3 |}, k); leaveNS := fun k => k |}.

Definition stubNetworkAPIs (del : IPNet.t -> option error) : NetworkAPIs unit :=
  {| SetupHostNetwork := fun _ _ _ _ k => (None, k);
     SetupNICNetwork := fun _ _ _ _ k => (None, k);
     GetRuleList := fun k => (Ok [], k);
     UpdateRuleListBySrc := fun _ _ _ _ _ k => (None, k);
     DeleteRuleListBySrc := fun src k => (del src, k);
     UseExternalSNAT := fun k => (false, k) |}.

(** A link named [name] with a fixed index and hardware address. *)
Definition stubLink (name : string) : Link :=
  Device {| LinkAttrs.Index := 7;
            LinkAttrs.MTU := 9001;
            LinkAttrs.TxQLen := -1;
            LinkAttrs.Name := name;
            LinkAttrs.HardwareAddr := [2; 66; 172; 17; 0; 2];
            LinkAttrs.Flags := FlagUp |}.

(** [net.ParseCIDR] on the two CIDRs of the examples. *)
Definition stubParseCIDR (cidr : string) : option IPNet.t :=
  if (cidr =? "10.0.0.0/16")%string then Some (IPNet.mk [10; 0; 0; 0] [255; 255; 0; 0])
  else if (cidr =? "172.16.0.0/12")%string
       then Some (IPNet.mk [172; 16; 0; 0] [255; 240; 0; 0])
       else None.

(** The pod of the examples: 10.0.1.7/32. *)
Definition podAddr : IPNet.t := IPNet.mk [10; 0; 1; 7] [255; 255; 255; 255].

(** A netlink on which every call succeeds and every link is there. *)
Definition happyNetLink : NetLink unit :=
  stubNetLink (fun name => Ok (stubLink name)) (fun _ => None) (fun _ => None).

(** A netlink on which another writer has put every rule back by the time
    it is added: [RuleAdd] answers EEXIST. *)
Definition racyNetLink : NetLink unit :=
  stubNetLink (fun name => Ok (stubLink name))
              (fun _ => Some (Errno EEXIST)) (fun _ => None).

(** A netlink on a host that holds no rule of the pod: [RuleDel] answers
    ENOENT. *)
Definition bareNetLink : NetLink unit :=
  stubNetLink (fun name => Ok (stubLink name))
              (fun _ => None) (fun _ => Some (Errno ENOENT)).

Definition start : state unit := {| kernel := tt; trace := []; self := tt |}.

(** The driver [New] builds on a host where every call succeeds. *)
Definition stubDriver : linuxNetwork.t unit :=
  New happyNetLink (stubNetworkAPIs (fun _ => None)) stubNS stubIP.

(** The pod of [setupPerCIDR], set up and torn down through that driver. *)
Definition driverSetup : exit unit * state unit :=
  SetupNS stubParseCIDR stubDriver "nicabc" "eth0" "/proc/12345/ns/net" podAddr 2
    ["10.0.0.0/16"] "172.16.0.0/12" false start.

Definition driverTeardown : exit unit * state unit :=
  TeardownNS stubDriver podAddr 2 start.

(** A pod on the NIC of table 2, no external SNAT, one VPC CIDR and a
    tunnel CIDR, on a host where every call succeeds. *)
Definition setupPerCIDR : exit unit * state unit :=
  setupNS stubParseCIDR "nicabc" "eth0" "/proc/12345/ns/net" podAddr 2
    ["10.0.0.0/16"] false "172.16.0.0/12" happyNetLink happyNetLink stubNS stubIP
    start.

(** The same pod in external SNAT mode, on a host with no rule of it. *)
Definition setupExternalSNAT : exit unit * state unit :=
  setupNS stubParseCIDR "nicabc" "eth0" "/proc/12345/ns/net" podAddr 2
    ["10.0.0.0/16"] true "" bareNetLink happyNetLink stubNS stubIP start.

(** A pod on the primary NIC, where every [RuleAdd] answers EEXIST. *)
Definition setupRacy : exit unit * state unit :=
  setupNS stubParseCIDR "nicabc" "eth0" "/proc/12345/ns/net" podAddr 0
    [] false "" racyNetLink racyNetLink stubNS stubIP start.



End Driver.



(* ================================================================== *)
(** * Package ipam *)
(* ================================================================== *)

Module Ipam.

Local Open Scope go_scope.

(** ** Constants *)

Definition ipamdgRPCaddress : string := "127.0.0.1:41080".
Definition metricsAddress : string := "127.0.0.1:41081".
Definition gracefulTimeout : Z := 120.

Definition defaultPoolSize : Z := 3.
Definition defaultMaxPoolSize : Z := 10.
Definition defaultClusterName : string := "kubernetes".

Definition envExtraTags : string := "HOSTNIC_EXTRA_TAGS".
Definition envClusterName : string := "HOSTNIC_CLUSTER_NAME".
Definition envVethPrefix : string := "HOSTNIC_VETH_PREFIX".
Definition defaultVethPrefix : string := "nic".
Definition configFileName : string := "/host/etc/cni/net.d/10-ahostnic.conflist".

(** ** Values of the packages ipam imports *)

(** [types.HostNic] *)
Module HostNic.
Record t := mk {
  ID : string;
  Address : string;
  HardwareAddr : string;
  DeviceNumber : Z;
  IsPrimary : bool
}.
Definition set_DeviceNumber (v : Z) (n : t) : t :=
  mk (ID n) (Address n) (HardwareAddr n) v (IsPrimary n).
End HostNic.

(** [types.VxNet] *)
Module VxNet.
Record t := mk { ID : string; Network : IPNet.t }.
End VxNet.

(** [types.VPC] *)
Module VPC.
Record t := mk { Network : IPNet.t; VxNets : list VxNet.t }.
End VPC.

(** [k8sclient.K8SPodInfo] *)
Module K8SPodInfo.
Record t := mk { Name : string; Namespace : string; Container : string; IP : string }.
End K8SPodInfo.

(** [datastore.NICIPPool]: the keys of [IPv4Addresses] in the order a
    [range] over the map visits them. *)
Module NICIPPool.
Record t := mk { DeviceNumber : Z; IPv4Addresses : list string }.
End NICIPPool.

(** [datastore.NICInfos]: the entries of [NICIPPools] in the order a
    [range] over the map visits them. *)
Record NICInfos := { NICIPPools : list (string * NICIPPool.t) }.

(** [qcclient.LabelResourceConfig] *)
Record LabelResourceConfig := { ClusterName : string; ExtraLabels : list string }.

(** ** IpamD *)

(** The data fields of [IpamD]; its clients are the interface records
    below.  A nil pointer is [None]. *)
Record IpamD := {
  InstanceID : string;
  NodeName : string;
  primaryNic : option HostNic.t;
  vxnet : option VxNet.t;
  vpc : option VPC.t;
  extraTags : list string;
  clusterName : string;
  disableLabel : bool;
  poolSize : Z;
  maxPoolSize : Z;
  supportVPNTraffic : bool;
  vethPrefix : string
}.

Definition set_InstanceID (v : string) (s : IpamD) : IpamD :=
  Build_IpamD v (NodeName s) (primaryNic s) (vxnet s) (vpc s) (extraTags s)
    (clusterName s) (disableLabel s) (poolSize s) (maxPoolSize s)
    (supportVPNTraffic s) (vethPrefix s).
Definition set_primaryNic (v : option HostNic.t) (s : IpamD) : IpamD :=
  Build_IpamD (InstanceID s) (NodeName s) v (vxnet s) (vpc s) (extraTags s)
    (clusterName s) (disableLabel s) (poolSize s) (maxPoolSize s)
    (supportVPNTraffic s) (vethPrefix s).
Definition set_vxnet (v : option VxNet.t) (s : IpamD) : IpamD :=
  Build_IpamD (InstanceID s) (NodeName s) (primaryNic s) v (vpc s) (extraTags s)
    (clusterName s) (disableLabel s) (poolSize s) (maxPoolSize s)
    (supportVPNTraffic s) (vethPrefix s).
Definition set_vpc (v : option VPC.t) (s : IpamD) : IpamD :=
  Build_IpamD (InstanceID s) (NodeName s) (primaryNic s) (vxnet s) v (extraTags s)
    (clusterName s) (disableLabel s) (poolSize s) (maxPoolSize s)
    (supportVPNTraffic s) (vethPrefix s).
Definition set_extraTags (v : list string) (s : IpamD) : IpamD :=
  Build_IpamD (InstanceID s) (NodeName s) (primaryNic s) (vxnet s) (vpc s) v
    (clusterName s) (disableLabel s) (poolSize s) (maxPoolSize s)
    (supportVPNTraffic s) (vethPrefix s).
Definition set_clusterName (v : string) (s : IpamD) : IpamD :=
  Build_IpamD (InstanceID s) (NodeName s) (primaryNic s) (vxnet s) (vpc s)
    (extraTags s) v (disableLabel s) (poolSize s) (maxPoolSize s)
    (supportVPNTraffic s) (vethPrefix s).
Definition set_vethPrefix (v : string) (s : IpamD) : IpamD :=
  Build_IpamD (InstanceID s) (NodeName s) (primaryNic s) (vxnet s) (vpc s)
    (extraTags s) (clusterName s) (disableLabel s) (poolSize s) (maxPoolSize s)
    (supportVPNTraffic s) v.

(** [NewIpamD]: default settings, everything else zero. *)
Definition NewIpamD : IpamD :=
  {| InstanceID := ""; NodeName := "";
     primaryNic := None; vxnet := None; vpc := None;
     extraTags := []; clusterName := ""; disableLabel := false;
     poolSize := defaultPoolSize; maxPoolSize := defaultMaxPoolSize;
     supportVPNTraffic := false; vethPrefix := "" |}.

(** ** The interfaces behind IpamD *)

(** [k8sclient.K8sHelper] *)
Module K8sHelper.
Record t (K : Type) := mk {
  Start : K -> option error * K;
  GetCurrentNodePods : K -> res (list K8SPodInfo.t) * K
}.
End K8sHelper.

(** [qcclient.QingCloudAPI], with the constructor of the client and the
    cloud's [ensure_vxnet]. *)
Record QingCloudAPI (K : Type) := {
  NewQingCloudClient : option LabelResourceConfig -> K -> option error * K;
  GetInstanceID : K -> string * K;
  GetNodeVPC : K -> res VPC.t * K;
  ensureVxNet : K -> res VxNet.t * K;
  GetPrimaryNIC : K -> res HostNic.t * K;
  GetAttachedNICs : string -> K -> res (list HostNic.t) * K
}.

(** [datastore.DataStore] *)
Record DataStore (K : Type) := {
  AddNIC : string -> Z -> bool -> K -> option error * K;
  AddIPv4AddressFromStore : string -> string -> K -> option error * K;
  AssignPodIPv4Address : K8SPodInfo.t -> K -> res (string * Z) * K;
  GetNICInfos : K -> NICInfos * K;
  GetStats : K -> (Z * Z) * K
}.

(** What ipam asks of the operating system: [os.LookupEnv], [os.Create],
    the write of a rendered template to the created file, [time.Sleep],
    [net.Listen] and [types.LinkByMacAddr]. *)
Record OS (K : Type) := {
  LookupEnv : string -> K -> option string;
  Create : string -> K -> option error * K;
  Write : string -> string -> K -> option error * K;
  Sleep : Z -> K -> K;
  Listen : string -> K -> option error * K;
  LinkByMacAddr : string -> K -> res Link * K
}.

(** ** Calls and their answers *)

Inductive event :=
| EvK8sStart (e : option error)
| EvNewQingCloudClient (config : option LabelResourceConfig) (e : option error)
| EvGetInstanceID (id : string)
| EvGetNodeVPC (r : res VPC.t)
| EvEnsureVxNet (r : res VxNet.t)
| EvGetPrimaryNIC (r : res HostNic.t)
| EvSetupHostNetwork (vpcNetwork : IPNet.t) (vpcSubnets : list string)
    (mac : string) (primaryIP : net_IP) (e : option error)
| EvGetAttachedNICs (vxnet : string) (r : res (list HostNic.t))
| EvLinkByMacAddr (mac : string) (r : res Link)
| EvAddNIC (id : string) (deviceNumber : Z) (isPrimary : bool) (e : option error)
| EvSetupNICNetwork (address mac : string) (deviceNumber : Z) (subnet : string)
    (e : option error)
| EvAddIPv4AddressFromStore (id address : string) (e : option error)
| EvGetCurrentNodePods (r : res (list K8SPodInfo.t))
| EvRetrySleep (sleep : Z)
| EvGetRuleList (r : res (list Rule.t))
| EvAssignPodIPv4Address (pod : K8SPodInfo.t) (r : res (string * Z))
| EvGetNICInfos (infos : NICInfos)
| EvUseExternalSNAT (b : bool)
| EvUpdateRuleListBySrc (rules : list Rule.t) (src : IPNet.t) (cidrs : list string)
    (requiresSNAT : bool) (table : Z) (e : option error)
| EvGoStartReconcileIPPool
| EvListen (address : string) (e : option error)
| EvGoServe
| EvSleep (seconds : Z)
| EvGetStats (stats : Z * Z)
| EvCreate (path : string) (e : option error)
| EvWrite (path content : string) (e : option error).

(** ** Library functions ipam calls *)

(** [strings.Split(s, sep)] for a separator of one character. *)
Fixpoint Split (s : string) (sep : ascii) : list string :=
  match s with
  | EmptyString => [EmptyString]
  | String c s' =>
      if Ascii.eqb c sep then EmptyString :: Split s' sep
      else match Split s' sep with
           | [] => [String c EmptyString]
           | word :: words => String c word :: words
           end
  end.

(** A parsed [text/template]: literal text and the fields it prints. *)
Inductive piece (D : Type) :=
| Text (s : string)
| Field (f : D -> string).
Arguments Text {D} s.
Arguments Field {D} f.

(** [Template.Execute]: what is written for the data [d]. *)
Definition Execute {D} (t : list (piece D)) (d : D) : string :=
  String.concat "" (map (fun p => match p with Text s => s | Field f => f d end) t).

Definition DQ : string := String "034" EmptyString.
Definition TAB : string := String "009" EmptyString.
Definition NL : string := String "010" EmptyString.

(** A JSON string literal as the template spells it. *)
Definition quoted (s : string) : string := DQ ++ s ++ DQ.

(** ** Vocabulary of the statements about ipam *)

(** A string without its spaces, tabs, line feeds and carriage returns. *)
Fixpoint squeeze (s : string) : string :=
  match s with
  | EmptyString => EmptyString
  | String c s' =>
      if (Ascii.eqb c " " || Ascii.eqb c "009" || Ascii.eqb c "010"
          || Ascii.eqb c "013")%bool
      then squeeze s'
      else String c (squeeze s')
  end.

(** The configuration file as the specification prints it, for a veth
    prefix. *)
Definition spec_conflist (prefix : string) : string :=
  ("{" ++ quoted "cniVersion" ++ ":" ++ quoted "0.3.1" ++ ","
       ++ quoted "name" ++ ":" ++ quoted "hostnic-cni" ++ "," ++ NL ++
   " " ++ quoted "plugins" ++ ":[{"
       ++ quoted "name" ++ ":" ++ quoted "hostnic" ++ ","
       ++ quoted "type" ++ ":" ++ quoted "hostnic" ++ ","
       ++ quoted "vethPrefix" ++ ":" ++ quoted prefix ++ "}]}")%string.

(** The calls that touch the file system. *)
Definition is_file_event (ev : event) : bool :=
  match ev with
  | EvCreate _ _ | EvWrite _ _ _ => true
  | _ => false
  end.

Definition is_GetRuleList (ev : event) : bool :=
  match ev with EvGetRuleList _ => true | _ => false end.

(** The calls that neither touch the file system nor read the rule list. *)
Definition plain (ev : event) : Prop :=
  is_file_event ev = false /\ is_GetRuleList ev = false.

(** The calls of the four phases of [setup]: the discovery of the node in
    the cloud, the setting up of the attached NICs, the listing of the
    pods of the node, and their recovery. *)
Definition is_discovery (ev : event) : bool :=
  match ev with
  | EvNewQingCloudClient _ _ | EvGetInstanceID _ | EvGetNodeVPC _ | EvEnsureVxNet _
  | EvGetPrimaryNIC _ | EvSetupHostNetwork _ _ _ _ _ | EvGetAttachedNICs _ _ => true
  | _ => false
  end.

Definition is_nic_event (ev : event) : bool :=
  match ev with
  | EvLinkByMacAddr _ _ | EvAddNIC _ _ _ _ | EvSetupNICNetwork _ _ _ _ _
  | EvAddIPv4AddressFromStore _ _ _ => true
  | _ => false
  end.

Definition is_listing (ev : event) : bool :=
  match ev with
  | EvGetCurrentNodePods _ | EvRetrySleep _ => true
  | _ => false
  end.

Definition is_recovery (ev : event) : bool :=
  match ev with
  | EvGetRuleList _ | EvAssignPodIPv4Address _ _ | EvGetNICInfos _
  | EvUseExternalSNAT _ | EvUpdateRuleListBySrc _ _ _ _ _ _ => true
  | _ => false
  end.

(** The calls of [StartIPAMD]: the start of the controller and [setup]. *)
Definition is_bootstrap (ev : event) : bool :=
  match ev with
  | EvK8sStart _ => true
  | _ => is_discovery ev || is_nic_event ev || is_listing ev || is_recovery ev
  end.

(** A call of the setting up of the NIC [nic]. *)
Definition about_nic (nic : HostNic.t) (ev : event) : Prop :=
  match ev with
  | EvLinkByMacAddr mac _ => mac = HostNic.HardwareAddr nic
  | EvAddNIC id _ isPrimary _ =>
      id = HostNic.ID nic /\ isPrimary = HostNic.IsPrimary nic
  | EvSetupNICNetwork address mac _ _ _ =>
      address = HostNic.Address nic /\ mac = HostNic.HardwareAddr nic
  | EvAddIPv4AddressFromStore id address _ =>
      id = HostNic.ID nic /\ address = HostNic.Address nic
  | _ => False
  end.

(** The error a call was answered with, nil ([None]) when it succeeded
    or has no error to answer with. *)
Definition res_error {A} (r : res A) : option error :=
  match r with Ok _ => None | Err e => Some e end.

Definition error_of (ev : event) : option error :=
  match ev with
  | EvK8sStart e | EvNewQingCloudClient _ e | EvSetupHostNetwork _ _ _ _ e
  | EvAddNIC _ _ _ e | EvSetupNICNetwork _ _ _ _ e
  | EvAddIPv4AddressFromStore _ _ e | EvUpdateRuleListBySrc _ _ _ _ _ e
  | EvListen _ e | EvCreate _ e | EvWrite _ _ e => e
  | EvGetNodeVPC r => res_error r
  | EvEnsureVxNet r => res_error r
  | EvGetPrimaryNIC r => res_error r
  | EvGetAttachedNICs _ r => res_error r
  | EvLinkByMacAddr _ r => res_error r
  | EvGetCurrentNodePods r => res_error r
  | EvGetRuleList r => res_error r
  | EvAssignPodIPv4Address _ r => res_error r
  | EvGetInstanceID _ | EvRetrySleep _ | EvGetNICInfos _ | EvUseExternalSNAT _
  | EvGoStartReconcileIPPool | EvGoServe | EvSleep _ | EvGetStats _ => None
  end.

(** The error [e] is [e0] handed on: as it is, wrapped with [errors.Wrap]
    or [errors.Wrapf], or reformatted with [fmt.Errorf]. *)
Definition handed_on (e0 e : error) : Prop :=
  e = e0 \/
  (exists fmt args, e = Wrapf fmt args e0) \/
  (exists fmt, e = Errorf fmt e0).

(** What [setup] hands to [prepareLocalPods] after a listing answered
    with [r]. *)
Definition listed (r : res (list K8SPodInfo.t)) : list K8SPodInfo.t :=
  match r with Ok pods => pods | Err _ => [] end.

(** How many times a character occurs in a string. *)
Fixpoint occurrences (c : ascii) (s : string) : nat :=
  match s with
  | EmptyString => O
  | String c' s' =>
      if Ascii.eqb c' c then S (occurrences c s') else occurrences c s'
  end.

Section WithWorld.
Variable K : Type.
Variable k8s : K8sHelper.t K.
Variable qc : QingCloudAPI K.
Variable networkClient : NetworkAPIs K.
Variable dataStore : DataStore K.
Variable os : OS K.
(** The method [Error()] of the interface [error]. *)
Variable Error : error -> string.
(** [datastore.DuplicatedNICError] *)
Variable DuplicatedNICError : string.
(** [IPNet.String], [net.ParseIP] and [networkutils.GetVPNNet] *)
Variable IPNet_String : IPNet.t -> string.
Variable ParseIP : string -> net_IP.
Variable GetVPNNet : string -> string.

Definition state := state K event IpamD.

(** [os.Getenv]: the value of the variable, empty when it is unset. *)
Definition Getenv (key : string) : M state string :=
  fun st =>
    (Return (match LookupEnv os key (kernel st) with Some v => v | None => "" end), st).

(** Modelled from the spec: [retry.Do] (package retry is not among the
    sources).  "A small utility parameterized by (max attempts, backoff)",
    "bounded retry, 5 attempts at 5 s": the closure is called until it
    returns nil, at most [attempts] times, with a sleep between two calls;
    the error of the last call is the result.  The closure hands back the
    variables it assigns together with its error. *)
Fixpoint retry_loop {V} (retries : nat) (sleep : Z) (fn : M state (V * option error))
  : M state (V * option error) :=
  out <- fn;;
  match snd out, retries with
  | None, _ => ret out
  | Some _, O => ret out
  | Some _, S n =>
      tell (Sleep os sleep) (EvRetrySleep sleep);;;
      retry_loop n sleep fn
  end.

Definition retry_Do {V} (attempts : Z) (sleep : Z) (fn : M state (V * option error))
  : M state (V * option error) :=
  retry_loop (Z.to_nat (attempts - 1)) sleep fn.

Definition vpcSubnets : M state (list string) :=
  s <- get_self;;
  vpc <- deref (vpc s);;
  ret (map (fun vxnet => IPNet_String (VxNet.Network vxnet)) (VPC.VxNets vpc)).

Definition prepareQingCloudClient (config : option LabelResourceConfig)
  : M state unit :=
  err <- call (NewQingCloudClient qc config) (EvNewQingCloudClient config);;
  guard err (Errorf "Failed to initiate qingcloud api, err: %v").

Definition parseEnv : M state unit :=
  t <- Getenv envExtraTags;;
  (if negb (t =? "")%string then modify_self (set_extraTags (Split t ","))
   else ret tt);;;
  v <- Getenv envClusterName;;
  modify_self (set_clusterName v);;;
  s <- get_self;;
  (if (clusterName s =? "")%string then modify_self (set_clusterName defaultClusterName)
   else ret tt);;;
  v <- Getenv envVethPrefix;;
  modify_self (set_vethPrefix v);;;
  s <- get_self;;
  (if (vethPrefix s =? "")%string then modify_self (set_vethPrefix defaultVethPrefix)
   else ret tt).

(** Modelled from the spec: [IpamD.EnsureVxNet] (its file is not among
    the sources).  "ensure a dedicated subnet", "ensure_vxnet(...) ->
    Subnet, idempotent: create if cluster has none, else pick": the subnet
    the cloud answers with becomes [s.vxnet]. *)
Definition EnsureVxNet : M state unit :=
  r <- call (ensureVxNet qc) EvEnsureVxNet;;
  vxnet <- unwrap r (fun e => e);;
  modify_self (set_vxnet (Some vxnet)).

(** The scan of [getNicIndexByIP] over the pools. *)
Fixpoint nicIndexByIP (nics : list (string * NICIPPool.t)) (ip : string) : Z :=
  match nics with
  | [] => -1
  | (_, nic) :: rest =>
      if existsb (fun i => (i =? ip)%string) (NICIPPool.IPv4Addresses nic)
      then NICIPPool.DeviceNumber nic
      else nicIndexByIP rest ip
  end.

Definition getNicIndexByIP (ip : string) : M state Z :=
  infos <- call (GetNICInfos dataStore) EvGetNICInfos;;
  ret (nicIndexByIP (NICIPPools infos) ip).

(** The body of the loop of [prepareLocalPods] over the pods. *)
Definition recoverPod (rules : list Rule.t) (ip : K8SPodInfo.t) : M state unit :=
  if (K8SPodInfo.IP ip =? "")%string then ret tt (* continue *)
  else
    (* the error of the assignment is only logged *)
    _ <- call (AssignPodIPv4Address dataStore ip) (EvAssignPodIPv4Address ip);;
    (* Update ip rules in case there is a change in VPC CIDRs or in the
       external SNAT setting *)
    let srcIPNet := IPNet.mk (ParseIP (K8SPodInfo.IP ip)) (IPv4Mask 255 255 255 255) in
    cidrs <- vpcSubnets;;
    (* append vpn net *)
    let pbVPCcidrs := cidrs ++ [GetVPNNet (K8SPodInfo.IP ip)] in
    table <- getNicIndexByIP (K8SPodInfo.IP ip);;
    if table =? -1 then ret tt (* continue *)
    else
      snat <- call (UseExternalSNAT networkClient) EvUseExternalSNAT;;
      (* the error of the update is only logged *)
      _ <- call (UpdateRuleListBySrc networkClient rules srcIPNet pbVPCcidrs
                   (negb snat) table)
                (EvUpdateRuleListBySrc rules srcIPNet pbVPCcidrs (negb snat) table);;
      ret tt.

Fixpoint recoverPods (rules : list Rule.t) (pods : list K8SPodInfo.t) : M state unit :=
  match pods with
  | [] => ret tt
  | ip :: rest => recoverPod rules ip;;; recoverPods rules rest
  end.

Definition prepareLocalPods (pods : list K8SPodInfo.t) : M state unit :=
  r <- call (GetRuleList networkClient) EvGetRuleList;;
  match r with
  | Err _ => ret tt (* return nil *)
  | Ok rules => recoverPods rules pods;;; ret tt
  end.

Definition setupNic (nic : HostNic.t) : M state unit :=
  (* check device number *)
  nic <- (if HostNic.DeviceNumber nic <=? 0 then
            r <- call (LinkByMacAddr os (HostNic.HardwareAddr nic))
                      (EvLinkByMacAddr (HostNic.HardwareAddr nic));;
            link <- unwrap r (fun e => e);;
            ret (HostNic.set_DeviceNumber (LinkAttrs.Index (Attrs link)) nic)
          else ret nic);;
  err <- call (AddNIC dataStore (HostNic.ID nic) (HostNic.DeviceNumber nic)
                 (HostNic.IsPrimary nic))
              (EvAddNIC (HostNic.ID nic) (HostNic.DeviceNumber nic)
                 (HostNic.IsPrimary nic));;
  match err with
  | Some e =>
      if negb (Error e =? DuplicatedNICError)%string
      then throw (Wrapf "failed to add NIC %s to data store" [AStr (HostNic.ID nic)] e)
      else ret tt
  | None => ret tt
  end;;;
  if negb (HostNic.IsPrimary nic) then
    s <- get_self;;
    vxnet <- deref (vxnet s);;
    let subnet := IPNet_String (VxNet.Network vxnet) in
    err <- call (SetupNICNetwork networkClient (HostNic.Address nic)
                   (HostNic.HardwareAddr nic) (HostNic.DeviceNumber nic) subnet)
                (EvSetupNICNetwork (HostNic.Address nic) (HostNic.HardwareAddr nic)
                   (HostNic.DeviceNumber nic) subnet);;
    guard err (fun e => e);;;
    (* the error of the addition to the pool is only logged *)
    _ <- call (AddIPv4AddressFromStore dataStore (HostNic.ID nic) (HostNic.Address nic))
              (EvAddIPv4AddressFromStore (HostNic.ID nic) (HostNic.Address nic));;
    ret tt
  else ret tt.

(** [for _, nic := range attachedNICs { ... }] *)
Fixpoint setupNics (attachedNICs : list HostNic.t) : M state unit :=
  match attachedNICs with
  | [] => ret tt
  | nic :: rest => setupNic nic;;; setupNics rest
  end.

(** The closure [setup] hands to [retry.Do]; it assigns [pods]. *)
Definition fetchPods : M state (list K8SPodInfo.t * option error) :=
  r <- call (K8sHelper.GetCurrentNodePods k8s) EvGetCurrentNodePods;;
  match r with
  | Err e => ret ([], Some e)
  | Ok pods =>
      let allPodsHaveAnIP :=
        forallb (fun pod => negb (K8SPodInfo.IP pod =? "")%string) pods in
      if allPodsHaveAnIP then ret (pods, None)
      else ret (pods, Some (ErrorNew "Should retry"))
  end.

Definition setup : M state unit :=
  parseEnv;;;
  s <- get_self;;
  let labelConfig :=
    if disableLabel s then None
    else Some {| ClusterName := clusterName s; ExtraLabels := extraTags s |} in
  prepareQingCloudClient labelConfig;;;
  id <- call (GetInstanceID qc) EvGetInstanceID;;
  modify_self (set_InstanceID id);;;
  r <- call (GetNodeVPC qc) EvGetNodeVPC;;
  modify_self (set_vpc (match r with Ok v => Some v | Err _ => None end));;;
  _ <- unwrap r (fun e => e);;
  EnsureVxNet;;;
  r <- call (GetPrimaryNIC qc) EvGetPrimaryNIC;;
  modify_self (set_primaryNic (match r with Ok n => Some n | Err _ => None end));;;
  _ <- unwrap r (fun e => e);;
  s <- get_self;;
  primaryNic <- deref (primaryNic s);;
  let primaryIP := ParseIP (HostNic.Address primaryNic) in
  (* setup host network *)
  vpc <- deref (vpc s);;
  subnets <- vpcSubnets;;
  err <- call (SetupHostNetwork networkClient (VPC.Network vpc) subnets
                 (HostNic.HardwareAddr primaryNic) primaryIP)
              (EvSetupHostNetwork (VPC.Network vpc) subnets
                 (HostNic.HardwareAddr primaryNic) primaryIP);;
  guard err (Wrapf "ipamd init: failed to setup host network" []);;;
  vxnet <- deref (vxnet s);;
  r <- call (GetAttachedNICs qc (VxNet.ID vxnet)) (EvGetAttachedNICs (VxNet.ID vxnet));;
  attachedNICs <- unwrap r (fun e => e);;
  setupNics attachedNICs;;;
  (* process local pods *)
  out <- retry_Do 5 5 fetchPods;;
  let pods := fst out in
  prepareLocalPods pods;;;
  ret tt.

(** [StartIPAMD] will start all long-running components in IpamD *)
Definition StartIPAMD : M state unit :=
  err <- call (K8sHelper.Start k8s) EvK8sStart;;
  guard err (fun e => e);;;
  setup.

(** [StartGrpcServer]: starting the GRPC server *)
Definition StartGrpcServer : M state unit :=
  err <- call (Listen os ipamdgRPCaddress) (EvListen ipamdgRPCaddress);;
  guard err (fun e => e);;;
  (* go grpcServer.Serve(listener) *)
  tell (fun k => k) EvGoServe.

Definition GetCurrentAddressInfo : M state (Z * Z) :=
  call (GetStats dataStore) EvGetStats.

(** The local struct [conf] of [WriteCNIConfig]. *)
Record conf := { CniVersion : string; VethPrefix : string }.

(** The template [templ] of [WriteCNIConfig], parsed. *)
Definition templ : list (piece conf) :=
  [ Text ("{" ++ NL ++
          TAB ++ quoted "cniVersion" ++ ": " ++ DQ);
    Field CniVersion;
    Text (DQ ++ "," ++ NL ++
          TAB ++ quoted "name" ++ ": " ++ quoted "hostnic-cni" ++ "," ++ NL ++
          TAB ++ quoted "plugins" ++ ": [" ++ NL ++
          TAB ++ TAB ++ "{" ++ NL ++
          TAB ++ TAB ++ quoted "name" ++ ": " ++ quoted "hostnic" ++ "," ++ NL ++
          TAB ++ TAB ++ quoted "type" ++ ": " ++ quoted "hostnic" ++ "," ++ NL ++
          TAB ++ TAB ++ quoted "vethPrefix" ++ ": " ++ DQ);
    Field VethPrefix;
    Text (DQ ++ NL ++
          TAB ++ TAB ++ "}]" ++ NL ++
          "}") ]%string.

(** [WriteCNIConfig]; parsing the constant template cannot fail. *)
Definition WriteCNIConfig : M state unit :=
  err <- call (Create os configFileName) (EvCreate configFileName);;
  guard err (fun e => e);;;
  s <- get_self;;
  let conf := {| CniVersion := "0.3.1"; VethPrefix := vethPrefix s |} in
  err <- call (Write os configFileName (Execute templ conf))
              (EvWrite configFileName (Execute templ conf));;
  guard err (fun e => e).

(** The closure [Start] hands to [retry.Do]. *)
Definition writeWhenFree : M state (unit * option error) :=
  stats <- call (GetStats dataStore) EvGetStats;;
  let (total, assigned) := stats in
  if assigned <? total then
    err <- attempt WriteCNIConfig;;
    match err with
    | Some e => ret (tt, Some (Errorf "Failed to write CNI configlist, err: %s" e))
    | None => ret (tt, None)
    end
  else ret (tt, Some (ErrorNew "DataStore has no enough pods")).

Definition Start : M state unit :=
  modify_self (fun _ => NewIpamD);;;
  StartIPAMD;;;
  (* go ipamd.StartReconcileIPPool(stopCh) *)
  tell (fun k => k) EvGoStartReconcileIPPool;;;
  wrap_err (Errorf "Failed to start grpc server, err: %s") StartGrpcServer;;;
  (* waiting for nics, just wait 20s before starting to check *)
  tell (Sleep os 20) (EvSleep 20);;;
  out <- retry_Do 10 5 writeWhenFree;;
  guard (snd out) (fun e => e).

(** ** More vocabulary: the writes of the configuration file *)

(** The content [WriteCNIConfig] writes for a veth prefix. *)
Definition cniConfig (prefix : string) : string :=
  Execute templ {| CniVersion := "0.3.1"; VethPrefix := prefix |}.

(** Every call of a trace that touches the file system is on the
    configuration file: a creation comes right after statistics that show
    a free address, and a write, with the content for [prefix], right after
    a successful creation. *)
Definition file_guarded (prefix : string) (tr : list event) : Prop :=
  forall pre ev post,
    tr = pre ++ ev :: post ->
    match ev with
    | EvCreate path _ =>
        path = configFileName /\
        exists pre' total assigned,
          pre = pre' ++ [EvGetStats (total, assigned)] /\ assigned < total
    | EvWrite path content _ =>
        path = configFileName /\
        content = cniConfig prefix /\
        exists pre' total assigned,
          pre = pre' ++ [EvGetStats (total, assigned); EvCreate configFileName None] /\
          assigned < total
    | _ => True
    end.

(** From [st] to [st'] the receiver is untouched and only calls that
    satisfy [P] were made. *)
Definition calm (P : event -> Prop) (st st' : state) : Prop :=
  self st' = self st /\
  exists tr, trace st' = trace st ++ tr /\ Forall P tr.

(** An exit of the recovery started with the receiver [s]: it returns nil,
    unless [s.vpc] is nil and it panics. *)
Definition recovered (s : IpamD) (r : exit unit) : Prop :=
  match r with
  | Return _ => True
  | Raise _ => False
  | Panic _ => vpc s = None
  end.

(** The value [os.Getenv] reads in the world [k]. *)
Definition envOf (k : K) (key : string) : string :=
  match LookupEnv os key k with Some v => v | None => "" end.

(** The veth prefix [parseEnv] configures in the world [k]. *)
Definition prefixOf (k : K) : string :=
  if (envOf k envVethPrefix =? "")%string then defaultVethPrefix
  else envOf k envVethPrefix.

(** The cluster name and the extra tags [parseEnv] configures in the
    world [k], for a receiver whose extra tags were [tags]. *)
Definition clusterOf (k : K) : string :=
  if (envOf k envClusterName =? "")%string then defaultClusterName
  else envOf k envClusterName.

Definition tagsOf (k : K) (tags : list string) : list string :=
  if (envOf k envExtraTags =? "")%string then tags
  else Split (envOf k envExtraTags) ",".

(** The answers [setupNic] does not survive: a link that is not found, an
    error of [AddNIC] other than the duplicate, an error of
    [SetupNICNetwork]. *)
Definition fatal_in_setupNic (ev : event) : bool :=
  match ev with
  | EvLinkByMacAddr _ r => negb (is_ok r)
  | EvAddNIC _ _ _ (Some e) => negb (Error e =? DuplicatedNICError)%string
  | EvSetupNICNetwork _ _ _ _ (Some _) => true
  | _ => false
  end.

(** The calls of the recovery of one pod, for the rule list [rules] and
    the VPC [v]: none for a pod without an address; else the assignment,
    the read of the pools and, unless no pool carries the address, the
    read of the SNAT setting and the update of the rules of the pod. *)
Definition recoverCalls (rules : list Rule.t) (v : VPC.t) (pod : K8SPodInfo.t)
    (tr : list event) : Prop :=
  if (K8SPodInfo.IP pod =? "")%string then tr = []
  else
    exists r infos,
      let table := nicIndexByIP (NICIPPools infos) (K8SPodInfo.IP pod) in
      (tr = [EvAssignPodIPv4Address pod r; EvGetNICInfos infos] /\ table = -1) \/
      (exists snat e,
          tr = [ EvAssignPodIPv4Address pod r;
                 EvGetNICInfos infos;
                 EvUseExternalSNAT snat;
                 EvUpdateRuleListBySrc rules
                   (IPNet.mk (ParseIP (K8SPodInfo.IP pod)) [255; 255; 255; 255])
                   (map (fun vxnet => IPNet_String (VxNet.Network vxnet))
                        (VPC.VxNets v)
                    ++ [GetVPNNet (K8SPodInfo.IP pod)])
                   (negb snat) table e ] /\
          table <> -1).

(** The calls of a complete discovery, with what it found. *)
Definition discoveryCalls (config : option LabelResourceConfig) (id : string)
    (v : VPC.t) (vx : VxNet.t) (nic : HostNic.t) (attached : list HostNic.t)
  : list event :=
  [ EvNewQingCloudClient config None;
    EvGetInstanceID id;
    EvGetNodeVPC (Ok v);
    EvEnsureVxNet (Ok vx);
    EvGetPrimaryNIC (Ok nic);
    EvSetupHostNetwork (VPC.Network v)
      (map (fun vxnet => IPNet_String (VxNet.Network vxnet)) (VPC.VxNets v))
      (HostNic.HardwareAddr nic) (ParseIP (HostNic.Address nic)) None;
    EvGetAttachedNICs (VxNet.ID vx) (Ok attached) ].

End WithWorld.

(** ** Test doubles *)

(** An operating system whose environment is the association list [env];
    every call succeeds. *)
Definition stubOS (env : list (string * string)) : OS unit :=
  {| LookupEnv := fun key _ =>
       option_map snd (find (fun kv => (fst kv =? key)%string) env);
     Create := fun _ k => (None, k);
     Write := fun _ _ k => (None, k);
     Sleep := fun _ k => k;
     Listen := fun _ k => (None, k);
     LinkByMacAddr := fun _ k => (Err (ErrorNew "Link not found"), k) |}.

(** A controller that starts and lists [pods]. *)
Definition stubK8s (pods : list K8SPodInfo.t) : K8sHelper.t unit :=
  K8sHelper.mk (fun k => (None, k)) (fun k => (Ok pods, k)).

(** The subnet 10.0.1.0/24 of the VPC 10.0.0.0/16. *)
Definition stubVxNet : VxNet.t :=
  VxNet.mk "vxnet-1" (IPNet.mk [10; 0; 1; 0] [255; 255; 255; 0]).

Definition stubVPC : VPC.t :=
  VPC.mk (IPNet.mk [10; 0; 0; 0] [255; 255; 0; 0]) [stubVxNet].

(** A cloud with a primary NIC and one secondary NIC attached. *)
Definition stubQC : QingCloudAPI unit :=
  {| NewQingCloudClient := fun _ k => (None, k);
     GetInstanceID := fun k => ("i-node1", k);
     GetNodeVPC := fun k => (Ok stubVPC, k);
     ensureVxNet := fun k => (Ok stubVxNet, k);
     GetPrimaryNIC := fun k =>
       (Ok (HostNic.mk "nic-0" "10.0.0.5" "52:54:00:00:00:05" 0 true), k);
     GetAttachedNICs := fun _ k =>
       (Ok [HostNic.mk "nic-1" "10.0.1.7" "52:54:00:00:01:07" 2 false], k) |}.

(** A host network on which everything succeeds, the read of the rule
    list apart, which answers [rules]. *)
Definition stubNetwork (rules : res (list Rule.t)) : NetworkAPIs unit :=
  {| SetupHostNetwork := fun _ _ _ _ k => (None, k);
     SetupNICNetwork := fun _ _ _ _ k => (None, k);
     GetRuleList := fun k => (rules, k);
     UpdateRuleListBySrc := fun _ _ _ _ _ k => (None, k);
     DeleteRuleListBySrc := fun _ k => (None, k);
     UseExternalSNAT := fun k => (false, k) |}.

(** A datastore with the statistics [stats] whose one pool, on device 2,
    carries 10.0.1.7, and which refuses every assignment. *)
Definition stubDataStore (stats : Z * Z) : DataStore unit :=
  {| AddNIC := fun _ _ _ k => (None, k);
     AddIPv4AddressFromStore := fun _ _ k => (None, k);
     AssignPodIPv4Address := fun _ k => (Err (ErrorNew "unknown IP"), k);
     GetNICInfos := fun k =>
       ({| NICIPPools := [("nic-1", NICIPPool.mk 2 ["10.0.1.7"])] |}, k);
     GetStats := fun k => (stats, k) |}.

Definition stubError (e : error) : string :=
  match e with ErrorNew msg => msg | _ => "" end.

Definition stubIPNetString (n : IPNet.t) : string := "10.0.1.0/24".

Definition stubParseIP (s : string) : net_IP :=
  if (s =? "10.0.1.7")%string then [10; 0; 1; 7] else [].

Definition stubVPNNet (ip : string) : string := "10.0.0.0/16".

(** Two pods back from the orchestrator: one on the secondary NIC, one
    whose address no NIC carries. *)
Definition stubPods : list K8SPodInfo.t :=
  [ K8SPodInfo.mk "p1" "default" "c1" "10.0.1.7";
    K8SPodInfo.mk "p2" "default" "c2" "10.0.9.9" ].

Definition startIpam : state unit :=
  {| kernel := tt; trace := []; self := NewIpamD |}.

(** An environment with a veth prefix of seven characters. *)
Definition longPrefixEnv : list (string * string) :=
  [ ("HOSTNIC_EXTRA_TAGS", "team=net,env=prod"); ("HOSTNIC_VETH_PREFIX", "hostnic") ].

(** The receiver once the VPC is known. *)
Definition ipamWithVPC : state unit :=
  {| kernel := tt; trace := []; self := set_vpc (Some stubVPC) NewIpamD |}.

(** The recovery of [stubPods] when the rule list answers [rules]. *)
Definition recoverStubPods (rules : res (list Rule.t)) : exit unit * state unit :=
  prepareLocalPods (stubNetwork rules) (stubDataStore (1, 0)) stubIPNetString
    stubParseIP stubVPNNet stubPods ipamWithVPC.

(** The daemon started on a node whose pool has the statistics [stats]. *)
Definition startOnStubs (stats : Z * Z) : exit unit * state unit :=
  Start (stubK8s stubPods) stubQC (stubNetwork (Ok [])) (stubDataStore stats)
    (stubOS []) stubError "NIC already added" stubIPNetString stubParseIP
    stubVPNNet startIpam.

End Ipam.

(* ================================================================== *)
(** * Reasoning about runs *)
(* ================================================================== *)

Section WP.
Variable S : Type.

Lemma wp_ret {A} (a : A) (s : S) (Q : exit A -> S -> Prop) :
  Q (Return a) s -> wp (ret a) s Q.
Proof. exact (fun H => H). Qed.

Lemma wp_throw {A} e (s : S) (Q : exit A -> S -> Prop) :
  Q (Raise e) s -> wp (throw e) s Q.
Proof. exact (fun H => H). Qed.

Lemma wp_panic {A} msg (s : S) (Q : exit A -> S -> Prop) :
  Q (Panic msg) s -> wp (panic msg) s Q.
Proof. exact (fun H => H). Qed.

Lemma wp_bind {A B} (m : M S A) (f : A -> M S B) s (Q : exit B -> S -> Prop) :
  wp m s (fun r s' =>
            match r with
            | Return a => wp (f a) s' Q
            | Raise e => Q (Raise e) s'
            | Panic msg => Q (Panic msg) s'
            end) ->
  wp (bind m f) s Q.
Proof.
  unfold wp, bind. destruct (m s) as [[a | e | msg] s']; simpl; auto.
Qed.

Lemma wp_wrap_err {A} w (m : M S A) s (Q : exit A -> S -> Prop) :
  wp m s (fun r s' =>
            match r with
            | Raise e => Q (Raise (w e)) s'
            | _ => Q r s'
            end) ->
  wp (wrap_err w m) s Q.
Proof.
  unfold wp, wrap_err. destruct (m s) as [[a | e | msg] s']; simpl; auto.
Qed.

Lemma wp_attempt (m : M S unit) s (Q : exit (option error) -> S -> Prop) :
  wp m s (fun r s' =>
            match r with
            | Return _ => Q (Return None) s'
            | Raise e => Q (Return (Some e)) s'
            | Panic msg => Q (Panic msg) s'
            end) ->
  wp (attempt m) s Q.
Proof.
  unfold wp, attempt. destruct (m s) as [[a | e | msg] s']; simpl; auto.
Qed.

Lemma wp_mono {A} (m : M S A) s (P Q : exit A -> S -> Prop) :
  wp m s P -> (forall r s', P r s' -> Q r s') -> wp m s Q.
Proof. unfold wp. auto. Qed.

Lemma wp_guard err w (s : S) (Q : exit unit -> S -> Prop) :
  match err with None => Q (Return tt) s | Some e => Q (Raise (w e)) s end ->
  wp (guard err w) s Q.
Proof. destruct err; exact (fun H => H). Qed.

Lemma wp_unwrap {A} (r : res A) w (s : S) (Q : exit A -> S -> Prop) :
  match r with Ok a => Q (Return a) s | Err e => Q (Raise (w e)) s end ->
  wp (unwrap r w) s Q.
Proof. destruct r; exact (fun H => H). Qed.

Lemma wp_deref {A} (p : option A) (s : S) (Q : exit A -> S -> Prop) :
  match p with
  | Some a => Q (Return a) s
  | None => Q (Panic "invalid memory address or nil pointer dereference") s
  end ->
  wp (deref p) s Q.
Proof. destruct p; exact (fun H => H). Qed.
End WP.

Section WorldFacts.
Variables K E Self : Type.
Let state := state K E Self.

Lemma wp_call {A} (op : K -> A * K) (ev : A -> E) (st : state)
    (Q : exit A -> state -> Prop) :
  (forall a k', Q (Return a)
                  {| kernel := k'; trace := trace st ++ [ev a]; self := self st |}) ->
  wp (call op ev) st Q.
Proof.
  intros H. unfold wp, call. destruct (op (kernel st)) as [a k']. apply H.
Qed.

(** The same, naming the answer the world gives. *)
Lemma wp_call_exact {A} (op : K -> A * K) (ev : A -> E) (st : state)
    (Q : exit A -> state -> Prop) :
  Q (Return (fst (op (kernel st))))
    {| kernel := snd (op (kernel st));
       trace := trace st ++ [ev (fst (op (kernel st)))];
       self := self st |} ->
  wp (call op ev) st Q.
Proof.
  unfold wp, call. destruct (op (kernel st)) as [a k']. exact (fun H => H).
Qed.

Lemma wp_tell (op : K -> K) (ev : E) (st : state) (Q : exit unit -> state -> Prop) :
  Q (Return tt)
    {| kernel := op (kernel st); trace := trace st ++ [ev]; self := self st |} ->
  wp (tell op ev) st Q.
Proof. exact (fun H => H). Qed.

Lemma wp_get_self (st : state) (Q : exit Self -> state -> Prop) :
  Q (Return (self st)) st -> wp get_self st Q.
Proof. exact (fun H => H). Qed.

Lemma wp_modify_self (f : Self -> Self) (st : state) (Q : exit unit -> state -> Prop) :
  Q (Return tt) {| kernel := kernel st; trace := trace st; self := f (self st) |} ->
  wp (modify_self f) st Q.
Proof. exact (fun H => H). Qed.

(** Using what is known of a block inside a longer run. *)
Lemma wp_emits {A} (m : M state A) (P : exit A -> list E -> Prop) (st : state)
    (Q : exit A -> state -> Prop) :
  emits m P ->
  (forall r st' tr, trace st' = trace st ++ tr -> P r tr -> Q r st') ->
  wp m st Q.
Proof.
  intros Hm HQ. eapply wp_mono; [apply Hm|].
  intros r st' (tr & Htr & HP). eauto.
Qed.

Lemma emits_mono {A} (m : M state A) (P Q : exit A -> list E -> Prop) :
  emits m P -> (forall r tr, P r tr -> Q r tr) -> emits m Q.
Proof.
  intros Hm HPQ st. eapply wp_mono; [apply Hm|].
  intros r st' (tr & Htr & HP). eauto.
Qed.
End WorldFacts.

(** ** Sequencing *)

Section Sequencing.
Variables K E Self : Type.
Let state := state K E Self.

(** The calls of [bind m f] are those of [m] followed, when [m] returns,
    by those of [f]. *)
Lemma emits_bind {A B} (m : M state A) (f : A -> M state B)
    (P : exit A -> list E -> Prop) (Q : A -> exit B -> list E -> Prop) :
  emits m P ->
  (forall a, emits (f a) (Q a)) ->
  emits (bind m f)
        (fun r tr =>
           exists r1 t1 t2,
             tr = t1 ++ t2 /\ P r1 t1 /\
             match r1 with
             | Return a => Q a r t2
             | Raise e => t2 = [] /\ r = Raise e
             | Panic msg => t2 = [] /\ r = Panic msg
             end).
Proof.
  intros H1 H2 st. apply wp_bind. eapply wp_emits; [apply H1|].
  intros r1 st1 tr1 E1 P1. destruct r1 as [a | e | msg].
  - eapply wp_emits; [apply H2|].
    intros r2 st2 tr2 E2 Q2. exists (tr1 ++ tr2).
    split; [rewrite E2, E1, app_assoc; reflexivity|].
    exists (Return a), tr1, tr2. auto.
  - exists tr1. split; [exact E1|].
    exists (Raise e), tr1, []. rewrite app_nil_r. auto.
  - exists tr1. split; [exact E1|].
    exists (Panic msg), tr1, []. rewrite app_nil_r. auto.
Qed.

(** Two facts about the same program hold of the same run. *)
Lemma emits_conj {A} (m : M state A) (P Q : exit A -> list E -> Prop) :
  emits m P -> emits m Q -> emits m (fun r tr => P r tr /\ Q r tr).
Proof.
  intros HP HQ st. unfold emits, wp in *.
  destruct (HP st) as (t1 & E1 & P1). destruct (HQ st) as (t2 & E2 & Q2).
  exists t1. split; [exact E1|]. split; [exact P1|].
  rewrite E1 in E2. apply app_inv_head in E2. subst t2. exact Q2.
Qed.

Lemma emits_wrap_err {A} (w : error -> error) (m : M state A)
    (P : exit A -> list E -> Prop) :
  emits m P ->
  emits (wrap_err w m)
        (fun r tr =>
           exists r0, P r0 tr /\
             r = match r0 with Raise e => Raise (w e) | _ => r0 end).
Proof.
  intros H st. apply wp_wrap_err. eapply wp_emits; [apply H|].
  intros r st' tr Etr HP.
  destruct r as [a | e | msg]; exists tr; (split; [exact Etr|]); eauto.
Qed.

Lemma wp_conj {A} (m : M state A) (st : state) (P Q : exit A -> state -> Prop) :
  wp m st P -> wp m st Q -> wp m st (fun r st' => P r st' /\ Q r st').
Proof. unfold wp. auto. Qed.

(** A call that satisfies [p] in a trace that starts with calls that do
    not comes after all of these. *)
Lemma first_after_prefix (p : E -> bool) (tr0 tr' pre post : list E) (ev : E) :
  Forall (fun x => p x = false) tr0 ->
  p ev = true ->
  tr0 ++ tr' = pre ++ ev :: post ->
  exists rest, pre = tr0 ++ rest /\ tr' = rest ++ ev :: post.
Proof.
  intros F Hev Eq. apply app_eq_app in Eq.
  destruct Eq as (l & [(E1 & E2) | (E1 & E2)]).
  - destruct l as [| x l].
    + exists []. rewrite app_nil_r in *. cbn in E2. auto.
    + injection E2 as <- _. subst tr0.
      apply Forall_app in F. destruct F as (_ & F). inversion F. congruence.
  - exists l. auto.
Qed.
End Sequencing.

(** One step of symbolic execution, chosen by the head of the program. *)
Ltac wp_step :=
  cbv beta iota zeta;
  lazymatch goal with
  | |- wp (ret _) _ _ => apply wp_ret
  | |- wp (throw _) _ _ => apply wp_throw
  | |- wp (panic _) _ _ => apply wp_panic
  | |- wp (bind _ _) _ _ => apply wp_bind
  | |- wp (call _ _) _ _ => apply wp_call; intros ? ?
  | |- wp (tell _ _) _ _ => apply wp_tell
  | |- wp (guard _ _) _ _ => apply wp_guard
  | |- wp (unwrap _ _) _ _ => apply wp_unwrap
  | |- wp (deref _) _ _ => apply wp_deref
  | |- wp get_self _ _ => apply wp_get_self
  | |- wp (modify_self _) _ _ => apply wp_modify_self
  | |- wp (wrap_err _ _) _ _ => apply wp_wrap_err
  | |- wp (attempt _) _ _ => apply wp_attempt
  end.

(** Symbolic execution with a case split on every answer. *)
Ltac wp_run :=
  repeat first
    [ wp_step
    | match goal with
      | |- match ?x with _ => _ end => destruct x
      end ].

(** The trace of the state reached, as the start trace followed by a list. *)
Ltac trace_norm :=
  cbn [trace kernel self]; repeat rewrite <- app_assoc; cbn [app].

Ltac emitted :=
  trace_norm; eexists;
  split; [first [reflexivity | symmetry; apply app_nil_r]|].

(* ================================================================== *)
(** * Facts about package driver *)
(* ================================================================== *)

Module DriverFacts.
Import Driver.

Section Blocks.
Variable K : Type.
Let state := Driver.state K.

Lemma wp_finally {A} (m : M state A) (after : M state unit) (st : state)
    (Q : exit A -> state -> Prop) :
  wp m st (fun r st' => Q r (snd (after st'))) ->
  wp (finally m after) st Q.
Proof.
  unfold wp, finally. destruct (m st) as [r st']. exact (fun H => H).
Qed.

Variable addr : IPNet.t.
Variable table : Z.
Variable snat : bool.

Lemma good_seq (m1 m2 : M state unit) (S1 S2 : list event -> Prop) :
  emits m1 (good addr table snat S1) ->
  emits m2 (good addr table snat S2) ->
  emits (bind m1 (fun _ => m2))
        (good addr table snat
              (fun tr => exists t1 t2, tr = t1 ++ t2 /\ S1 t1 /\ S2 t2)).
Proof.
  intros H1 H2 st. apply wp_bind.
  eapply wp_emits; [apply H1|].
  intros r1 st1 tr1 E1 (T1 & N1 & R1 & O1).
  destruct r1 as [[] | e | msg]; [| | destruct N1].
  - eapply wp_emits; [apply H2|].
    intros r2 st2 tr2 E2 (T2 & N2 & R2 & O2).
    exists (tr1 ++ tr2). split; [rewrite E2, E1, app_assoc; reflexivity|].
    split; [apply Forall_app; auto|]. split; [exact N2|].
    split.
    + rewrite forallb_app, <- R1, <- R2. reflexivity.
    + intros ->. exists tr1, tr2. auto.
  - exists tr1. split; [exact E1|].
    split; [exact T1|]. split; [exact I|]. split; [exact R1|]. discriminate.
Qed.

Lemma good_wrap_err w (m : M state unit) (S1 : list event -> Prop) :
  emits m (good addr table snat S1) ->
  emits (wrap_err w m) (good addr table snat S1).
Proof.
  intros H st. apply wp_wrap_err. eapply wp_emits; [apply H|].
  intros r st' tr E (T & N & R & O).
  destruct r as [[] | e | msg]; exists tr; (split; [exact E|]);
    repeat split; auto; discriminate.
Qed.

Lemma good_weaken (m : M state unit) (S1 S2 : list event -> Prop) :
  emits m (good addr table snat S1) ->
  (forall tr, S1 tr -> S2 tr) ->
  emits m (good addr table snat S2).
Proof.
  intros H HS. eapply emits_mono; [apply H|].
  intros r tr (T & N & R & O). repeat split; auto.
Qed.

(** Every call of an explicit list is tame. *)
Ltac tame_list :=
  repeat first [ apply Forall_nil | apply Forall_cons ];
  try exact I; try assumption.

(** Closing a leaf of a symbolic execution whose calls are all listed. *)
Ltac good_leaf :=
  emitted;
  repeat split;
  [ tame_list | discriminate || (intros _; eauto) ].

Lemma run_good (c : createVethPairContext K) (hostNS : NetNS) :
  emits (run c hostNS)
        (good addr table snat
              (fun tr => exists hostVeth contVeth,
                   tr = run_steps c hostNS hostVeth contVeth)).
Proof.
  intros st. unfold run. wp_run; good_leaf.
  do 2 eexists. reflexivity.
Qed.

Lemma ns_good (ns : NS K) (path : string) (c : createVethPairContext K) w :
  emits (wrap_err w (WithNetNSPath ns path (run c)))
        (good addr table snat
              (fun tr => exists hostNS hostVeth contVeth,
                   tr = EvEnterNS path (Ok hostNS)
                          :: run_steps c hostNS hostVeth contVeth ++ [EvLeaveNS])).
Proof.
  apply good_wrap_err. intros st. unfold WithNetNSPath.
  apply wp_bind. apply wp_call. intros [hostNS | e] k'.
  - wp_step. wp_step. apply wp_finally.
    eapply wp_emits; [apply run_good|].
    intros r st' tr E (T & N & R & O). cbn [trace] in E.
    exists (EvEnterNS path (Ok hostNS) :: tr ++ [EvLeaveNS]).
    split; [cbn; rewrite E; repeat rewrite <- app_assoc; reflexivity|].
    split; [constructor; [exact I|]; apply Forall_app; split; auto; repeat constructor|].
    split; [exact N|]. split.
    + cbn [forallb]. rewrite forallb_app, <- R. cbn. rewrite andb_true_r. reflexivity.
    + intros ->. destruct (O eq_refl) as (hv & cv & ->). eauto.
  - wp_step. wp_step. good_leaf.
Qed.

Lemma host_good (hostVethName : string) (nl : NetLink K) :
  emits (setupHostVeth hostVethName addr nl)
        (good addr table snat
              (fun tr => exists hostVeth,
                   tr = [ EvLinkByName hostVethName (Ok hostVeth);
                          EvLinkSetUp hostVeth None;
                          EvRouteReplace
                            (hostRoute addr (LinkAttrs.Index (Attrs hostVeth))) None ])).
Proof.
  intros st. unfold setupHostVeth. wp_run; good_leaf.
Qed.

Lemma addContainerRule_good (nl : NetLink K) (isTo : bool) (priority tbl : Z) :
  rule_ok addr table (containerRule nl isTo addr priority tbl) ->
  (priority =? fromContainerRulePriority) && negb snat = false ->
  emits (addContainerRule nl isTo addr priority tbl)
        (good addr table snat
              (fun tr => exists e,
                   del_refused e = false /\
                   tr = [ EvRuleDel (containerRule nl isTo addr priority tbl) e;
                          EvRuleAdd (containerRule nl isTo addr priority tbl) None ])).
Proof.
  intros Hok Hp st. unfold addContainerRule, guardDel.
  set (rule := containerRule nl isTo addr priority tbl) in *.
  assert (Hprio : Rule.Priority rule = priority) by reflexivity.
  assert (Hadd : forall e2,
             negb (fatal_in_setup snat (EvRuleAdd rule e2)) = negb (failed e2)).
  { intros [err2 |]; [|reflexivity]. unfold fatal_in_setup. rewrite Hprio.
    rewrite andb_comm in Hp. rewrite <- andb_assoc, Hp, andb_false_r. reflexivity. }
  apply wp_bind. apply wp_call. intros e1 k1. apply wp_bind.
  assert (Hrest : forall k,
             del_refused e1 = false ->
             wp (err <- call (RuleAdd nl rule) (EvRuleAdd rule);;
                 guard err
                   (Wrapf "addContainerRule: failed to add container rule for %s"
                          [ANet addr]);;;
                 ret tt)%go
                {| kernel := k; trace := trace st ++ [EvRuleDel rule e1];
                   self := self st |}
                (fun r st' =>
                   exists tr, trace st' = trace st ++ tr /\
                     good addr table snat
                          (fun tr0 => exists e, del_refused e = false /\
                               tr0 = [EvRuleDel rule e; EvRuleAdd rule None]) r tr)).
  { intros k Hdel. apply wp_bind. apply wp_call. intros e2 k2. apply wp_bind.
    destruct e2 as [err2 |]; wp_run; emitted; repeat split;
      try solve [tame_list]; try discriminate.
    - cbn [forallb]. rewrite Hadd. cbn. rewrite Hdel. reflexivity.
    - cbn [forallb]. rewrite Hadd. cbn. rewrite Hdel. reflexivity.
    - intros _. exists e1. auto. }
  destruct e1 as [err1 |]; cbv beta iota.
  - destruct (ContainsNoSuchRule err1) eqn:Hns; cbn [negb].
    + apply wp_ret. apply Hrest. cbn. rewrite Hns. reflexivity.
    + apply wp_throw. emitted. repeat split;
        try solve [tame_list]; try discriminate.
      cbn. rewrite Hns. reflexivity.
  - apply wp_ret. apply Hrest. reflexivity.
Qed.

Variable ParseCIDR : string -> option IPNet.t.

Lemma addPodRules_good (nl : NetLink K) (cidrs : list string) :
  0 < table -> snat = false ->
  emits (addPodRules ParseCIDR nl addr table cidrs)
        (good addr table snat
              (fun tr => exists answers,
                   List.length answers = List.length cidrs /\
                   Forall absorbed answers /\
                   tr = podRuleAdds ParseCIDR nl addr table cidrs answers)).
Proof.
  intros Htable Hsnat. induction cidrs as [| cidr rest IH]; intros st.
  - cbn [addPodRules]. wp_step. emitted. repeat split; [tame_list|].
    intros _. exists []. repeat split. constructor.
  - cbn [addPodRules]. set (rule := podRule ParseCIDR nl addr table cidr).
    assert (Hok : rule_ok addr table rule).
    { right. repeat split. exact Htable. }
    assert (Hfatal : forall e,
               negb (fatal_in_setup snat (EvRuleAdd rule e)) =
               negb (failed e) || IsRuleExistsError e).
    { intros e. unfold fatal_in_setup. rewrite Hsnat.
      replace (Rule.Priority rule =? fromContainerRulePriority) with true
        by reflexivity.
      cbn [negb]. rewrite !andb_true_r.
      destruct (failed e), (IsRuleExistsError e); reflexivity. }
    apply wp_bind. apply wp_call. intros e k1. apply wp_bind. unfold guardAdd.
    assert (Hgo : absorbed e ->
              wp (addPodRules ParseCIDR nl addr table rest)
                 {| kernel := k1; trace := trace st ++ [EvRuleAdd rule e];
                    self := self st |}
                 (fun r st' =>
                    exists tr, trace st' = trace st ++ tr /\
                      good addr table snat
                           (fun tr0 => exists answers,
                                List.length answers = List.length (cidr :: rest) /\
                                Forall absorbed answers /\
                                tr0 = podRuleAdds ParseCIDR nl addr table
                                        (cidr :: rest) answers) r tr)).
    { intros Habs. eapply wp_emits; [apply IH|].
      intros r st' tr E (T & N & R & O). cbn [trace] in E.
      exists (EvRuleAdd rule e :: tr).
      split; [rewrite E, <- app_assoc; reflexivity|].
      split; [constructor; assumption|]. split; [exact N|]. split.
      - cbn [forallb]. rewrite Hfatal, <- R.
        destruct Habs as [-> | ->]; [reflexivity | rewrite orb_true_r; reflexivity].
      - intros ->. destruct (O eq_refl) as (answers & Hlen & Habss & ->).
        exists (e :: answers). repeat split.
        + cbn [List.length]. rewrite Hlen. reflexivity.
        + constructor; assumption. }
    destruct (IsRuleExistsError e) eqn:Hex.
    + apply wp_ret. apply Hgo. right. exact Hex.
    + destruct e as [err |]; cbn [guard].
      * apply wp_throw. emitted. repeat split; [tame_list | | discriminate].
        cbn [forallb]. rewrite Hfatal, Hex. reflexivity.
      * apply wp_ret. apply Hgo. left. reflexivity.
Qed.

Lemma from_good (nl : NetLink K) (cidrs : list string) (tunnelNet : string) :
  emits (addFromPodRules ParseCIDR addr table cidrs snat tunnelNet nl)
        (good addr table snat
              (fromPodCalls ParseCIDR nl addr table cidrs snat tunnelNet)).
Proof.
  enough (H : forall b, snat = b ->
               emits (addFromPodRules ParseCIDR addr table cidrs b tunnelNet nl)
                     (good addr table snat
                           (fromPodCalls ParseCIDR nl addr table cidrs b tunnelNet)))
    by (apply H; reflexivity).
  intros b Hsnat. unfold addFromPodRules, fromPodCalls.
  destruct (0 <? table) eqn:Htable.
  - apply Z.ltb_lt in Htable. destruct b.
    + apply good_wrap_err. apply addContainerRule_good.
      * right. repeat split. exact Htable.
      * rewrite Hsnat. reflexivity.
    + apply addPodRules_good; assumption.
  - intros st. wp_step. emitted. repeat split. tame_list.
Qed.

Lemma cleanup_calls (hostVethName : string) (nl : NetLink K) (st : state) :
  wp (cleanupOldHostVeth hostVethName nl) st
     (fun r st' => exists del,
          trace st' =
            trace st
              ++ EvLinkByName hostVethName (fst (LinkByName nl hostVethName (kernel st)))
              :: del /\
          no_panic r /\
          cleanupCalls hostVethName r
            (fst (LinkByName nl hostVethName (kernel st))) del).
Proof.
  unfold cleanupOldHostVeth.
  apply wp_bind. apply wp_call_exact.
  destruct (fst (LinkByName nl hostVethName (kernel st))) as [old | e].
  - apply wp_bind. apply wp_call. intros [err |] k2; wp_step; trace_norm;
      eexists; (split; [reflexivity|]); (split; [exact I|]);
      eexists; split; reflexivity.
  - wp_step. trace_norm. eexists. split; [reflexivity|]. repeat split.
Qed.

(** The whole of [setupNS]: the cleanup, then the wiring. *)
Lemma setupNS_shape (hostVethName contVethName netnsPath : string)
    (vpcCIDRs : list string) (tunnelNet : string)
    (netLink containerNetlink : NetLink K) (ns : NS K) (ip : IP K) (st : state) :
  wp (setupNS ParseCIDR hostVethName contVethName netnsPath addr table vpcCIDRs
        snat tunnelNet netLink containerNetlink ns ip) st
     (fun r st' => exists del rest,
          trace st' =
            trace st
              ++ EvLinkByName hostVethName
                   (fst (LinkByName netLink hostVethName (kernel st)))
              :: del ++ rest /\
          no_panic r /\
          match fst (LinkByName netLink hostVethName (kernel st)) with
          | Ok old =>
              exists e, del = [EvLinkDel old e] /\ (failed e = true -> rest = [])
          | Err _ => del = []
          end /\
          Forall (tame addr table) rest /\
          returned r =
            forallb (fun ev => negb (fatal_in_setup snat ev)) (del ++ rest) /\
          (r = Return tt ->
           wiringCalls ParseCIDR hostVethName contVethName netnsPath addr table
             vpcCIDRs snat tunnelNet netLink containerNetlink ip rest)).
Proof.
  unfold setupNS. apply wp_bind.
  eapply wp_mono; [apply cleanup_calls|].
  intros r1 st1 (del & E1 & N1 & C1).
  destruct r1 as [[] | e1 | msg]; [| | destruct N1].
  - eapply wp_emits.
    { apply good_seq; [apply ns_good|].
      apply good_seq; [apply host_good|].
      apply good_seq; [|apply from_good].
      apply good_wrap_err. apply addContainerRule_good.
      - left. repeat split.
      - reflexivity. }
    intros r st' rest E (T & N & R & O).
    exists del, rest. split; [rewrite E, E1, <- app_assoc; reflexivity|].
    split; [exact N|]. split; [|split; [exact T|split]].
    + unfold cleanupCalls in C1.
      destruct (fst (LinkByName netLink hostVethName (kernel st))) as [old | e0].
      * destruct C1 as (e & -> & Hr). exists e. split; [reflexivity|].
        intros He. rewrite He in Hr. discriminate.
      * apply C1.
    + rewrite forallb_app, <- R.
      unfold cleanupCalls in C1.
      destruct (fst (LinkByName netLink hostVethName (kernel st))) as [old | e0].
      * destruct C1 as (e & -> & Hr). cbn in *. rewrite <- Hr. reflexivity.
      * destruct C1 as (-> & _). reflexivity.
    + intros ->. destruct (O eq_refl)
        as (t1 & t2 & -> & (hostNS & hv & cv & ->) & t3 & t4 & -> &
            (hv' & ->) & t5 & t6 & -> & (e & He & ->) & Hfrom).
      exists hostNS, hv, cv, hv', e, t6. repeat split; assumption.
  - exists del, []. split; [rewrite app_nil_r; exact E1|].
    split; [exact I|]. unfold cleanupCalls in C1.
    destruct (fst (LinkByName netLink hostVethName (kernel st))) as [old | e0].
    + destruct C1 as (e & -> & Hr). cbn in Hr.
      split; [exists e; auto|]. split; [constructor|]. split; [|discriminate].
      cbn. rewrite <- Hr. reflexivity.
    + destruct C1 as (_ & Hr). discriminate.
Qed.

Lemma rule_adds_app (t1 t2 : list event) :
  rule_adds (t1 ++ t2) = rule_adds t1 ++ rule_adds t2.
Proof.
  induction t1 as [| ev t1 IH]; [reflexivity|].
  destruct ev; cbn; rewrite ?IH; reflexivity.
Qed.

Lemma rule_events_app (t1 t2 : list event) :
  rule_events (t1 ++ t2) = rule_events t1 ++ rule_events t2.
Proof. apply filter_app. Qed.

Lemma rule_adds_podRuleAdds (nl : NetLink K) (cidrs : list string) :
  forall answers,
    List.length answers = List.length cidrs ->
    rule_adds (podRuleAdds ParseCIDR nl addr table cidrs answers) =
    map (podRule ParseCIDR nl addr table) cidrs.
Proof.
  induction cidrs as [| c cidrs IH]; intros [| e answers] Hlen;
    try discriminate; [reflexivity|].
  cbn. f_equal. apply IH. injection Hlen as Hlen. exact Hlen.
Qed.

Lemma rule_events_podRuleAdds (nl : NetLink K) (cidrs : list string) answers :
  rule_events (podRuleAdds ParseCIDR nl addr table cidrs answers) =
  podRuleAdds ParseCIDR nl addr table cidrs answers.
Proof.
  unfold podRuleAdds. induction (combine cidrs answers) as [| ce l IH];
    [reflexivity|].
  cbn. unfold rule_events in IH. rewrite IH. reflexivity.
Qed.

Lemma tame_not_LinkDel (tr : list event) :
  Forall (tame addr table) tr -> Forall (fun ev => is_LinkDel ev = false) tr.
Proof.
  apply Forall_impl. intros ev H. destruct ev; try reflexivity. destruct H.
Qed.
Lemma wiring_rules (hostVethName contVethName netnsPath : string)
    (vpcCIDRs : list string) (tunnelNet : string)
    (netLink containerNetlink : NetLink K) (ip : IP K) (rest : list event) :
  wiringCalls ParseCIDR hostVethName contVethName netnsPath addr table vpcCIDRs
    snat tunnelNet netLink containerNetlink ip rest ->
  exists e fromCalls,
    del_refused e = false /\
    fromPodCalls ParseCIDR netLink addr table vpcCIDRs snat tunnelNet fromCalls /\
    rule_adds rest = toPodRule netLink addr :: rule_adds fromCalls /\
    rule_events rest =
      EvRuleDel (toPodRule netLink addr) e
      :: EvRuleAdd (toPodRule netLink addr) None
      :: rule_events fromCalls.
Proof.
  intros (hostNS & hv & cv & hv' & e & fromCalls & He & Hfrom & ->).
  exists e, fromCalls. split; [exact He|]. split; [exact Hfrom|].
  rewrite !rule_adds_app, !rule_events_app. split; reflexivity.
Qed.

Lemma fromPodCalls_rules (nl : NetLink K) (vpcCIDRs : list string)
    (tunnelNet : string) (fromCalls : list event) :
  fromPodCalls ParseCIDR nl addr table vpcCIDRs snat tunnelNet fromCalls ->
  rule_events fromCalls = fromCalls /\
  rule_adds fromCalls =
    if 0 <? table then
      if snat then [fromPodRule nl addr table]
      else map (podRule ParseCIDR nl addr table) (withTunnel vpcCIDRs tunnelNet)
    else [].
Proof.
  unfold fromPodCalls. destruct (0 <? table).
  - destruct snat.
    + intros (e & _ & ->). split; reflexivity.
    + intros (answers & Hlen & _ & ->).
      split; [apply rule_events_podRuleAdds | apply rule_adds_podRuleAdds; exact Hlen].
  - intros ->. split; reflexivity.
Qed.
End Blocks.

Section Claims.
Variable K : Type.
Variable ParseCIDR : string -> option IPNet.t.
Variables hostVethName contVethName netnsPath : string.
Variable addr : IPNet.t.
Variable table : Z.
Variable vpcCIDRs : list string.
Variable useExternalSNAT : bool.
Variable tunnelNet : string.
Variables netLink containerNetlink : NetLink K.
Variable ns : NS K.
Variable ip : IP K.

(** C1.  In every run of [setupNS], every policy rule that is added or
    deleted is either the to-pod rule, at priority 512 and looking up the
    main table (254), or a from-pod rule of a pod whose table is positive,
    at priority 1536 and looking up the table passed as [table]: no other
    priority is used.  When [setupNS] returns nil, the to-pod rule has
    been added at priority 512 with lookup main. *)
Theorem setupNS_rule_priorities (st : state K) :
  let out := setupNS ParseCIDR hostVethName contVethName netnsPath addr table
               vpcCIDRs useExternalSNAT tunnelNet netLink containerNetlink ns ip st in
  exists tr,
    trace (snd out) = trace st ++ tr /\
    (forall r e,
        In (EvRuleAdd r e) tr \/ In (EvRuleDel r e) tr ->
        (Rule.Priority r = 512 /\ Rule.Table r = 254 /\ Rule.Dst r = Some addr) \/
        (0 < table /\ Rule.Priority r = 1536 /\ Rule.Table r = table /\
         Rule.Src r = Some addr)) /\
    (fst out = Return tt ->
     In (EvRuleAdd (Rule.mk 512 254 (Rule.Src (NewRule netLink)) (Some addr)) None) tr).
Proof.
  intros out. subst out.
  pose proof (setupNS_shape addr table useExternalSNAT ParseCIDR hostVethName
                contVethName netnsPath vpcCIDRs tunnelNet netLink containerNetlink
                ns ip st) as H.
  unfold wp in H. destruct H as (del & rest & E & N & D & T & R & O).
  eexists. split; [exact E|]. split.
  - intros r e Hin.
    assert (Hrest : In (EvRuleAdd r e) rest \/ In (EvRuleDel r e) rest).
    { destruct (fst (LinkByName netLink hostVethName (kernel st))) as [old | e0].
      - destruct D as (e' & -> & _).
        destruct Hin as [[Hin | [Hin | Hin]] | [Hin | [Hin | Hin]]];
          try discriminate; auto.
      - subst del.
        destruct Hin as [[Hin | Hin] | [Hin | Hin]]; try discriminate; auto. }
    rewrite Forall_forall in T.
    destruct Hrest as [Hin' | Hin']; apply T in Hin'; exact Hin'.
  - intros Hret. destruct (O Hret)
      as (hostNS & hv & cv & hv' & e & fromCalls & He & Hfrom & ->).
    right. apply in_or_app. right.
    change (toPodRule netLink addr)
      with (Rule.mk 512 254 (Rule.Src (NewRule netLink)) (Some addr)).
    rewrite !in_app_iff. right. right. left. right. left. reflexivity.
Qed.

(** C2.  When [setupNS] returns nil, the rules it has added are, in order:
    the to-pod rule; then, when [table > 0] and external SNAT is used, the
    one rule "from <pod> lookup <table>"; when [table > 0] and external
    SNAT is not used, one rule "from <pod> to <cidr> lookup <table>" per
    entry of [vpcCIDRs], plus one for [tunnelNet] when it is not empty
    (the destination is what [net.ParseCIDR] makes of the entry); and
    when [table <= 0], no from-pod rule at all. *)
Theorem setupNS_from_pod_rules (st : state K) :
  let out := setupNS ParseCIDR hostVethName contVethName netnsPath addr table
               vpcCIDRs useExternalSNAT tunnelNet netLink containerNetlink ns ip st in
  fst out = Return tt ->
  exists tr,
    trace (snd out) = trace st ++ tr /\
    rule_adds tr =
      Rule.mk 512 254 (Rule.Src (NewRule netLink)) (Some addr)
      :: (if 0 <? table then
            if useExternalSNAT
            then [Rule.mk 1536 table (Some addr) (Rule.Dst (NewRule netLink))]
            else map (fun cidr => Rule.mk 1536 table (Some addr) (ParseCIDR cidr))
                     (vpcCIDRs ++ if (tunnelNet =? "")%string then [] else [tunnelNet])
          else []).
Proof.
  intros out Hret. subst out.
  pose proof (setupNS_shape addr table useExternalSNAT ParseCIDR hostVethName
                contVethName netnsPath vpcCIDRs tunnelNet netLink containerNetlink
                ns ip st) as H.
  unfold wp in H. destruct H as (del & rest & E & N & D & T & R & O).
  eexists. split; [exact E|].
  destruct (wiring_rules (O Hret)) as (e & fromCalls & He & Hfrom & Hadds & _).
  assert (Hdel : rule_adds del = []).
  { destruct (fst (LinkByName netLink hostVethName (kernel st))).
    - destruct D as (e' & -> & _). reflexivity.
    - subst del. reflexivity. }
  cbn [rule_adds]. rewrite rule_adds_app, Hdel, Hadds. cbn [app].
  change (toPodRule netLink addr)
    with (Rule.mk 512 254 (Rule.Src (NewRule netLink)) (Some addr)).
  f_equal. apply fromPodCalls_rules in Hfrom. destruct Hfrom as (_ & ->).
  destruct (0 <? table); [|reflexivity].
  destruct useExternalSNAT; [reflexivity|].
  unfold withTunnel. destruct (tunnelNet =? "")%string; cbn [negb].
  - rewrite app_nil_r. reflexivity.
  - reflexivity.
Qed.

(** C5, as the code has it.  When [setupNS] returns nil, its calls on
    policy rules are, in order: the deletion of the to-pod rule (nil or "no
    such rule") followed by its addition; then, in external SNAT mode with
    [table > 0], the deletion of the from-pod rule (nil or "no such rule")
    followed by its addition; without external SNAT and with [table > 0],
    one addition per CIDR with no deletion before it, answered by nil or by
    "rule already exists". *)
Theorem setupNS_delete_then_add (st : state K) :
  let out := setupNS ParseCIDR hostVethName contVethName netnsPath addr table
               vpcCIDRs useExternalSNAT tunnelNet netLink containerNetlink ns ip st in
  fst out = Return tt ->
  exists tr e fromCalls,
    trace (snd out) = trace st ++ tr /\
    rule_events tr =
      EvRuleDel (toPodRule netLink addr) e
      :: EvRuleAdd (toPodRule netLink addr) None
      :: fromCalls /\
    del_refused e = false /\
    if 0 <? table then
      if useExternalSNAT then
        exists e', del_refused e' = false /\
          fromCalls = [ EvRuleDel (fromPodRule netLink addr table) e';
                        EvRuleAdd (fromPodRule netLink addr table) None ]
      else
        exists answers,
          List.length answers = List.length (withTunnel vpcCIDRs tunnelNet) /\
          Forall absorbed answers /\
          fromCalls = podRuleAdds ParseCIDR netLink addr table
                        (withTunnel vpcCIDRs tunnelNet) answers
    else fromCalls = [].
Proof.
  intros out Hret. subst out.
  pose proof (setupNS_shape addr table useExternalSNAT ParseCIDR hostVethName
                contVethName netnsPath vpcCIDRs tunnelNet netLink containerNetlink
                ns ip st) as H.
  unfold wp in H. destruct H as (del & rest & E & N & D & T & R & O).
  destruct (wiring_rules (O Hret)) as (e & fromCalls & He & Hfrom & _ & Hevs).
  eexists. exists e, fromCalls. split; [exact E|].
  split; [|split; [exact He | exact Hfrom]].
  apply fromPodCalls_rules in Hfrom. destruct Hfrom as (Hfrom & _).
  assert (Hdel : rule_events del = []).
  { destruct (fst (LinkByName netLink hostVethName (kernel st))).
    - destruct D as (e' & -> & _). reflexivity.
    - subst del. reflexivity. }
  change (rule_events (del ++ rest) =
          EvRuleDel (toPodRule netLink addr) e
          :: EvRuleAdd (toPodRule netLink addr) None :: fromCalls).
  rewrite rule_events_app, Hdel, Hevs, Hfrom. reflexivity.
Qed.

(** C6.  The first call of every run of [setupNS] is the lookup of the
    host veth name.  When it answers with a link, the next call deletes
    that very link, before anything else is done (in particular before the
    veth pair is created), and when that deletion fails nothing more is
    done; no other link is deleted.  When the lookup answers with an error,
    no link is deleted in the whole run. *)
Theorem setupNS_cleans_old_host_veth (st : state K) :
  let out := setupNS ParseCIDR hostVethName contVethName netnsPath addr table
               vpcCIDRs useExternalSNAT tunnelNet netLink containerNetlink ns ip st in
  let first := fst (LinkByName netLink hostVethName (kernel st)) in
  exists rest,
    trace (snd out) = trace st ++ EvLinkByName hostVethName first :: rest /\
    match first with
    | Ok oldHostVeth =>
        exists e rest',
          rest = EvLinkDel oldHostVeth e :: rest' /\
          Forall (fun ev => is_LinkDel ev = false) rest' /\
          (failed e = true -> rest' = [] /\ returned (fst out) = false)
    | Err _ => Forall (fun ev => is_LinkDel ev = false) rest
    end.
Proof.
  intros out first. subst out first.
  pose proof (setupNS_shape addr table useExternalSNAT ParseCIDR hostVethName
                contVethName netnsPath vpcCIDRs tunnelNet netLink containerNetlink
                ns ip st) as H.
  unfold wp in H. destruct H as (del & rest & E & N & D & T & R & O).
  exists (del ++ rest). split; [exact E|].
  destruct (fst (LinkByName netLink hostVethName (kernel st))) as [old | e0].
  - destruct D as (e & -> & Hfail). exists e, rest. split; [reflexivity|].
    split; [apply tame_not_LinkDel with (addr := addr) (table := table); exact T|].
    intros He. split; [auto|]. rewrite R. cbn. rewrite He. reflexivity.
  - subst del. apply tame_not_LinkDel with (addr := addr) (table := table). exact T.
Qed.

(** C3.  When [run] returns nil, its calls inside the namespace are, in
    this order: the creation of the veth pair with MTU 9001, the container
    end named as asked and its peer named as the host end; both ends
    looked up and set up, the host end first; the on-link /32 route to the
    dummy next hop 169.254.1.1; the default route via that next hop; the
    pod address on the container end; the permanent neighbour entry for
    169.254.1.1 with the hardware address of the host end; and, last, the
    move of the host end into the host namespace.  In any run, failed or
    not, a move of the host end is the last call and comes after those
    nine steps, all of them successful. *)
Theorem run_steps_in_order (c : createVethPairContext K) (hostNS : NetNS)
    (st : state K) :
  let out := run c hostNS st in
  exists tr,
    trace (snd out) = trace st ++ tr /\
    (fst out = Return tt ->
     exists hostVeth contVeth,
       tr =
         [ EvLinkAdd
             (Veth {| LinkAttrs.Index := 0;
                      LinkAttrs.MTU := 9001;
                      LinkAttrs.TxQLen := -1;
                      LinkAttrs.Name := Driver.contVethName c;
                      LinkAttrs.HardwareAddr := [];
                      LinkAttrs.Flags := FlagUp |}
                   (Driver.hostVethName c)) None;
           EvLinkByName (Driver.hostVethName c) (Ok hostVeth);
           EvLinkSetUp hostVeth None;
           EvLinkByName (Driver.contVethName c) (Ok contVeth);
           EvLinkSetUp contVeth None;
           EvRouteReplace
             {| Route.LinkIndex := LinkAttrs.Index (Attrs contVeth);
                Route.Scope := SCOPE_LINK;
                Route.Dst :=
                  Some (IPNet.mk (IPv4 169 254 1 1) [255; 255; 255; 255]) |} None;
           EvAddDefaultRoute (IPv4 169 254 1 1) contVeth None;
           EvAddrAdd contVeth (Driver.addr c) None;
           EvNeighAdd
             {| Neigh.LinkIndex := LinkAttrs.Index (Attrs contVeth);
                Neigh.State := NUD_PERMANENT;
                Neigh.IP := IPv4 169 254 1 1;
                Neigh.HardwareAddr := LinkAttrs.HardwareAddr (Attrs hostVeth) |} None;
           EvLinkSetNsFd hostVeth (Fd hostNS) None ]) /\
    (forall l fd e,
        In (EvLinkSetNsFd l fd e) tr ->
        exists hostVeth contVeth,
          l = hostVeth /\ fd = Fd hostNS /\
          tr = removelast (run_steps c hostNS hostVeth contVeth)
                 ++ [EvLinkSetNsFd hostVeth (Fd hostNS) e]).
Proof.
  intros out. subst out. unfold run.
  change (wp (run c hostNS) st
            (fun r st' =>
               exists tr,
                 trace st' = trace st ++ tr /\
                 (r = Return tt ->
                  exists hostVeth contVeth, tr = run_steps c hostNS hostVeth contVeth) /\
                 (forall l fd e,
                     In (EvLinkSetNsFd l fd e) tr ->
                     exists hostVeth contVeth,
                       l = hostVeth /\ fd = Fd hostNS /\
                       tr = removelast (run_steps c hostNS hostVeth contVeth)
                              ++ [EvLinkSetNsFd hostVeth (Fd hostNS) e]))).
  unfold run. wp_run; emitted.
  all: split; [first [discriminate | intros _; do 2 eexists; reflexivity]|].
  all: intros ? ? ? Hin; cbn [In] in Hin.
  all: repeat (destruct Hin as [Hin | Hin]; [try discriminate Hin|]);
    try solve [destruct Hin].
  all: injection Hin as <- <- <-; do 2 eexists; repeat split; reflexivity.
Qed.

(** C4, as the code has it.  [setupNS] returns nil exactly when no call
    after the first lookup got a fatal answer, where "no such rule" on a
    rule deletion is not fatal, "rule already exists" is not fatal on the
    addition of a per-CIDR from-pod rule (priority 1536, no external
    SNAT), and every other error is fatal: "rule already exists" included
    when the to-pod rule or the external-SNAT from-pod rule is added.
    [tearDownNS] returns nil exactly when [DeleteRuleListBySrc] did not
    fail: no error of its own rule deletion is fatal. *)
Theorem rule_errors_absorbed :
  (forall st : state K,
      let out := setupNS ParseCIDR hostVethName contVethName netnsPath addr table
                   vpcCIDRs useExternalSNAT tunnelNet netLink containerNetlink ns ip
                   st in
      exists tr,
        trace (snd out) = trace st ++ tr /\
        returned (fst out) =
          forallb (fun ev => negb (fatal_in_setup useExternalSNAT ev)) (tl tr)) /\
  (forall (networkClient : NetworkAPIs K) (st : state K),
      let out := tearDownNS addr table netLink networkClient st in
      exists tr,
        trace (snd out) = trace st ++ tr /\
        returned (fst out) = forallb (fun ev => negb (fatal_in_teardown ev)) tr).
Proof.
  split.
  - intros st out. subst out.
    pose proof (setupNS_shape addr table useExternalSNAT ParseCIDR hostVethName
                  contVethName netnsPath vpcCIDRs tunnelNet netLink containerNetlink
                  ns ip st) as H.
    unfold wp in H. destruct H as (del & rest & E & N & D & T & R & O).
    eexists. split; [exact E|]. exact R.
  - intros networkClient st out. subst out.
    change (wp (tearDownNS addr table netLink networkClient) st
              (fun r st' =>
                 exists tr,
                   trace st' = trace st ++ tr /\
                   returned r = forallb (fun ev => negb (fatal_in_teardown ev)) tr)).
    unfold tearDownNS, deleteRuleListBySrc.
    destruct (0 <? table); wp_run; emitted; reflexivity.
Qed.

End Claims.

(** ** The claims on the test doubles *)

(** C2 on a pod of table 2 without external SNAT: the to-pod rule, then
    one rule for the VPC CIDR and one for the tunnel CIDR. *)
Lemma setupNS_from_pod_rules_witness :
  fst setupPerCIDR = Return tt /\
  exists tr,
    trace (snd setupPerCIDR) = trace start ++ tr /\
    rule_adds tr =
      [ Rule.mk 512 254 None (Some podAddr);
        Rule.mk 1536 2 (Some podAddr)
                (Some (IPNet.mk [10; 0; 0; 0] [255; 255; 0; 0]));
        Rule.mk 1536 2 (Some podAddr)
                (Some (IPNet.mk [172; 16; 0; 0] [255; 240; 0; 0])) ].
Proof.
  split; [reflexivity|].
  apply (setupNS_from_pod_rules stubParseCIDR "nicabc" "eth0" "/proc/12345/ns/net"
           podAddr 2 ["10.0.0.0/16"] false "172.16.0.0/12" happyNetLink happyNetLink
           stubNS stubIP start).
  reflexivity.
Defined.

(** C5, as the code has it, on a pod of table 2 in external SNAT mode. *)
Lemma setupNS_delete_then_add_witness :
  fst setupExternalSNAT = Return tt /\
  exists tr e fromCalls,
    trace (snd setupExternalSNAT) = trace start ++ tr /\
    rule_events tr =
      EvRuleDel (toPodRule bareNetLink podAddr) e
      :: EvRuleAdd (toPodRule bareNetLink podAddr) None
      :: fromCalls /\
    del_refused e = false /\
    exists e', del_refused e' = false /\
      fromCalls = [ EvRuleDel (fromPodRule bareNetLink podAddr 2) e';
                    EvRuleAdd (fromPodRule bareNetLink podAddr 2) None ].
Proof.
  split; [reflexivity|].
  apply (setupNS_delete_then_add stubParseCIDR "nicabc" "eth0" "/proc/12345/ns/net"
           podAddr 2 ["10.0.0.0/16"] true "" bareNetLink happyNetLink
           stubNS stubIP start).
  reflexivity.
Defined.



(** C4 as stated fails: on a pod of the primary NIC, with "rule already
    exists" as the only error any call answers, [setupNS] returns the
    error of the addition of the to-pod rule. *)
Lemma setupNS_rule_exists_is_fatal :
  IsRuleExistsError (Some (Errno EEXIST)) = true /\
  forallb (fun ev => negb (fatal_if_exists_absorbed ev))
          (tl (trace (snd setupRacy))) = true /\
  last (trace (snd setupRacy)) EvLeaveNS =
    EvRuleAdd (Rule.mk 512 254 None (Some podAddr)) (Some (Errno EEXIST)) /\
  fst setupRacy =
    Raise (Wrapf "setupNS network: failed to add toContainer" []
             (Wrapf "addContainerRule: failed to add container rule for %s"
                    [ANet podAddr] (Errno EEXIST))).
Proof. repeat split. Qed.

(** C5 as stated fails: without external SNAT the per-CIDR rules are
    added but never deleted first. *)
Lemma setupNS_per_cidr_rules_not_deleted :
  fst setupPerCIDR = Return tt /\
  rule_adds (trace (snd setupPerCIDR)) =
    [ Rule.mk 512 254 None (Some podAddr);
      Rule.mk 1536 2 (Some podAddr)
              (Some (IPNet.mk [10; 0; 0; 0] [255; 255; 0; 0]));
      Rule.mk 1536 2 (Some podAddr)
              (Some (IPNet.mk [172; 16; 0; 0] [255; 240; 0; 0])) ] /\
  rule_dels (trace (snd setupPerCIDR)) = [ Rule.mk 512 254 None (Some podAddr) ].
Proof. repeat split. Qed.

(** ** The functions on the test doubles *)

Example CIDRMask_values :
  CIDRMask 32 32 = [255; 255; 255; 255] /\
  CIDRMask 20 32 = [255; 255; 240; 0] /\
  CIDRMask 33 32 = [] /\
  IPv4 169 254 1 1 = [0; 0; 0; 0; 0; 0; 0; 0; 0; 0; 255; 255; 169; 254; 1; 1].
Proof. repeat split. Qed.

(** The stale host veth is deleted first, then the veth pair is created
    inside the namespace. *)
Example setupNS_first_calls :
  firstn 4 (trace (snd setupPerCIDR)) =
    [ EvLinkByName "nicabc" (Ok (stubLink "nicabc"));
      EvLinkDel (stubLink "nicabc") None;
      EvEnterNS "/proc/12345/ns/net" (Ok {| Fd := 3 |});
      EvLinkAdd
        (Veth {| LinkAttrs.Index := 0;
                 LinkAttrs.MTU := 9001;
                 LinkAttrs.TxQLen := -1;
                 LinkAttrs.Name := "eth0";
                 LinkAttrs.HardwareAddr := [];
                 LinkAttrs.Flags := FlagUp |}
              "nicabc") None ].
Proof. reflexivity. Qed.

(** The calls on rules of the pod in external SNAT mode. *)
Example setupNS_external_snat_rules :
  rule_events (trace (snd setupExternalSNAT)) =
    [ EvRuleDel (Rule.mk 512 254 None (Some podAddr)) (Some (Errno ENOENT));
      EvRuleAdd (Rule.mk 512 254 None (Some podAddr)) None;
      EvRuleDel (Rule.mk 1536 2 (Some podAddr) None) (Some (Errno ENOENT));
      EvRuleAdd (Rule.mk 1536 2 (Some podAddr) None) None ].
Proof. reflexivity. Qed.

(** A teardown whose [DeleteRuleListBySrc] fails stops there. *)
Example tearDownNS_stops_on_list_error :
  tearDownNS podAddr 2 bareNetLink
    (stubNetworkAPIs (fun _ => Some (ErrorNew "dump failed"))) start =
  (Raise (Wrapf "delete NS network: failed to delete fromContainer rule for %s"
                [ANet podAddr] (ErrorNew "dump failed")),
   {| kernel := tt;
      trace := [ EvRuleDel (Rule.mk 512 0 None (Some podAddr)) (Some (Errno ENOENT));
                 EvDeleteRuleListBySrc podAddr (Some (ErrorNew "dump failed")) ];
      self := tt |}).
Proof. reflexivity. Qed.
End DriverFacts.

(* ================================================================== *)
(** * More facts about package driver: errors, order, teardown *)
(* ================================================================== *)

Module DriverMore.
Import Driver.

Section Blocks.
Variable K : Type.
Let state := Driver.state K.

(** Every call of an explicit list is, or is not, a call on a rule. *)
Ltac kind_list :=
  repeat first [ apply Forall_nil | apply Forall_cons ]; try reflexivity.

(** A leaf of a symbolic execution: the error returned, if any, wraps the
    answer to the last call listed. *)
Ltac last_cause :=
  let e := fresh "e" in
  let H := fresh "H" in
  intros e H;
  first
    [ discriminate H
    | injection H as <-;
      lazymatch goal with
      | |- exists pre ev, ?tr = _ /\ _ =>
          exists (removelast tr), (last tr EvLeaveNS);
          split; [reflexivity|]; eexists; split; reflexivity
      end ].

Lemma caused_of_last (r : exit unit) (tr : list event) :
  caused_by_last r tr -> caused r tr.
Proof.
  intros H e Hr. destruct (H e Hr) as (pre & ev & -> & Hc).
  exists pre, ev, []. auto.
Qed.

Lemma caused_app (t1 t2 : list event) (r : exit unit) :
  caused r t2 -> caused r (t1 ++ t2).
Proof.
  intros H e Hr. destruct (H e Hr) as (pre & ev & post & -> & Hc & Hp).
  exists (t1 ++ pre), ev, post. rewrite <- app_assoc. auto.
Qed.

Lemma caused_by_last_app (t1 t2 : list event) (r : exit unit) :
  caused_by_last r t2 -> caused_by_last r (t1 ++ t2).
Proof.
  intros H e Hr. destruct (H e Hr) as (pre & ev & -> & Hc).
  exists (t1 ++ pre), ev. rewrite <- app_assoc. auto.
Qed.

Lemma cause_of_Wrapf fmt args (e : error) (ev : event) :
  cause_of e ev -> cause_of (Wrapf fmt args e) ev.
Proof. intros (e0 & H0 & Hc). exists e0. split; [exact H0 | exact Hc]. Qed.

Lemma caused_by_last_wrap fmt args (r0 : exit unit) (tr : list event) :
  caused_by_last r0 tr ->
  caused_by_last (match r0 with Raise e => Raise (Wrapf fmt args e) | _ => r0 end) tr.
Proof.
  intros H e Hr. destruct r0 as [[] | e0 | msg]; try discriminate.
  injection Hr as <-. destruct (H e0 eq_refl) as (pre & ev & -> & Hc).
  exists pre, ev. split; [reflexivity|]. apply cause_of_Wrapf. exact Hc.
Qed.

(** [run]: no call is on a rule, and the error returned wraps the answer
    to the last call. *)
Lemma run_last_cause (c : createVethPairContext K) (hostNS : NetNS) :
  emits (run c hostNS)
        (fun r tr =>
           Forall (fun ev => is_rule_event ev = false) tr /\ caused_by_last r tr).
Proof.
  intros st. unfold run. wp_run; emitted; (split; [kind_list | last_cause]).
Qed.

Lemma ns_cause (ns : NS K) (path : string) (c : createVethPairContext K) fmt args :
  emits (wrap_err (Wrapf fmt args) (WithNetNSPath ns path (run c)))
        (fun r tr =>
           Forall (fun ev => is_rule_event ev = false) tr /\ caused r tr).
Proof.
  intros st. apply wp_wrap_err. unfold WithNetNSPath.
  apply wp_bind. apply wp_call. intros [hostNS | e] k'.
  - wp_step. wp_step. apply DriverFacts.wp_finally.
    eapply wp_emits; [apply run_last_cause|].
    intros r st' tr Etr (F & C). cbn [trace] in Etr.
    assert (Hall : Forall (fun ev => is_rule_event ev = false)
                     (EvEnterNS path (Ok hostNS) :: tr ++ [EvLeaveNS])).
    { constructor; [reflexivity|]. apply Forall_app. split; [exact F|].
      repeat constructor. }
    assert (Htr : trace (snd (tell (leaveNS ns) EvLeaveNS st')) =
                  trace st ++ EvEnterNS path (Ok hostNS) :: tr ++ [EvLeaveNS]).
    { cbn. rewrite Etr. repeat rewrite <- app_assoc. reflexivity. }
    destruct r as [[] | e | msg]; eexists; (split; [exact Htr|]);
      (split; [exact Hall|]); intros e0 Hr; try discriminate.
    injection Hr as <-. destruct (C e eq_refl) as (pre & ev & -> & Hc).
    exists (EvEnterNS path (Ok hostNS) :: pre), ev, [EvLeaveNS].
    split; [cbn; rewrite <- app_assoc; reflexivity|].
    split; [apply cause_of_Wrapf; exact Hc | right; reflexivity].
  - wp_step. wp_step. emitted. split; [kind_list|].
    intros e0 Hr. injection Hr as <-.
    exists [], (EvEnterNS path (Err e)), [].
    split; [reflexivity|]. split; [|left; reflexivity].
    eexists. split; reflexivity.
Qed.

Lemma cleanup_cause (hostVethName : string) (nl : NetLink K) :
  emits (cleanupOldHostVeth hostVethName nl)
        (fun r tr =>
           Forall (fun ev => is_rule_event ev = false) tr /\ caused_by_last r tr).
Proof.
  intros st. unfold cleanupOldHostVeth.
  apply wp_bind. apply wp_call. intros [old | e0] k1;
    wp_run; emitted; (split; [kind_list | last_cause]).
Qed.

Lemma host_cause (hostVethName : string) (addr : IPNet.t) (nl : NetLink K) :
  emits (setupHostVeth hostVethName addr nl)
        (fun r tr =>
           Forall (fun ev => is_rule_event ev = false) tr /\ caused_by_last r tr).
Proof.
  intros st. unfold setupHostVeth.
  wp_run; emitted; (split; [kind_list | last_cause]).
Qed.

(** [addContainerRule]: a deletion that is refused, alone; or a deletion
    followed by the addition of the same rule. *)
Lemma addContainerRule_calls (nl : NetLink K) (isTo : bool) (addr : IPNet.t)
    (priority table : Z) :
  emits (addContainerRule nl isTo addr priority table)
        (fun r tr =>
           let rule := containerRule nl isTo addr priority table in
           ((exists e, del_refused e = true /\ tr = [EvRuleDel rule e] /\
                       returned r = false) \/
            (exists e e2, del_refused e = false /\
                          tr = [EvRuleDel rule e; EvRuleAdd rule e2] /\
                          returned r = negb (failed e2))) /\
           caused_by_last r tr).
Proof.
  intros st. unfold addContainerRule, guardDel.
  apply wp_bind. apply wp_call. intros e1 k1. apply wp_bind.
  destruct e1 as [err1 |]; cbv beta iota.
  - destruct (ContainsNoSuchRule err1) eqn:Hns; cbn [negb].
    + wp_run; emitted; (split; [|last_cause]); right;
        eexists; eexists; (split; [|split; reflexivity]); cbn; rewrite Hns;
        reflexivity.
    + wp_run. emitted. split; [|last_cause]. left.
      eexists. split; [|split; reflexivity]. cbn. rewrite Hns. reflexivity.
  - wp_run; emitted; (split; [|last_cause]); right;
      eexists; eexists; (split; [|split; reflexivity]); reflexivity.
Qed.

Lemma addContainerRule_rules (nl : NetLink K) (isTo : bool) (addr : IPNet.t)
    (priority table : Z) fmt args :
  emits (wrap_err (Wrapf fmt args) (addContainerRule nl isTo addr priority table))
        (fun r tr =>
           Forall (fun ev => is_rule_event ev = true) tr /\ caused_by_last r tr).
Proof.
  eapply emits_mono; [apply emits_wrap_err; apply addContainerRule_calls|].
  intros r tr (r0 & (Hshape & C) & ->). split.
  - destruct Hshape as [(e & _ & -> & _) | (e & e2 & _ & -> & _)]; kind_list.
  - apply caused_by_last_wrap. exact C.
Qed.

Variable ParseCIDR : string -> option IPNet.t.

Lemma addPodRules_rules (nl : NetLink K) (addr : IPNet.t) (table : Z)
    (cidrs : list string) :
  emits (addPodRules ParseCIDR nl addr table cidrs)
        (fun r tr =>
           Forall (fun ev => is_rule_event ev = true) tr /\ caused_by_last r tr).
Proof.
  induction cidrs as [| cidr rest IH]; intros st; cbn [addPodRules].
  - wp_step. emitted. split; [kind_list | last_cause].
  - apply wp_bind. apply wp_call. intros e k1. apply wp_bind. unfold guardAdd.
    assert (Hgo : wp (addPodRules ParseCIDR nl addr table rest)
                     {| kernel := k1;
                        trace := trace st
                                   ++ [EvRuleAdd (podRule ParseCIDR nl addr table cidr) e];
                        self := self st |}
                     (fun r st' =>
                        exists tr, trace st' = trace st ++ tr /\
                          Forall (fun ev => is_rule_event ev = true) tr /\
                          caused_by_last r tr)).
    { eapply wp_emits; [apply IH|].
      intros r st' tr Etr (F & C). cbn [trace] in Etr.
      exists (EvRuleAdd (podRule ParseCIDR nl addr table cidr) e :: tr).
      split; [rewrite Etr, <- app_assoc; reflexivity|].
      split; [constructor; [reflexivity | exact F]|].
      apply (caused_by_last_app [_]). exact C. }
    destruct (IsRuleExistsError e).
    + apply wp_ret. exact Hgo.
    + destruct e as [err |]; cbn [guard].
      * apply wp_throw. emitted. split; [kind_list | last_cause].
      * apply wp_ret. exact Hgo.
Qed.

Lemma from_rules (addr : IPNet.t) (table : Z) (cidrs : list string) (snat : bool)
    (tunnelNet : string) (nl : NetLink K) :
  emits (addFromPodRules ParseCIDR addr table cidrs snat tunnelNet nl)
        (fun r tr =>
           Forall (fun ev => is_rule_event ev = true) tr /\ caused_by_last r tr).
Proof.
  unfold addFromPodRules. destruct (0 <? table); [destruct snat|].
  - apply addContainerRule_rules.
  - apply addPodRules_rules.
  - intros st. wp_step. emitted. split; [kind_list | last_cause].
Qed.

(** The phases of [setupNS], in every run: the cleanup, the wiring, the
    rules.  A rule is touched only once the wiring is complete, and an
    error returned has its cause in the answer to the last call, the
    leaving of the namespace apart. *)
Lemma setupNS_phases (hostVethName contVethName netnsPath : string)
    (addr : IPNet.t) (table : Z) (vpcCIDRs : list string) (snat : bool)
    (tunnelNet : string) (netLink containerNetlink : NetLink K) (ns : NS K)
    (ip : IP K) :
  emits (setupNS ParseCIDR hostVethName contVethName netnsPath addr table vpcCIDRs
           snat tunnelNet netLink containerNetlink ns ip)
        (fun r tr =>
           exists head wiring rules,
             tr = head ++ wiring ++ rules /\
             Forall (fun ev => is_rule_event ev = false) head /\
             Forall (fun ev => is_rule_event ev = false) wiring /\
             Forall (fun ev => is_rule_event ev = true) rules /\
             (rules <> [] ->
              wiredCalls hostVethName contVethName netnsPath addr containerNetlink
                ip wiring) /\
             caused r tr).
Proof.
  unfold setupNS. eapply emits_mono.
  { apply emits_bind; [apply cleanup_cause|]. intros ?.
    apply emits_bind.
    { apply emits_conj; [apply ns_cause|].
      apply (DriverFacts.ns_good addr table snat). }
    intros ?. apply emits_bind.
    { apply emits_conj; [apply host_cause|].
      apply (DriverFacts.host_good addr table snat). }
    intros ?. apply emits_bind; [apply addContainerRule_rules|].
    intros ?. apply from_rules. }
  cbv beta. intros r tr (r1 & t1 & t2 & -> & (F1 & C1) & H1).
  destruct r1 as [[] | e1 | m1].
  2,3: destruct H1 as (-> & ->); exists t1, [], [];
    (split; [reflexivity|]); (split; [exact F1|]); (split; [constructor|]);
    (split; [constructor|]); (split; [intros H; contradiction H; reflexivity|]);
    rewrite app_nil_r; first [apply caused_of_last; exact C1 | discriminate].
  destruct H1 as (r2 & t2a & t3 & -> & ((F2 & C2) & G2) & H2).
  destruct r2 as [[] | e2 | m2].
  2,3: destruct H2 as (-> & ->); exists t1, t2a, [];
    (split; [reflexivity|]); (split; [exact F1|]); (split; [exact F2|]);
    (split; [constructor|]); (split; [intros H; contradiction H; reflexivity|]);
    rewrite app_nil_r; first [apply caused_app; exact C2 | discriminate].
  destruct H2 as (r3 & t3a & t4 & -> & ((F3 & C3) & G3) & H3).
  destruct r3 as [[] | e3 | m3].
  2,3: destruct H3 as (-> & ->); exists t1, (t2a ++ t3a), [];
    (split; [rewrite !app_nil_r; reflexivity|]); (split; [exact F1|]);
    (split; [apply Forall_app; split; assumption|]);
    (split; [constructor|]); (split; [intros H; contradiction H; reflexivity|]);
    rewrite app_nil_r; first [apply caused_app, caused_app, caused_of_last; exact C3
                             | discriminate].
  destruct H3 as (r4 & t4a & t5 & -> & (F4 & C4) & H4).
  exists t1, (t2a ++ t3a), (t4a ++ t5).
  split; [rewrite <- !app_assoc; reflexivity|]. split; [exact F1|].
  split; [apply Forall_app; split; assumption|].
  assert (Hwired : wiredCalls hostVethName contVethName netnsPath addr
                     containerNetlink ip (t2a ++ t3a)).
  { destruct G2 as (_ & _ & _ & O2). destruct G3 as (_ & _ & _ & O3).
    destruct (O2 eq_refl) as (hostNS & hv & cv & ->).
    destruct (O3 eq_refl) as (hv' & ->).
    exists hostNS, hv, cv, hv'. reflexivity. }
  destruct r4 as [[] | e4 | m4].
  - destruct H4 as (F5 & C5).
    split; [apply Forall_app; split; assumption|]. split; [intros _; exact Hwired|].
    apply caused_app, caused_app, caused_app, caused_app, caused_of_last. exact C5.
  - destruct H4 as (-> & ->). rewrite app_nil_r.
    split; [exact F4|]. split; [intros _; exact Hwired|].
    apply caused_app, caused_app, caused_app, caused_of_last. exact C4.
  - destruct H4 as (-> & ->). rewrite app_nil_r.
    split; [exact F4|]. split; [intros _; exact Hwired|]. discriminate.
Qed.
(** [tearDownNS], in every run: the deletion of the to-pod rule, then
    either the host route, or the from-pod rules and, when their deletion
    did not fail, the host route. *)
Lemma tearDownNS_calls (addr : IPNet.t) (table : Z) (nl : NetLink K)
    (nc : NetworkAPIs K) :
  emits (tearDownNS addr table nl nc)
        (fun r tr =>
           exists e1,
             ((0 <? table) = false /\
              exists e3,
                tr = [ EvRuleDel (toContainerRule nl addr) e1;
                       EvRouteDel (hostRoute addr 0) e3 ] /\
                r = Return tt) \/
             ((0 <? table) = true /\
              exists e3,
                tr = [ EvRuleDel (toContainerRule nl addr) e1;
                       EvDeleteRuleListBySrc addr None;
                       EvRouteDel (hostRoute addr 0) e3 ] /\
                r = Return tt) \/
             ((0 <? table) = true /\
              exists err,
                tr = [ EvRuleDel (toContainerRule nl addr) e1;
                       EvDeleteRuleListBySrc addr (Some err) ] /\
                r = Raise (Wrapf "delete NS network: failed to delete fromContainer rule for %s"
                                 [ANet addr] err))).
Proof.
  intros st. unfold tearDownNS, deleteRuleListBySrc.
  destruct (0 <? table) eqn:Htable; wp_run; emitted; eexists.
  - right. right. split; [reflexivity|]. eexists. split; reflexivity.
  - right. left. split; [reflexivity|]. eexists. split; reflexivity.
  - left. split; [reflexivity|]. eexists. split; reflexivity.
Qed.
End Blocks.

Section Properties.
Variable K : Type.
Variable ParseCIDR : string -> option IPNet.t.
Variables hostVethName contVethName netnsPath : string.
Variable addr : IPNet.t.
Variable table : Z.
Variable vpcCIDRs : list string.
Variable useExternalSNAT : bool.
Variable tunnelNet : string.
Variables netLink containerNetlink : NetLink K.
Variable ns : NS K.
Variable ip : IP K.

(** X1.  An error returned by [setupNS] keeps its cause: under the layers
    [errors.Wrap] and [errors.Wrapf] put around it, it is the error one of
    the calls of that run was answered with, and that call is the last one
    of the run, the leaving of the pod namespace apart. *)
Theorem setupNS_error_keeps_cause (st : state K) :
  let out := setupNS ParseCIDR hostVethName contVethName netnsPath addr table
               vpcCIDRs useExternalSNAT tunnelNet netLink containerNetlink ns ip st in
  exists tr,
    trace (snd out) = trace st ++ tr /\
    forall e,
      fst out = Raise e ->
      exists pre ev e0 post,
        tr = pre ++ ev :: post /\
        error_of ev = Some e0 /\
        Cause e = Cause e0 /\
        (post = [] \/ post = [EvLeaveNS]).
Proof.
  intros out. subst out.
  destruct (setupNS_phases ParseCIDR hostVethName contVethName netnsPath addr table
              vpcCIDRs useExternalSNAT tunnelNet netLink containerNetlink ns ip st)
    as (tr & Etr & head & wiring & rules & _ & _ & _ & _ & _ & C).
  exists tr. split; [exact Etr|].
  intros e He. destruct (C e He) as (pre & ev & post & Hsplit & (e0 & H0 & Hc) & Hp).
  exists pre, ev, e0, post. auto.
Qed.

(** X2.  In every run of [setupNS], failed or not, a policy rule is added
    or deleted only once the pod is wired: before the first call on a rule
    come the cleanup of the old host veth, then the entering of the pod
    namespace, the ten steps of [run], all successful, and the leaving of
    the namespace, then the lookup of the host end, its setting up and the
    replacement of the host route to the pod, all successful; between
    these and a later call on a rule there are only calls on rules. *)
Theorem setupNS_rules_after_wiring (st : state K) :
  let out := setupNS ParseCIDR hostVethName contVethName netnsPath addr table
               vpcCIDRs useExternalSNAT tunnelNet netLink containerNetlink ns ip st in
  exists tr,
    trace (snd out) = trace st ++ tr /\
    forall pre ev post,
      tr = pre ++ ev :: post ->
      is_rule_event ev = true ->
      exists head hostNS hostVeth contVeth hostVeth' rules,
        pre =
          head
          ++ (EvEnterNS netnsPath (Ok hostNS)
                :: run_steps (newCreateVethPairContext contVethName hostVethName addr
                                containerNetlink ip)
                     hostNS hostVeth contVeth
                ++ [EvLeaveNS])
          ++ [ EvLinkByName hostVethName (Ok hostVeth');
               EvLinkSetUp hostVeth' None;
               EvRouteReplace
                 (hostRoute addr (LinkAttrs.Index (Attrs hostVeth'))) None ]
          ++ rules /\
        Forall (fun ev => is_rule_event ev = false) head /\
        Forall (fun ev => is_rule_event ev = true) rules.
Proof.
  intros out. subst out.
  destruct (setupNS_phases ParseCIDR hostVethName contVethName netnsPath addr table
              vpcCIDRs useExternalSNAT tunnelNet netLink containerNetlink ns ip st)
    as (tr & Etr & head & wiring & rules & -> & Fh & Fw & Fr & Hw & _).
  eexists. split; [exact Etr|].
  intros pre ev post Hsplit Hev.
  rewrite app_assoc in Hsplit.
  destruct (@first_after_prefix _ is_rule_event (head ++ wiring) rules pre post ev)
    as (rest & -> & Hrules); [apply Forall_app; split; assumption | exact Hev
                              | exact Hsplit |].
  assert (Hne : rules <> []).
  { rewrite Hrules. destruct rest; discriminate. }
  destruct (Hw Hne) as (hostNS & hv & cv & hv' & ->).
  exists head, hostNS, hv, cv, hv', rest.
  split; [rewrite <- !app_assoc; reflexivity|]. split; [exact Fh|].
  rewrite Hrules in Fr. apply Forall_app in Fr. apply Fr.
Qed.

(** X3.  [run] stops at the first error: in every run every call but the
    last was answered without an error, nil is returned exactly when the
    last one was too, and at most ten calls are made.  In particular
    nothing is undone after a failure: the veth pair that was created is
    left as it is. *)
Theorem run_stops_at_first_error (c : createVethPairContext K) (hostNS : NetNS)
    (st : state K) :
  let out := run c hostNS st in
  exists tr,
    trace (snd out) = trace st ++ tr /\
    Forall (fun ev => error_of ev = None) (removelast tr) /\
    returned (fst out) =
      forallb (fun ev => match error_of ev with None => true | Some _ => false end)
              tr /\
    (List.length tr <= 10)%nat /\
    Forall (fun ev => is_LinkDel ev = false) tr.
Proof.
  intros out. subst out.
  change (wp (run c hostNS) st
            (fun r st' =>
               exists tr,
                 trace st' = trace st ++ tr /\
                 Forall (fun ev => error_of ev = None) (removelast tr) /\
                 returned r =
                   forallb (fun ev => match error_of ev with
                                      | None => true
                                      | Some _ => false
                                      end) tr /\
                 (List.length tr <= 10)%nat /\
                 Forall (fun ev => is_LinkDel ev = false) tr)).
  unfold run. wp_run; emitted.
  all: split; [cbn [removelast]; repeat constructor|].
  all: split; [reflexivity|].
  all: split; [cbn [List.length]; lia | repeat constructor].
Qed.

(** X4.  [addContainerRule] deletes before it adds, and the same rule: a
    run is either the deletion alone, refused with an error other than "no
    such rule" that is returned wrapped, or the deletion, accepted or
    answered with "no such rule", followed by the addition of that very
    rule, whose error, if any, is returned wrapped.  The rule carries the
    priority and the table asked for and selects the pod address as
    destination (to the container) or as source (from it). *)
Theorem addContainerRule_deletes_first (isToContainer : bool) (priority : Z)
    (st : state K) :
  let rule :=
    Rule.mk priority table
      (if isToContainer then Rule.Src (NewRule netLink) else Some addr)
      (if isToContainer then Some addr else Rule.Dst (NewRule netLink)) in
  let out := addContainerRule netLink isToContainer addr priority table st in
  exists tr,
    trace (snd out) = trace st ++ tr /\
    ((exists err,
         ContainsNoSuchRule err = false /\
         tr = [EvRuleDel rule (Some err)] /\
         fst out =
           Raise (Wrapf "addContainerRule: failed to delete old container rule for %s"
                        [ANet addr] err)) \/
     (exists e e2,
         del_refused e = false /\
         tr = [EvRuleDel rule e; EvRuleAdd rule e2] /\
         fst out =
           match e2 with
           | None => Return tt
           | Some err =>
               Raise (Wrapf "addContainerRule: failed to add container rule for %s"
                            [ANet addr] err)
           end)).
Proof.
  intros rule out. subst out.
  assert (Hrule : containerRule netLink isToContainer addr priority table = rule).
  { subst rule. destruct isToContainer; reflexivity. }
  change (wp (addContainerRule netLink isToContainer addr priority table) st
            (fun r st' =>
               exists tr,
                 trace st' = trace st ++ tr /\
                 ((exists err,
                      ContainsNoSuchRule err = false /\
                      tr = [EvRuleDel rule (Some err)] /\
                      r = Raise (Wrapf "addContainerRule: failed to delete old container rule for %s"
                                       [ANet addr] err)) \/
                  (exists e e2,
                      del_refused e = false /\
                      tr = [EvRuleDel rule e; EvRuleAdd rule e2] /\
                      r = match e2 with
                          | None => Return tt
                          | Some err =>
                              Raise (Wrapf "addContainerRule: failed to add container rule for %s"
                                           [ANet addr] err)
                          end)))).
  unfold addContainerRule, guardDel. rewrite Hrule.
  apply wp_bind. apply wp_call. intros e1 k1. apply wp_bind.
  destruct e1 as [err1 |]; cbv beta iota.
  - destruct (ContainsNoSuchRule err1) eqn:Hns; cbn [negb].
    + wp_run; emitted; right; eexists; eexists;
        (split; [|split; reflexivity]); cbn; rewrite Hns; reflexivity.
    + wp_run. emitted. left. exists err1. auto.
  - wp_run; emitted; right; eexists; eexists;
      (split; [|split; reflexivity]); reflexivity.
Qed.

(** X5.  [tearDownNS] asks for the deletion of the host route exactly when
    it returns nil, as its last call, naming the /32 of the pod with link
    index 0.  It returns an error only when [table > 0] and
    [DeleteRuleListBySrc] failed: the error is that one wrapped, the call
    is the last of the run, and the host route is left in place.  No run
    adds a rule or deletes a link. *)
Theorem tearDownNS_route_only_on_success (networkClient : NetworkAPIs K)
    (st : state K) :
  let out := tearDownNS addr table netLink networkClient st in
  exists tr,
    trace (snd out) = trace st ++ tr /\
    (forall r e, In (EvRouteDel r e) tr -> fst out = Return tt) /\
    (fst out = Return tt ->
     exists pre e,
       tr = pre
            ++ [EvRouteDel
                  {| Route.LinkIndex := 0;
                     Route.Scope := SCOPE_LINK;
                     Route.Dst := Some (IPNet.mk (IPNet.IP addr) [255; 255; 255; 255]) |}
                  e]) /\
    (fst out <> Return tt ->
     0 < table /\
     exists pre err,
       tr = pre ++ [EvDeleteRuleListBySrc addr (Some err)] /\
       fst out =
         Raise (Wrapf "delete NS network: failed to delete fromContainer rule for %s"
                      [ANet addr] err)) /\
    rule_adds tr = [] /\
    Forall (fun ev => is_LinkDel ev = false) tr.
Proof.
  intros out. subst out.
  destruct (tearDownNS_calls addr table netLink networkClient st)
    as (tr & Etr & e1 & H).
  exists tr. split; [exact Etr|].
  destruct H as [(Ht & e3 & -> & Hr) | [(Ht & e3 & -> & Hr) | (Ht & err & -> & Hr)]].
  - split; [intros; exact Hr|]. split.
    + intros _. exists [EvRuleDel (toContainerRule netLink addr) e1], e3. reflexivity.
    + split; [intros Hn; contradiction (Hn Hr)|].
      split; [reflexivity | repeat constructor].
  - split; [intros; exact Hr|]. split.
    + intros _.
      exists [EvRuleDel (toContainerRule netLink addr) e1;
              EvDeleteRuleListBySrc addr None], e3.
      reflexivity.
    + split; [intros Hn; contradiction (Hn Hr)|].
      split; [reflexivity | repeat constructor].
  - split.
    + intros r e Hin. cbn [In] in Hin.
      repeat (destruct Hin as [Hin | Hin]; [discriminate Hin|]). destruct Hin.
    + split.
      * intros Hc. pose proof (eq_trans (eq_sym Hr) Hc) as Habs. discriminate Habs.
      * split.
        -- intros _. split; [apply Z.ltb_lt; exact Ht|].
           exists [EvRuleDel (toContainerRule netLink addr) e1], err.
           split; [reflexivity | exact Hr].
        -- split; [reflexivity | repeat constructor].
Qed.
End Properties.

Section Wrappers.
Variable K : Type.
Variable ParseCIDR : string -> option IPNet.t.

(** X6.  [TeardownNS] asks for the removal of every rule a successful
    [SetupNS] of the same pod, with the same table, added through the same
    driver: the to-pod rule is handed to [RuleDel] with the same priority,
    source and destination (its table is the one of a new rule, not main),
    and every from-pod rule has the pod as source, which is what
    [DeleteRuleListBySrc] is called with.  When [TeardownNS] returns nil
    it has also asked for the deletion of a route with the destination and
    the scope of the host route [SetupNS] replaced. *)
Theorem TeardownNS_covers_SetupNS (os : linuxNetwork.t K)
    (hostVethName contVethName netnsPath : string) (addr : IPNet.t) (table : Z)
    (vpcCIDRs : list string) (tunnelNet : string) (useExternalSNAT : bool)
    (st st' : state K) :
  let up := SetupNS ParseCIDR os hostVethName contVethName netnsPath addr table
              vpcCIDRs tunnelNet useExternalSNAT st in
  let down := TeardownNS os addr table st' in
  fst up = Return tt ->
  exists tr_up tr_down,
    trace (snd up) = trace st ++ tr_up /\
    trace (snd down) = trace st' ++ tr_down /\
    (forall r,
        In r (rule_adds tr_up) ->
        (Rule.Priority r = 512 /\ Rule.Dst r = Some addr /\
         In (Rule.set_Table (Rule.Table (NewRule (linuxNetwork.netLink os))) r)
            (rule_dels tr_down)) \/
        (Rule.Priority r = 1536 /\ Rule.Src r = Some addr /\
         exists e, In (EvDeleteRuleListBySrc addr e) tr_down)) /\
    (fst down = Return tt ->
     exists linkIndex e,
       In (EvRouteReplace
             (Route.mk linkIndex SCOPE_LINK
                       (Some (IPNet.mk (IPNet.IP addr) [255; 255; 255; 255]))) None)
          tr_up /\
       In (EvRouteDel
             (Route.mk 0 SCOPE_LINK
                       (Some (IPNet.mk (IPNet.IP addr) [255; 255; 255; 255]))) e)
          tr_down).
Proof.
  intros up down Hup. subst up down. unfold SetupNS, TeardownNS in *.
  set (nl := linuxNetwork.netLink os) in *.
  pose proof (DriverFacts.setupNS_shape addr table useExternalSNAT ParseCIDR
                hostVethName contVethName netnsPath vpcCIDRs tunnelNet nl
                (linuxNetwork.containerNetlink os) (linuxNetwork.ns os)
                (linuxNetwork.ip os) st) as H.
  unfold wp in H. destruct H as (del & rest & Eup & _ & D & _ & _ & O).
  destruct (tearDownNS_calls addr table nl (linuxNetwork.networkClient os) st')
    as (tr_down & Edown & e1 & Hdown).
  eexists. exists tr_down. split; [exact Eup|]. split; [exact Edown|].
  pose proof (O Hup) as Hw.
  destruct (DriverFacts.wiring_rules Hw) as (e & fromCalls & _ & Hfrom & Hadds & _).
  assert (Hdel : rule_adds del = []).
  { destruct (fst (LinkByName nl hostVethName (kernel st))).
    - destruct D as (e' & -> & _). reflexivity.
    - subst del. reflexivity. }
  split.
  - intros r Hin. cbn [rule_adds] in Hin.
    rewrite DriverFacts.rule_adds_app, Hdel, Hadds in Hin. cbn [app In] in Hin.
    destruct Hin as [<- | Hin].
    + left. split; [reflexivity|]. split; [reflexivity|].
      change (Rule.set_Table (Rule.Table (NewRule nl)) (toPodRule nl addr))
        with (toContainerRule nl addr).
      destruct Hdown as [(_ & e3 & -> & _) | [(_ & e3 & -> & _) | (_ & err & -> & _)]];
        left; reflexivity.
    + right. apply DriverFacts.fromPodCalls_rules in Hfrom.
      destruct Hfrom as (_ & Hrules). rewrite Hrules in Hin.
      destruct (0 <? table) eqn:Htable; [|destruct Hin].
      assert (Hsrc : Rule.Priority r = 1536 /\ Rule.Src r = Some addr).
      { destruct useExternalSNAT.
        - destruct Hin as [<- | []]. split; reflexivity.
        - apply in_map_iff in Hin. destruct Hin as (cidr & <- & _).
          split; reflexivity. }
      destruct Hsrc as (Hp & Hs). split; [exact Hp|]. split; [exact Hs|].
      destruct Hdown as [(Ht & _) | [(_ & e3 & -> & _) | (_ & err & -> & _)]].
      * rewrite Ht in Htable. discriminate.
      * exists None. right. left. reflexivity.
      * exists (Some err). right. left. reflexivity.
  - intros Hret.
    destruct Hw as (hostNS & hv & cv & hv' & e0 & fromCalls0 & _ & _ & ->).
    exists (LinkAttrs.Index (Attrs hv')).
    assert (Hroute : exists e3,
               In (EvRouteDel (hostRoute addr 0) e3) tr_down).
    { destruct Hdown as [(_ & e3 & -> & _) | [(_ & e3 & -> & _) | (_ & err & _ & Hr)]].
      - exists e3. right. left. reflexivity.
      - exists e3. right. right. left. reflexivity.
      - pose proof (eq_trans (eq_sym Hr) Hret) as Habs. discriminate Habs. }
    destruct Hroute as (e3 & Hin). exists e3. split; [|exact Hin].
    right. apply in_or_app. right.
    rewrite !in_app_iff. right. left. right. right. left. reflexivity.
Qed.
End Wrappers.

(** ** The properties on the test doubles *)

(** X6 on a pod of table 2 without external SNAT, set up and torn down
    through the driver [New] builds. *)
Lemma TeardownNS_covers_SetupNS_witness :
  fst driverSetup = Return tt /\
  exists tr_up tr_down,
    trace (snd driverSetup) = trace start ++ tr_up /\
    trace (snd driverTeardown) = trace start ++ tr_down /\
    (forall r,
        In r (rule_adds tr_up) ->
        (Rule.Priority r = 512 /\ Rule.Dst r = Some podAddr /\
         In (Rule.set_Table 0 r) (rule_dels tr_down)) \/
        (Rule.Priority r = 1536 /\ Rule.Src r = Some podAddr /\
         exists e, In (EvDeleteRuleListBySrc podAddr e) tr_down)) /\
    (fst driverTeardown = Return tt ->
     exists linkIndex e,
       In (EvRouteReplace
             (Route.mk linkIndex SCOPE_LINK
                       (Some (IPNet.mk [10; 0; 1; 7] [255; 255; 255; 255]))) None)
          tr_up /\
       In (EvRouteDel
             (Route.mk 0 SCOPE_LINK
                       (Some (IPNet.mk [10; 0; 1; 7] [255; 255; 255; 255]))) e)
          tr_down).
Proof.
  split; [reflexivity|].
  apply (TeardownNS_covers_SetupNS stubParseCIDR stubDriver "nicabc" "eth0"
           "/proc/12345/ns/net" podAddr 2 ["10.0.0.0/16"] "172.16.0.0/12" false
           start start).
  reflexivity.
Defined.

(** The to-pod rule is added with lookup main and deleted with the table
    of a new rule. *)
Example setup_then_teardown_rules :
  rule_adds (trace (snd driverSetup)) =
    [ Rule.mk 512 254 None (Some podAddr);
      Rule.mk 1536 2 (Some podAddr)
              (Some (IPNet.mk [10; 0; 0; 0] [255; 255; 0; 0]));
      Rule.mk 1536 2 (Some podAddr)
              (Some (IPNet.mk [172; 16; 0; 0] [255; 240; 0; 0])) ] /\
  trace (snd driverTeardown) =
    [ EvRuleDel (Rule.mk 512 0 None (Some podAddr)) None;
      EvDeleteRuleListBySrc podAddr None;
      EvRouteDel (Route.mk 0 SCOPE_LINK
                    (Some (IPNet.mk [10; 0; 1; 7] [255; 255; 255; 255]))) None ].
Proof. split; reflexivity. Qed.

(** The error of [setupRacy] has the kernel's EEXIST as its cause. *)
Example setupNS_cause_of_racy_error :
  option_map Cause
    (match fst setupRacy with Raise e => Some e | _ => None end) =
  Some (Errno EEXIST).
Proof. reflexivity. Qed.

End DriverMore.

(* ================================================================== *)
(** * Facts about package ipam *)
(* ================================================================== *)

Module IpamFacts.
Import Ipam.

Section Facts.
Variable K : Type.
Variable k8s : K8sHelper.t K.
Variable qc : QingCloudAPI K.
Variable networkClient : NetworkAPIs K.
Variable dataStore : DataStore K.
Variable os : OS K.
Variable Error : error -> string.
Variable DuplicatedNICError : string.
Variable IPNet_String : IPNet.t -> string.
Variable ParseIP : string -> net_IP.
Variable GetVPNNet : string -> string.

Local Abbreviation state := (Ipam.state K).

(** ** parseEnv *)

Lemma wp_Getenv (key : string) (st : state) (Q : exit string -> state -> Prop) :
  Q (Return (envOf os (kernel st) key)) st -> wp (Getenv os key) st Q.
Proof. exact (fun H => H). Qed.

(** What [parseEnv] leaves in the receiver. *)
Lemma parseEnv_self (st : state) :
  wp (parseEnv os) st
     (fun r st' =>
        r = Return tt /\ kernel st' = kernel st /\ trace st' = trace st /\
        InstanceID (self st') = InstanceID (self st) /\
        primaryNic (self st') = primaryNic (self st) /\
        vxnet (self st') = vxnet (self st) /\
        vpc (self st') = vpc (self st) /\
        disableLabel (self st') = disableLabel (self st) /\
        extraTags (self st') =
          (if (envOf os (kernel st) envExtraTags =? "")%string
           then extraTags (self st)
           else Split (envOf os (kernel st) envExtraTags) ",") /\
        clusterName (self st') =
          (if (envOf os (kernel st) envClusterName =? "")%string
           then defaultClusterName
           else envOf os (kernel st) envClusterName) /\
        vethPrefix (self st') = prefixOf os (kernel st)).
Proof.
  unfold wp, parseEnv, prefixOf, envOf, bind, Getenv, modify_self, get_self, ret.
  cbn.
  repeat match goal with
         | |- context [String.eqb ?a ?b] => destruct (String.eqb a b); cbn
         end;
    repeat split.
Qed.

(** C9, as the code has it.  [parseEnv] reads each variable with
    [os.Getenv], for which an unset variable is an empty one.  The cluster
    name is HOSTNIC_CLUSTER_NAME, or "kubernetes" when that is empty; the
    veth prefix is HOSTNIC_VETH_PREFIX, or "nic" when that is empty, and a
    supplied prefix is taken as it is, whatever its length;
    HOSTNIC_EXTRA_TAGS, when not empty, is split on commas into the extra
    tags, and the extra tags are left as they were when it is empty.
    Nothing is called and the world does not change. *)
Theorem parseEnv_reads_environment (st : state) :
  let getenv key :=
    match LookupEnv os key (kernel st) with Some v => v | None => "" end in
  let out := parseEnv os st in
  fst out = Return tt /\
  kernel (snd out) = kernel st /\
  trace (snd out) = trace st /\
  clusterName (self (snd out)) =
    (if (getenv "HOSTNIC_CLUSTER_NAME" =? "")%string then "kubernetes"
     else getenv "HOSTNIC_CLUSTER_NAME") /\
  vethPrefix (self (snd out)) =
    (if (getenv "HOSTNIC_VETH_PREFIX" =? "")%string then "nic"
     else getenv "HOSTNIC_VETH_PREFIX") /\
  extraTags (self (snd out)) =
    (if (getenv "HOSTNIC_EXTRA_TAGS" =? "")%string then extraTags (self st)
     else Split (getenv "HOSTNIC_EXTRA_TAGS") ",").
Proof.
  intros getenv out. subst getenv out.
  pose proof (parseEnv_self st) as H. unfold wp in H.
  destruct H as (Hr & Hk & Ht & _ & _ & _ & _ & _ & Htags & Hname & Hprefix).
  repeat split; assumption.
Qed.
(** ** Bootstrap recovery *)

Lemma calm_refl (P : event -> Prop) (st : state) : calm P st st.
Proof.
  split; [reflexivity|]. exists [].
  split; [symmetry; apply app_nil_r | constructor].
Qed.

Lemma calm_trans (P : event -> Prop) (st1 st2 st3 : state) :
  calm P st1 st2 -> calm P st2 st3 -> calm P st1 st3.
Proof.
  intros (S1 & t1 & E1 & F1) (S2 & t2 & E2 & F2). split; [congruence|].
  exists (t1 ++ t2). split; [rewrite E2, E1, app_assoc; reflexivity|].
  apply Forall_app; auto.
Qed.

(** Projections of the receiver after a run of setters. *)
Ltac ipam_simpl :=
  cbn [self kernel trace fst snd
       InstanceID NodeName primaryNic vxnet vpc extraTags clusterName disableLabel
       poolSize maxPoolSize supportVPNTraffic vethPrefix
       set_InstanceID set_primaryNic set_vxnet set_vpc set_extraTags
       set_clusterName set_vethPrefix].

Ltac wp_go :=
  repeat (ipam_simpl;
          first
            [ wp_step
            | match goal with
              | |- match ?x with _ => _ end => destruct x eqn:?
              | |- wp (if ?b then _ else _) _ _ => destruct b eqn:?
              | |- wp (match ?x with _ => _ end) _ _ => destruct x eqn:?
              end ]).

(** A leaf of a symbolic execution that made plain calls only. *)
Ltac calm_leaf :=
  split;
  [ reflexivity
  | emitted; repeat first [ apply Forall_nil | apply Forall_cons ];
    split; reflexivity ].

Lemma recoverPod_calm (rules : list Rule.t) (ip : K8SPodInfo.t) (st : state) :
  wp (recoverPod networkClient dataStore IPNet_String ParseIP GetVPNNet rules ip) st
     (fun r st' => calm plain st st' /\ recovered (self st) r).
Proof.
  unfold recoverPod, vpcSubnets, getNicIndexByIP.
  wp_go.
  all: split; [calm_leaf | first [exact I | assumption]].
Qed.
Lemma recoverPods_calm (rules : list Rule.t) (pods : list K8SPodInfo.t) :
  forall st : state,
    wp (recoverPods networkClient dataStore IPNet_String ParseIP GetVPNNet rules pods)
       st
       (fun r st' => calm plain st st' /\ recovered (self st) r).
Proof.
  induction pods as [| ip rest IH]; intros st; cbn [recoverPods].
  - wp_step. split; [apply calm_refl | exact I].
  - apply wp_bind. eapply wp_mono; [apply recoverPod_calm|].
    intros r st1 (C1 & R1). destruct r as [[] | e | msg]; [|destruct R1|auto].
    eapply wp_mono; [apply IH|].
    intros r st2 (C2 & R2). split; [eapply calm_trans; eassumption|].
    destruct C1 as (S1 & _). rewrite S1 in R2. exact R2.
Qed.

(** [prepareLocalPods]: the rule list is read first; when that fails nothing
    else is called and nil is returned; otherwise only plain calls follow
    and nil is returned, unless [s.vpc] is nil. *)
Lemma prepareLocalPods_calls (pods : list K8SPodInfo.t) (st : state) :
  wp (prepareLocalPods networkClient dataStore IPNet_String ParseIP GetVPNNet pods) st
     (fun r st' =>
        recovered (self st) r /\
        self st' = self st /\
        exists rest,
          trace st' =
            trace st ++ EvGetRuleList (fst (GetRuleList networkClient (kernel st)))
                     :: rest /\
          Forall plain rest /\
          (is_ok (fst (GetRuleList networkClient (kernel st))) = false ->
           r = Return tt /\ rest = [] /\
           kernel st' = snd (GetRuleList networkClient (kernel st)))).
Proof.
  unfold prepareLocalPods. apply wp_bind.
  unfold wp at 1, call.
  destruct (GetRuleList networkClient (kernel st)) as [[rules | e] k1]; cbn [fst snd].
  - apply wp_bind. eapply wp_mono; [apply recoverPods_calm|].
    intros r st1 ((S1 & tr & E1 & F1) & R1). cbn [self trace] in *.
    assert (Hshape : exists rest,
               trace st1 = trace st ++ EvGetRuleList (Ok rules) :: rest /\
               Forall plain rest /\
               (is_ok (Ok rules) = false ->
                r = Return tt /\ rest = [] /\ kernel st1 = k1)).
    { exists tr. split; [rewrite E1, <- app_assoc; reflexivity|].
      split; [exact F1 | discriminate]. }
    destruct r as [[] | e | msg]; [wp_step| |]; auto.
  - wp_step. split; [exact I|]. split; [reflexivity|]. exists [].
    cbn [trace kernel]. repeat split. constructor.
Qed.

(** ** Bootstrap *)

Lemma setupNic_calm (nic : HostNic.t) (st : state) :
  wp (setupNic networkClient dataStore os Error DuplicatedNICError IPNet_String nic) st
     (fun _ st' => calm plain st st').
Proof.
  unfold setupNic. wp_go; calm_leaf.
Qed.

Lemma setupNics_calm (nics : list HostNic.t) :
  forall st : state,
    wp (setupNics networkClient dataStore os Error DuplicatedNICError IPNet_String nics)
       st
       (fun _ st' => calm plain st st').
Proof.
  induction nics as [| nic rest IH]; intros st; cbn [setupNics].
  - wp_step. apply calm_refl.
  - apply wp_bind. eapply wp_mono; [apply setupNic_calm|].
    intros r st1 C1. destruct r as [[] | e | msg]; auto.
    eapply wp_mono; [apply IH|].
    intros r st2 C2. eapply calm_trans; eassumption.
Qed.

Lemma fetchPods_calm (st : state) :
  wp (fetchPods k8s) st
     (fun r st' => calm plain st st' /\ exists out, r = Return out).
Proof.
  unfold fetchPods. wp_go; (split; [calm_leaf | eauto]).
Qed.

Lemma retry_fetchPods_calm (retries : nat) (sleep : Z) :
  forall st : state,
    wp (retry_loop os retries sleep (fetchPods k8s)) st
       (fun r st' => calm plain st st' /\ exists out, r = Return out).
Proof.
  induction retries as [| n IH]; intros st; cbn [retry_loop];
    apply wp_bind; (eapply wp_mono; [apply fetchPods_calm|]);
    intros r st1 (C1 & out & ->); destruct out as [pods [e |]]; cbn [snd].
  - wp_step. eauto.
  - wp_step. eauto.
  - apply wp_bind. apply wp_tell. eapply wp_mono; [apply IH|].
    intros r st2 (C2 & out2 & ->). split; [|eauto].
    eapply calm_trans; [exact C1|]. eapply calm_trans; [|exact C2].
    calm_leaf.
  - wp_step. eauto.
Qed.
Lemma plain_not_file (tr : list event) :
  Forall plain tr -> Forall (fun ev => is_file_event ev = false) tr.
Proof. apply Forall_impl. intros ev (H & _). exact H. Qed.

Lemma plain_not_GetRuleList (tr : list event) (r : res (list Rule.t)) :
  Forall plain tr -> ~ In (EvGetRuleList r) tr.
Proof.
  intros F Hin. rewrite Forall_forall in F. apply F in Hin.
  destruct Hin as (_ & H). discriminate.
Qed.

(** A leaf of [setup] before the recovery: explicit plain calls. *)
Ltac early_leaf Ht Hprefix :=
  ipam_simpl; rewrite ?Ht; emitted;
  split; [repeat first [ apply Forall_nil | apply Forall_cons ]; reflexivity|];
  split; [exact Hprefix|];
  let Hin := fresh in
  intros ? Hin; cbn [In] in Hin;
  repeat (destruct Hin as [Hin | Hin]; [discriminate Hin|]); destruct Hin.

(** [setup]: no call touches the file system, the veth prefix is the one
    of the environment, and once the rule list is read the result is nil. *)
Lemma setup_summary (st : state) :
  wp (setup k8s qc networkClient dataStore os Error DuplicatedNICError IPNet_String
        ParseIP GetVPNNet) st
     (fun r st' =>
        exists tr,
          trace st' = trace st ++ tr /\
          Forall (fun ev => is_file_event ev = false) tr /\
          vethPrefix (self st') = prefixOf os (kernel st) /\
          (forall r0, In (EvGetRuleList r0) tr -> r = Return tt)).
Proof.
  unfold setup. apply wp_bind. eapply wp_mono; [apply parseEnv_self|].
  intros r st1 (-> & Hk & Ht & _ & _ & _ & _ & _ & _ & _ & Hprefix).
  unfold prepareQingCloudClient, EnsureVxNet, vpcSubnets, retry_Do.
  wp_go.
  all: try solve [early_leaf Ht Hprefix].
  eapply wp_mono; [apply setupNics_calm|].
  intros r st2 (S2 & tr2 & E2 & F2). cbn [self trace] in S2, E2.
  assert (Hearly : forall x : exit unit,
             x <> Return tt ->
             exists tr,
               trace st2 = trace st ++ tr /\
               Forall (fun ev => is_file_event ev = false) tr /\
               vethPrefix (self st2) = prefixOf os (kernel st) /\
               (forall r0, In (EvGetRuleList r0) tr -> x = Return tt)).
  { intros x _. rewrite E2, Ht, S2. emitted.
    split; [repeat (apply Forall_cons; [reflexivity|]);
            apply plain_not_file; exact F2|].
    split; [exact Hprefix|].
    intros r0 Hin. cbn [In] in Hin.
    repeat (destruct Hin as [Hin | Hin]; [discriminate Hin|]).
    apply plain_not_GetRuleList in Hin; [destruct Hin | exact F2]. }
  destruct r as [[] | e | msg]; [|apply Hearly; discriminate ..].
  apply wp_bind. eapply wp_mono; [apply retry_fetchPods_calm|].
  intros r st3 ((S3 & tr3 & E3 & F3) & out & ->).
  apply wp_bind. eapply wp_mono; [apply prepareLocalPods_calls|].
  intros r st4 (R4 & S4 & rest & E4 & F4 & _).
  assert (Hvpc : vpc (self st3) <> None).
  { rewrite S3, S2. discriminate. }
  destruct r as [[] | e | msg]; [wp_step | destruct R4 | contradiction].
  rewrite E4, E3, E2, Ht, S4, S3, S2. emitted.
  split.
  { repeat (apply Forall_cons; [reflexivity|]).
    apply Forall_app. split; [apply plain_not_file; exact F2|].
    apply Forall_app. split; [apply plain_not_file; exact F3|].
    apply Forall_cons; [reflexivity|]. apply plain_not_file; exact F4. }
  split; [exact Hprefix|]. reflexivity.
Qed.
(** C10.  When reading the kernel rule list fails, [prepareLocalPods]
    returns nil at once: the read is its only call, no pod is assigned and
    no rule is updated.  Otherwise it returns nil whatever the datastore
    and the kernel answer for each pod (a failed assignment, an address no
    NIC carries and a failed rule update are not returned), as long as
    [s.vpc] is set; and in [setup], where it is, [setup] returns nil
    whenever it gets as far as reading the rule list. *)
Theorem recovery_never_fails :
  (forall (pods : list K8SPodInfo.t) (st : state),
      let out :=
        prepareLocalPods networkClient dataStore IPNet_String ParseIP GetVPNNet
          pods st in
      forall e,
        fst (GetRuleList networkClient (kernel st)) = Err e ->
        fst out = Return tt /\
        trace (snd out) = trace st ++ [EvGetRuleList (Err e)] /\
        kernel (snd out) = snd (GetRuleList networkClient (kernel st)) /\
        self (snd out) = self st) /\
  (forall (pods : list K8SPodInfo.t) (st : state),
      vpc (self st) <> None ->
      fst (prepareLocalPods networkClient dataStore IPNet_String ParseIP GetVPNNet
             pods st) = Return tt) /\
  (forall st : state,
      let out :=
        setup k8s qc networkClient dataStore os Error DuplicatedNICError
          IPNet_String ParseIP GetVPNNet st in
      exists tr,
        trace (snd out) = trace st ++ tr /\
        forall r, In (EvGetRuleList r) tr -> fst out = Return tt).
Proof.
  split; [|split].
  - intros pods st out e He. subst out.
    pose proof (prepareLocalPods_calls pods st) as H. unfold wp in H.
    destruct H as (_ & S & rest & E & _ & Hfail).
    rewrite He in *. destruct (Hfail eq_refl) as (Hr & -> & Hk).
    repeat split; assumption.
  - intros pods st Hvpc.
    pose proof (prepareLocalPods_calls pods st) as H. unfold wp in H.
    destruct H as (R & _).
    destruct (fst (prepareLocalPods networkClient dataStore IPNet_String ParseIP
                     GetVPNNet pods st)) as [[] | e | msg];
      [reflexivity | destruct R | contradiction].
  - intros st out. subst out.
    pose proof (setup_summary st) as H. unfold wp in H.
    destruct H as (tr & E & _ & _ & Hret). exists tr. split; assumption.
Qed.
(** ** The configuration file *)

Lemma squeeze_app (a b : string) :
  squeeze (a ++ b) = (squeeze a ++ squeeze b)%string.
Proof.
  induction a as [| c a IH]; [reflexivity|].
  cbn [String.append squeeze].
  destruct (Ascii.eqb c " " || Ascii.eqb c "009" || Ascii.eqb c "010"
            || Ascii.eqb c "013")%bool;
    [exact IH | cbn [String.append]; rewrite IH; reflexivity].
Qed.

Lemma string_app_assoc (a b c : string) :
  ((a ++ b) ++ c = a ++ (b ++ c))%string.
Proof.
  induction a as [| x a IH]; [reflexivity|].
  cbn [String.append]. rewrite IH. reflexivity.
Qed.

(** What is written is the configuration of the specification, white space
    apart. *)
Lemma squeeze_cniConfig (prefix : string) :
  squeeze (cniConfig prefix) = squeeze (spec_conflist prefix).
Proof.
  unfold cniConfig, spec_conflist, Execute, templ, quoted.
  cbn [map String.concat CniVersion VethPrefix].
  rewrite !squeeze_app, !string_app_assoc. reflexivity.
Qed.

Lemma fg_no_file (prefix : string) (tr : list event) :
  Forall (fun ev => is_file_event ev = false) tr -> file_guarded prefix tr.
Proof.
  intros F pre ev post ->.
  apply Forall_app in F. destruct F as (_ & F). inversion F as [| ? ? Hev _].
  destruct ev; try exact I; discriminate.
Qed.

Lemma fg_app (prefix : string) (t1 t2 : list event) :
  file_guarded prefix t1 -> file_guarded prefix t2 ->
  file_guarded prefix (t1 ++ t2).
Proof.
  intros H1 H2 pre ev post E.
  apply app_eq_app in E. destruct E as (l & [(E1 & E2) | (E1 & E2)]).
  - destruct l as [| x l].
    + cbn in E2. specialize (H2 [] ev post (eq_sym E2)).
      destruct ev; try exact I.
      * destruct H2 as (_ & pre' & t & a & E & _). destruct pre'; discriminate.
      * destruct H2 as (_ & _ & pre' & t & a & E & _).
        destruct pre' as [| ? [| ? ?]]; discriminate.
    + injection E2 as <- ->. apply (H1 pre ev l). exact E1.
  - specialize (H2 l ev post E2). destruct ev; try exact I.
    + destruct H2 as (Hp & pre' & t & a & -> & Hlt). split; [exact Hp|].
      exists (t1 ++ pre'), t, a.
      split; [rewrite E1, app_assoc; reflexivity | exact Hlt].
    + destruct H2 as (Hp & Hc & pre' & t & a & -> & Hlt).
      split; [exact Hp|]. split; [exact Hc|].
      exists (t1 ++ pre'), t, a.
      split; [rewrite E1, app_assoc; reflexivity | exact Hlt].
Qed.

(** An attempt that stops at the creation of the file. *)
Lemma fg_create (prefix : string) (total assigned : Z) (e : option error) :
  assigned < total ->
  file_guarded prefix [EvGetStats (total, assigned); EvCreate configFileName e].
Proof.
  intros Hlt pre ev post E.
  destruct pre as [| x [| y pre]]; cbn [app] in E; inversion E; subst.
  - exact I.
  - split; [reflexivity|]. exists [], total, assigned.
    split; [reflexivity | exact Hlt].
  - destruct pre; discriminate.
Qed.

(** An attempt that goes as far as the write. *)
Lemma fg_write (prefix : string) (total assigned : Z) (e : option error) :
  assigned < total ->
  file_guarded prefix
    [ EvGetStats (total, assigned); EvCreate configFileName None;
      EvWrite configFileName (cniConfig prefix) e ].
Proof.
  intros Hlt pre ev post E.
  destruct pre as [| x [| y [| z pre]]]; cbn [app] in E; inversion E; subst.
  - exact I.
  - split; [reflexivity|]. exists [], total, assigned.
    split; [reflexivity | exact Hlt].
  - split; [reflexivity|]. split; [reflexivity|].
    exists [], total, assigned. split; [reflexivity | exact Hlt].
  - destruct pre; discriminate.
Qed.

(** One call of the closure of [Start]: the receiver is untouched, the
    file is touched under guard only, and nil is handed back only after a
    successful write. *)
Lemma writeWhenFree_guarded (st : state) :
  wp (writeWhenFree dataStore os) st
     (fun r st' =>
        self st' = self st /\
        exists tr,
          trace st' = trace st ++ tr /\
          file_guarded (vethPrefix (self st)) tr /\
          exists e,
            r = Return (tt, e) /\
            (e = None ->
             exists pre,
               tr = pre ++ [EvWrite configFileName (cniConfig (vethPrefix (self st)))
                                    None])).
Proof.
  unfold writeWhenFree, WriteCNIConfig.
  apply wp_bind. apply wp_call. intros [total assigned] k1.
  destruct (assigned <? total) eqn:Hfree.
  - apply Z.ltb_lt in Hfree. wp_go.
    all: split; [reflexivity|]; emitted.
    + split; [apply fg_create; exact Hfree|].
      eexists. split; [reflexivity | discriminate].
    + split; [apply fg_write; exact Hfree|].
      eexists. split; [reflexivity | discriminate].
    + split; [apply fg_write; exact Hfree|].
      eexists. split; [reflexivity|]. intros _.
      exists [EvGetStats (total, assigned); EvCreate configFileName None].
      reflexivity.
  - wp_go. split; [reflexivity|]. emitted.
    split; [apply fg_no_file; repeat constructor|].
    eexists. split; [reflexivity | discriminate].
Qed.

Lemma retry_writeWhenFree_guarded (retries : nat) (sleep : Z) :
  forall st : state,
    wp (retry_loop os retries sleep (writeWhenFree dataStore os)) st
       (fun r st' =>
          self st' = self st /\
          exists tr,
            trace st' = trace st ++ tr /\
            file_guarded (vethPrefix (self st)) tr /\
            exists e,
              r = Return (tt, e) /\
              (e = None ->
               exists pre,
                 tr = pre ++ [EvWrite configFileName
                                      (cniConfig (vethPrefix (self st))) None])).
Proof.
  induction retries as [| n IH]; intros st; cbn [retry_loop];
    apply wp_bind; (eapply wp_mono; [apply writeWhenFree_guarded|]);
    intros r st1 (S1 & tr1 & E1 & G1 & e1 & -> & L1); cbn [snd].
  - destruct e1; wp_step; (split; [exact S1|]); exists tr1; eauto 6.
  - destruct e1 as [err |].
    + apply wp_bind. apply wp_tell. eapply wp_mono; [apply IH|].
      intros r st2 (S2 & tr2 & E2 & G2 & e2 & -> & L2).
      cbn [self trace] in S2, E2. rewrite S1 in *.
      split; [exact S2|]. exists (tr1 ++ EvRetrySleep sleep :: tr2).
      split; [rewrite E2, E1, <- !app_assoc; reflexivity|].
      split.
      * apply fg_app; [exact G1|].
        apply (fg_app (t1 := [EvRetrySleep sleep])); [|exact G2].
        apply fg_no_file. repeat constructor.
      * exists e2. split; [reflexivity|]. intros He.
        destruct (L2 He) as (pre & ->).
        exists (tr1 ++ EvRetrySleep sleep :: pre).
        rewrite <- app_assoc. reflexivity.
    + wp_step. split; [exact S1|]. exists tr1. eauto 6.
Qed.

(** [StartIPAMD]: as [setup], after the start of the controller. *)
Lemma StartIPAMD_summary (st : state) :
  wp (StartIPAMD k8s qc networkClient dataStore os Error DuplicatedNICError
        IPNet_String ParseIP GetVPNNet) st
     (fun r st' =>
        exists tr,
          trace st' = trace st ++ tr /\
          Forall (fun ev => is_file_event ev = false) tr /\
          (r = Return tt ->
           vethPrefix (self st') =
             prefixOf os (snd (K8sHelper.Start k8s (kernel st))))).
Proof.
  unfold StartIPAMD. apply wp_bind. apply wp_call_exact.
  destruct (fst (K8sHelper.Start k8s (kernel st))) as [e |].
  - wp_go. emitted. split; [repeat constructor | discriminate].
  - wp_go. eapply wp_mono; [apply setup_summary|].
    intros r st1 (tr & E & F & P & _). cbn [trace kernel] in E, P.
    exists (EvK8sStart None :: tr).
    split; [rewrite E, <- app_assoc; reflexivity|].
    split; [constructor; [reflexivity | exact F]|].
    intros _. exact P.
Qed.

Lemma file_call_after_prefix (tr0 tr' pre post : list event) (ev : event) :
  Forall (fun ev => is_file_event ev = false) tr0 ->
  is_file_event ev = true ->
  tr0 ++ tr' = pre ++ ev :: post ->
  exists rest, pre = tr0 ++ rest.
Proof.
  intros F Hev E. apply app_eq_app in E.
  destruct E as (l & [(E1 & E2) | (E1 & E2)]).
  - destruct l as [| x l].
    + exists []. rewrite app_nil_r in *. symmetry. exact E1.
    + injection E2 as <- _. subst tr0.
      apply Forall_app in F. destruct F as (_ & F). inversion F. congruence.
  - exists l. exact E1.
Qed.

(** What [Start] does once [StartIPAMD] has returned nil. *)
Lemma Start_rest_guarded (st : state) :
  wp (bind (tell (fun k => k) EvGoStartReconcileIPPool)
        (fun _ =>
           bind (wrap_err (Errorf "Failed to start grpc server, err: %s")
                   (StartGrpcServer os))
             (fun _ =>
                bind (tell (Sleep os 20) (EvSleep 20))
                  (fun _ =>
                     bind (retry_Do os 10 5 (writeWhenFree dataStore os))
                       (fun out => guard (snd out) (fun e => e))))))
     st
     (fun r st' =>
        exists tr,
          trace st' = trace st ++ tr /\
          file_guarded (vethPrefix (self st)) tr /\
          (r = Return tt ->
           exists pre,
             tr = pre ++ [EvWrite configFileName (cniConfig (vethPrefix (self st)))
                                  None])).
Proof.
  unfold StartGrpcServer, retry_Do. wp_go.
  - emitted. split; [apply fg_no_file; repeat constructor | discriminate].
  - eapply wp_mono; [apply retry_writeWhenFree_guarded|].
    intros r st1 (S1 & tr1 & E1 & G1 & e1 & -> & L1). cbn [self trace] in *.
    assert (Hpre : file_guarded (vethPrefix (self st))
                     ([EvGoStartReconcileIPPool; EvListen ipamdgRPCaddress None;
                       EvGoServe; EvSleep 20] ++ tr1)).
    { apply fg_app; [apply fg_no_file; repeat constructor | exact G1]. }
    destruct e1 as [err |]; cbn [snd]; wp_step; rewrite E1; emitted;
      (split; [exact Hpre|]); [discriminate|].
    intros _. destruct (L1 eq_refl) as (pre & ->).
    exists ([EvGoStartReconcileIPPool; EvListen ipamdgRPCaddress None;
             EvGoServe; EvSleep 20] ++ pre).
    rewrite <- app_assoc. reflexivity.
Qed.

(** C8.  In every run of [Start], a call that touches the file system is
    on /host/etc/cni/net.d/10-ahostnic.conflist and comes after
    [StartIPAMD] (the start of the controller and [setup]) has returned
    nil: the file is created right after statistics of the datastore with
    [total > assigned], and written right after its successful creation.
    What is written is the template filled with the version 0.3.1 and the
    veth prefix of the receiver after [setup], which is the one of the
    environment; white space apart, it is the configuration list of the
    specification.  When [Start] returns nil, its last call is such a
    write, and it succeeded. *)
Theorem Start_writes_config_when_ready (st : state) :
  let st0 := {| kernel := kernel st; trace := trace st; self := NewIpamD |} in
  let boot :=
    StartIPAMD k8s qc networkClient dataStore os Error DuplicatedNICError
      IPNet_String ParseIP GetVPNNet st0 in
  let prefix := vethPrefix (self (snd boot)) in
  let out :=
    Start k8s qc networkClient dataStore os Error DuplicatedNICError
      IPNet_String ParseIP GetVPNNet st in
  exists tr,
    trace (snd out) = trace st ++ tr /\
    (forall pre ev post,
        tr = pre ++ ev :: post ->
        is_file_event ev = true ->
        (fst boot = Return tt /\
         prefix = prefixOf os (snd (K8sHelper.Start k8s (kernel st))) /\
         exists pre0 rest, pre = pre0 ++ rest /\ trace (snd boot) = trace st ++ pre0) /\
        match ev with
        | EvCreate path _ =>
            path = "/host/etc/cni/net.d/10-ahostnic.conflist" /\
            exists pre' total assigned,
              pre = pre' ++ [EvGetStats (total, assigned)] /\ assigned < total
        | EvWrite path content _ =>
            path = "/host/etc/cni/net.d/10-ahostnic.conflist" /\
            (exists pre' total assigned,
                pre = pre' ++ [ EvGetStats (total, assigned);
                                EvCreate "/host/etc/cni/net.d/10-ahostnic.conflist"
                                         None ] /\
                assigned < total) /\
            content = Execute templ {| CniVersion := "0.3.1"; VethPrefix := prefix |} /\
            squeeze content = squeeze (spec_conflist prefix)
        | _ => True
        end) /\
    (fst out = Return tt ->
     exists pre,
       tr = pre ++ [EvWrite "/host/etc/cni/net.d/10-ahostnic.conflist"
                            (Execute templ
                               {| CniVersion := "0.3.1"; VethPrefix := prefix |})
                            None]).
Proof.
  intros st0 boot prefix out.
  pose proof (StartIPAMD_summary st0) as Hboot. unfold wp in Hboot.
  fold boot in Hboot. destruct Hboot as (tr0 & E0 & F0 & P0).
  unfold st0 in E0, P0. cbn [trace kernel] in E0, P0.
  assert (Hout : out =
            match boot with
            | (Return _, st1) =>
                bind (tell (fun k => k) EvGoStartReconcileIPPool)
                  (fun _ =>
                     bind (wrap_err (Errorf "Failed to start grpc server, err: %s")
                             (StartGrpcServer os))
                       (fun _ =>
                          bind (tell (Sleep os 20) (EvSleep 20))
                            (fun _ =>
                               bind (retry_Do os 10 5 (writeWhenFree dataStore os))
                                 (fun out => guard (snd out) (fun e => e))))) st1
            | (Raise e, st1) => (Raise e, st1)
            | (Panic msg, st1) => (Panic msg, st1)
            end) by reflexivity.
  subst prefix. destruct boot as [rb st1]. cbn [fst snd] in *.
  destruct rb as [[] | e | msg].
  - pose proof (Start_rest_guarded st1) as Hrest. unfold wp in Hrest.
    rewrite <- Hout in Hrest. destruct Hrest as (tr' & E' & G' & L').
    exists (tr0 ++ tr').
    split; [eapply eq_trans; [exact E'|]; rewrite app_assoc; f_equal; exact E0|].
    split; [|intros Hret; destruct (L' Hret) as (pre & ->); exists (tr0 ++ pre);
             rewrite <- app_assoc; reflexivity].
    intros pre ev post Hsplit Hev.
    assert (Hg : file_guarded (vethPrefix (self st1)) (tr0 ++ tr')).
    { apply fg_app; [|exact G']. apply fg_no_file. exact F0. }
    specialize (Hg pre ev post Hsplit).
    assert (Hafter : exists rest, pre = tr0 ++ rest).
    { eapply file_call_after_prefix; [exact F0 | exact Hev | exact Hsplit]. }
    destruct Hafter as (rest & Hrest).
    split; [split; [reflexivity|]; split; [exact (P0 eq_refl)|]; eauto|].
    destruct ev; try exact I.
    + exact Hg.
    + destruct Hg as (Hpath & Hcontent & Hpre).
      split; [exact Hpath|]. split; [exact Hpre|]. split; [exact Hcontent|].
      rewrite Hcontent. apply squeeze_cniConfig.
  - exists tr0. rewrite Hout. cbn [fst snd]. split; [exact E0|].
    split; [|discriminate].
    intros pre ev post -> Hev.
    apply Forall_app in F0. destruct F0 as (_ & F0). inversion F0. congruence.
  - exists tr0. rewrite Hout. cbn [fst snd]. split; [exact E0|].
    split; [|discriminate].
    intros pre ev post -> Hev.
    apply Forall_app in F0. destruct F0 as (_ & F0). inversion F0. congruence.
Qed.
End Facts.

(** C9 as stated fails: a veth prefix of seven characters is taken as it is. *)
Lemma parseEnv_keeps_long_prefix :
  LookupEnv (stubOS longPrefixEnv) "HOSTNIC_VETH_PREFIX" tt = Some "hostnic" /\
  vethPrefix (self (snd (parseEnv (stubOS longPrefixEnv) startIpam))) = "hostnic" /\
  (4 < String.length
         (vethPrefix (self (snd (parseEnv (stubOS longPrefixEnv) startIpam)))))%nat.
Proof. repeat split. cbn. lia. Qed.

(** ** The functions on the test doubles *)

Example Split_tags :
  Split "team=net,env=prod" "," = ["team=net"; "env=prod"] /\
  Split "a,,b," "," = ["a"; ""; "b"; ""] /\
  Split "solo" "," = ["solo"].
Proof. repeat split. Qed.

(** The rule list cannot be read: that read is the only call. *)
Example recovery_without_rule_list :
  recoverStubPods (Err (Errno ENOENT)) =
    (Return tt,
     {| kernel := tt;
        trace := [EvGetRuleList (Err (Errno ENOENT))];
        self := self ipamWithVPC |}).
Proof. reflexivity. Qed.

(** Both assignments are refused and no NIC carries the address of the
    second pod: the rules of the first pod are updated all the same, and
    nil is returned. *)
Example recovery_goes_on :
  fst (recoverStubPods (Ok [])) = Return tt /\
  trace (snd (recoverStubPods (Ok []))) =
    [ EvGetRuleList (Ok []);
      EvAssignPodIPv4Address (K8SPodInfo.mk "p1" "default" "c1" "10.0.1.7")
        (Err (ErrorNew "unknown IP"));
      EvGetNICInfos {| NICIPPools := [("nic-1", NICIPPool.mk 2 ["10.0.1.7"])] |};
      EvUseExternalSNAT false;
      EvUpdateRuleListBySrc []
        (IPNet.mk [10; 0; 1; 7] [255; 255; 255; 255])
        ["10.0.1.0/24"; "10.0.0.0/16"] true 2 None;
      EvAssignPodIPv4Address (K8SPodInfo.mk "p2" "default" "c2" "10.0.9.9")
        (Err (ErrorNew "unknown IP"));
      EvGetNICInfos {| NICIPPools := [("nic-1", NICIPPool.mk 2 ["10.0.1.7"])] |} ].
Proof. split; reflexivity. Qed.

(** With a free address the configuration file is the last thing written;
    with none, ten looks at the statistics and no file. *)
Example Start_with_free_address :
  fst (startOnStubs (1, 0)) = Return tt /\
  last (trace (snd (startOnStubs (1, 0)))) EvGoServe =
    EvWrite configFileName (cniConfig "nic") None /\
  filter is_file_event (trace (snd (startOnStubs (1, 0)))) =
    [ EvCreate configFileName None; EvWrite configFileName (cniConfig "nic") None ].
Proof. repeat split. Qed.

Example Start_without_free_address :
  fst (startOnStubs (1, 1)) = Raise (ErrorNew "DataStore has no enough pods") /\
  filter is_file_event (trace (snd (startOnStubs (1, 1)))) = [] /\
  List.length
    (filter (fun ev => match ev with EvGetStats _ => true | _ => false end)
            (trace (snd (startOnStubs (1, 1))))) = 10%nat.
Proof. repeat split. Qed.
End IpamFacts.

(* ================================================================== *)
(** * More facts about package ipam: the bootstrap, step by step *)
(* ================================================================== *)

Module IpamMore.
Import Ipam.

(** ** strings.Split *)

Lemma Split_nonempty (s : string) (sep : ascii) : Split s sep <> [].
Proof.
  destruct s as [| c s]; cbn [Split]; [discriminate|].
  destruct (Ascii.eqb c sep); [discriminate|].
  destruct (Split s sep); discriminate.
Qed.

(** Joining the pieces with the separator gives the string back. *)
Lemma Split_concat (s : string) (sep : ascii) :
  String.concat (String sep EmptyString) (Split s sep) = s.
Proof.
  induction s as [| c s IH]; [reflexivity|].
  cbn [Split]. destruct (Ascii.eqb c sep) eqn:Hc.
  - apply Ascii.eqb_eq in Hc. subst c.
    pose proof (Split_nonempty s sep) as Hne.
    destruct (Split s sep) as [| w ws]; [contradiction Hne; reflexivity|].
    change (String.concat (String sep "") ("" :: w :: ws))
      with (String sep (String.concat (String sep "") (w :: ws))).
    rewrite IH. reflexivity.
  - pose proof (Split_nonempty s sep) as Hne.
    destruct (Split s sep) as [| w ws]; [contradiction Hne; reflexivity|].
    destruct ws as [| w' ws].
    + cbn in IH |- *. rewrite IH. reflexivity.
    + change (String.concat (String sep "") (String c w :: w' :: ws))
        with (String c (w ++ String sep "" ++ String.concat (String sep "") (w' :: ws))).
      change (String.concat (String sep "") (w :: w' :: ws))
        with (w ++ String sep "" ++ String.concat (String sep "") (w' :: ws))%string
        in IH.
      rewrite IH. reflexivity.
Qed.

(** No piece holds the separator. *)
Lemma Split_pieces (s : string) (sep : ascii) :
  Forall (fun w => occurrences sep w = O) (Split s sep).
Proof.
  induction s as [| c s IH]; [repeat constructor|].
  cbn [Split]. destruct (Ascii.eqb c sep) eqn:Hc.
  - constructor; [reflexivity | exact IH].
  - destruct (Split s sep) as [| w ws]; [repeat constructor; cbn; rewrite Hc; reflexivity|].
    inversion IH as [| ? ? Hw Hws]; subst.
    constructor; [cbn; rewrite Hc; exact Hw | exact Hws].
Qed.

(** One piece more than there are separators. *)
Lemma Split_length (s : string) (sep : ascii) :
  List.length (Split s sep) = S (occurrences sep s).
Proof.
  induction s as [| c s IH]; [reflexivity|].
  cbn [Split occurrences]. destruct (Ascii.eqb c sep).
  - cbn [List.length]. rewrite IH. reflexivity.
  - destruct (Split s sep) as [| w ws]; [discriminate IH | exact IH].
Qed.

(** ** The scan of the pools *)

Lemma existsb_eqb_In (ip : string) (l : list string) :
  existsb (fun i => (i =? ip)%string) l = true <-> In ip l.
Proof.
  rewrite existsb_exists. split.
  - intros (x & Hin & Heq). apply String.eqb_eq in Heq. subst x. exact Hin.
  - intros Hin. exists ip. split; [exact Hin | apply String.eqb_refl].
Qed.

Lemma nicIndexByIP_absent (nics : list (string * NICIPPool.t)) (ip : string) :
  (forall p, In p nics -> ~ In ip (NICIPPool.IPv4Addresses (snd p))) ->
  nicIndexByIP nics ip = -1.
Proof.
  induction nics as [| [id nic] rest IH]; intros H; [reflexivity|].
  cbn [nicIndexByIP].
  destruct (existsb (fun i => (i =? ip)%string) (NICIPPool.IPv4Addresses nic)) eqn:Hex.
  - apply existsb_eqb_In in Hex. exfalso. apply (H (id, nic)); [left; reflexivity|].
    exact Hex.
  - apply IH. intros p Hp. apply H. right. exact Hp.
Qed.

Lemma nicIndexByIP_first (nics : list (string * NICIPPool.t)) (ip : string) :
  (exists p, In p nics /\ In ip (NICIPPool.IPv4Addresses (snd p))) ->
  exists pre p post,
    nics = pre ++ p :: post /\
    In ip (NICIPPool.IPv4Addresses (snd p)) /\
    (forall q, In q pre -> ~ In ip (NICIPPool.IPv4Addresses (snd q))) /\
    nicIndexByIP nics ip = NICIPPool.DeviceNumber (snd p).
Proof.
  induction nics as [| [id nic] rest IH]; intros (p & Hp & Hc); [destruct Hp|].
  cbn [nicIndexByIP].
  destruct (existsb (fun i => (i =? ip)%string) (NICIPPool.IPv4Addresses nic)) eqn:Hex.
  - apply existsb_eqb_In in Hex. exists [], (id, nic), rest.
    repeat split; [exact Hex | intros q []].
  - assert (Hno : ~ In ip (NICIPPool.IPv4Addresses nic)).
    { intros Hin. apply existsb_eqb_In in Hin. rewrite Hin in Hex. discriminate. }
    destruct Hp as [<- | Hp]; [contradiction|].
    destruct IH as (pre & p' & post & -> & Hc' & Hpre & Hidx); [eauto|].
    exists ((id, nic) :: pre), p', post. repeat split; try assumption.
    intros q [<- | Hq]; [exact Hno | apply Hpre; exact Hq].
Qed.

Section Properties.
Variable K : Type.
Variable k8s : K8sHelper.t K.
Variable qc : QingCloudAPI K.
Variable networkClient : NetworkAPIs K.
Variable dataStore : DataStore K.
Variable os : OS K.
Variable Error : error -> string.
Variable DuplicatedNICError : string.
Variable IPNet_String : IPNet.t -> string.
Variable ParseIP : string -> net_IP.
Variable GetVPNNet : string -> string.

Local Abbreviation state := (Ipam.state K).

(** Projections of the receiver after a run of setters. *)
Ltac ipam_simpl :=
  cbn [self kernel trace fst snd
       InstanceID NodeName primaryNic vxnet vpc extraTags clusterName disableLabel
       poolSize maxPoolSize supportVPNTraffic vethPrefix
       set_InstanceID set_primaryNic set_vxnet set_vpc set_extraTags
       set_clusterName set_vethPrefix].

Ltac wp_go :=
  repeat (ipam_simpl;
          first
            [ wp_step
            | match goal with
              | |- match ?x with _ => _ end => destruct x eqn:?
              | |- wp (if ?b then _ else _) _ _ => destruct b eqn:?
              | |- wp (match ?x with _ => _ end) _ _ => destruct x eqn:?
              end ]).

Ltac kind_list :=
  repeat first [ apply Forall_nil | apply Forall_cons ]; try reflexivity.

(** X7.  [getNicIndexByIP] reads the pools of the datastore once and
    answers with the device number of the first pool, in the order the
    pools are visited, that carries the address; -1 when no pool carries
    it.  An answer other than -1 is the device number of a pool that
    carries the address. *)
Theorem getNicIndexByIP_finds_carrier (ip : string) (st : state) :
  let infos := fst (GetNICInfos dataStore (kernel st)) in
  let out := getNicIndexByIP dataStore ip st in
  let carries (p : string * NICIPPool.t) :=
    In ip (NICIPPool.IPv4Addresses (snd p)) in
  trace (snd out) = trace st ++ [EvGetNICInfos infos] /\
  self (snd out) = self st /\
  ((forall p, In p (NICIPPools infos) -> ~ carries p) -> fst out = Return (-1)) /\
  ((exists p, In p (NICIPPools infos) /\ carries p) ->
   exists pre p post,
     NICIPPools infos = pre ++ p :: post /\
     carries p /\
     (forall q, In q pre -> ~ carries q) /\
     fst out = Return (NICIPPool.DeviceNumber (snd p))) /\
  (forall d,
      fst out = Return d -> d <> -1 ->
      exists p, In p (NICIPPools infos) /\ carries p /\
                NICIPPool.DeviceNumber (snd p) = d).
Proof.
  intros infos out carries.
  assert (Hout : out =
            (Return (nicIndexByIP (NICIPPools infos) ip),
             {| kernel := snd (GetNICInfos dataStore (kernel st));
                trace := trace st ++ [EvGetNICInfos infos];
                self := self st |})).
  { subst out infos. unfold getNicIndexByIP, bind, call, ret.
    destruct (GetNICInfos dataStore (kernel st)) as [i k']. reflexivity. }
  rewrite Hout. cbn [fst snd trace self].
  split; [reflexivity|]. split; [reflexivity|]. split; [|split].
  - intros Hno. f_equal. apply nicIndexByIP_absent. exact Hno.
  - intros Hsome. destruct (nicIndexByIP_first _ _ Hsome)
      as (pre & p & post & E & Hc & Hpre & Hidx).
    exists pre, p, post. repeat split; try assumption. f_equal. exact Hidx.
  - intros d Hd Hne. injection Hd as Hd.
    assert (Hsome : exists p, In p (NICIPPools infos) /\ carries p).
    { destruct (List.existsb
                  (fun p => existsb (fun i => (i =? ip)%string)
                                    (NICIPPool.IPv4Addresses (snd p)))
                  (NICIPPools infos)) eqn:Hex.
      - apply existsb_exists in Hex. destruct Hex as (p & Hp & Hc).
        exists p. split; [exact Hp|]. apply existsb_eqb_In. exact Hc.
      - exfalso. apply Hne. rewrite <- Hd. apply nicIndexByIP_absent.
        intros p Hp Hc. apply existsb_eqb_In in Hc.
        rewrite <- Bool.not_true_iff_false in Hex. apply Hex.
        apply existsb_exists. exists p. auto. }
    destruct (nicIndexByIP_first _ _ Hsome) as (pre & p & post & E & Hc & _ & Hidx).
    exists p. split; [rewrite E; apply in_or_app; right; left; reflexivity|].
    split; [exact Hc|]. rewrite <- Hd. symmetry. exact Hidx.
Qed.

(** [parseEnv] as a function of the environment. *)
Lemma parseEnv_result (st : state) :
  parseEnv os st =
    (Return tt,
     {| kernel := kernel st;
        trace := trace st;
        self :=
          set_vethPrefix (prefixOf os (kernel st))
            (set_clusterName (clusterOf os (kernel st))
               (set_extraTags (tagsOf os (kernel st) (extraTags (self st)))
                  (self st))) |}).
Proof.
  unfold parseEnv, prefixOf, clusterOf, tagsOf, envOf, bind, Getenv, modify_self,
    get_self, ret.
  unfold set_vethPrefix, set_clusterName, set_extraTags. cbn.
  repeat match goal with
         | |- context [String.eqb ?a ?b] => destruct (String.eqb a b); cbn
         end;
    reflexivity.
Qed.

(** X8.  After [parseEnv] neither the cluster name nor the veth prefix is
    empty, and running [parseEnv] again changes nothing. *)
Theorem parseEnv_settles (st : state) :
  let out := parseEnv os st in
  clusterName (self (snd out)) <> "" /\
  vethPrefix (self (snd out)) <> "" /\
  parseEnv os (snd out) = (Return tt, snd out).
Proof.
  intros out. subst out. rewrite !parseEnv_result. cbn [snd self kernel trace].
  split; [|split].
  - cbn. unfold clusterOf.
    destruct (envOf os (kernel st) envClusterName =? "")%string eqn:Hc;
      [discriminate | apply String.eqb_neq; exact Hc].
  - cbn. unfold prefixOf.
    destruct (envOf os (kernel st) envVethPrefix =? "")%string eqn:Hp;
      [discriminate | apply String.eqb_neq; exact Hp].
  - f_equal. f_equal. unfold set_vethPrefix, set_clusterName, set_extraTags. cbn.
    f_equal. unfold tagsOf.
    destruct (envOf os (kernel st) envExtraTags =? "")%string; reflexivity.
Qed.

(** X9.  When HOSTNIC_EXTRA_TAGS is not empty, the extra tags [parseEnv]
    leaves in the receiver are its pieces between commas: joined with
    commas they give the value back, none of them holds a comma, and
    there is one more of them than there are commas in the value (so at
    least one, and empty pieces are kept). *)
Theorem parseEnv_tags_round_trip (st : state) :
  let value := envOf os (kernel st) "HOSTNIC_EXTRA_TAGS" in
  let tags := extraTags (self (snd (parseEnv os st))) in
  value <> "" ->
  String.concat "," tags = value /\
  Forall (fun tag => occurrences "," tag = O) tags /\
  List.length tags = S (occurrences "," value).
Proof.
  intros value tags Hne.
  pose proof (IpamFacts.parseEnv_self os st) as H. unfold wp in H.
  destruct H as (_ & _ & _ & _ & _ & _ & _ & _ & Htags & _).
  fold tags in Htags. fold value in Htags.
  change envExtraTags with "HOSTNIC_EXTRA_TAGS" in Htags. fold value in Htags.
  apply String.eqb_neq in Hne. rewrite Hne in Htags. rewrite Htags.
  split; [apply Split_concat|]. split; [apply Split_pieces | apply Split_length].
Qed.

(** X10.  [setupNic] returns nil exactly when no answer was fatal, where
    a link that is not found for a NIC without a device number, an error
    of [AddNIC] whose text is not the duplicate-NIC one, and an error of
    [SetupNICNetwork] are fatal, and nothing else is.  It stops at the
    first fatal answer.  A run that returns nil has made exactly these
    calls: the lookup of the link when the NIC comes without a device
    number; the registration of the NIC, answered with nil or with the
    duplicate-NIC error; and, unless the NIC is the primary one, the
    setting up of its networking, answered with nil, followed by the
    addition of its address to the pool, whatever the answer.  So a NIC
    that is already in the datastore goes on to be set up, and no error of
    [AddIPv4AddressFromStore] is ever returned.  The only other way out is
    the nil pointer of a receiver without a vxnet, for a NIC that is not
    the primary one. *)
Theorem setupNic_fatal_answers (nic : HostNic.t) (st : state) :
  let out :=
    setupNic networkClient dataStore os Error DuplicatedNICError IPNet_String
      nic st in
  exists tr,
    trace (snd out) = trace st ++ tr /\
    self (snd out) = self st /\
    Forall (fun ev => fatal_in_setupNic Error DuplicatedNICError ev = false)
           (removelast tr) /\
    match fst out with
    | Panic _ => vxnet (self st) = None /\ HostNic.IsPrimary nic = false
    | Return _ =>
        forallb (fun ev => negb (fatal_in_setupNic Error DuplicatedNICError ev)) tr
          = true
    | Raise _ =>
        forallb (fun ev => negb (fatal_in_setupNic Error DuplicatedNICError ev)) tr
          = false
    end /\
    (fst out = Return tt ->
     exists lookup dev e tail,
       (if HostNic.DeviceNumber nic <=? 0 then
          exists link,
            lookup = [EvLinkByMacAddr (HostNic.HardwareAddr nic) (Ok link)] /\
            dev = LinkAttrs.Index (Attrs link)
        else lookup = [] /\ dev = HostNic.DeviceNumber nic) /\
       tr = lookup
              ++ EvAddNIC (HostNic.ID nic) dev (HostNic.IsPrimary nic) e :: tail /\
       match e with
       | None => True
       | Some err => Error err = DuplicatedNICError
       end /\
       if HostNic.IsPrimary nic then tail = []
       else
         exists vx e3,
           vxnet (self st) = Some vx /\
           tail = [ EvSetupNICNetwork (HostNic.Address nic) (HostNic.HardwareAddr nic)
                      dev (IPNet_String (VxNet.Network vx)) None;
                    EvAddIPv4AddressFromStore (HostNic.ID nic) (HostNic.Address nic)
                      e3 ]).
Proof.
  intros out. subst out.
  change (wp (setupNic networkClient dataStore os Error DuplicatedNICError
                IPNet_String nic) st
            (fun r st' =>
               exists tr,
                 trace st' = trace st ++ tr /\
                 self st' = self st /\
                 Forall (fun ev => fatal_in_setupNic Error DuplicatedNICError ev = false)
                        (removelast tr) /\
                 match r with
                 | Panic _ => vxnet (self st) = None /\ HostNic.IsPrimary nic = false
                 | Return _ =>
                     forallb (fun ev =>
                                negb (fatal_in_setupNic Error DuplicatedNICError ev))
                             tr = true
                 | Raise _ =>
                     forallb (fun ev =>
                                negb (fatal_in_setupNic Error DuplicatedNICError ev))
                             tr = false
                 end /\
                 (r = Return tt ->
                  exists lookup dev e tail,
                    (if HostNic.DeviceNumber nic <=? 0 then
                       exists link,
                         lookup = [EvLinkByMacAddr (HostNic.HardwareAddr nic) (Ok link)] /\
                         dev = LinkAttrs.Index (Attrs link)
                     else lookup = [] /\ dev = HostNic.DeviceNumber nic) /\
                    tr = lookup
                           ++ EvAddNIC (HostNic.ID nic) dev (HostNic.IsPrimary nic) e
                           :: tail /\
                    match e with
                    | None => True
                    | Some err => Error err = DuplicatedNICError
                    end /\
                    if HostNic.IsPrimary nic then tail = []
                    else
                      exists vx e3,
                        vxnet (self st) = Some vx /\
                        tail = [ EvSetupNICNetwork (HostNic.Address nic)
                                   (HostNic.HardwareAddr nic) dev
                                   (IPNet_String (VxNet.Network vx)) None;
                                 EvAddIPv4AddressFromStore (HostNic.ID nic)
                                   (HostNic.Address nic) e3 ]))).
  unfold setupNic. wp_go; emitted.
  all: split; [reflexivity|].
  all: cbn [removelast forallb fatal_in_setupNic is_ok HostNic.ID HostNic.Address
            HostNic.HardwareAddr HostNic.DeviceNumber HostNic.IsPrimary
            HostNic.set_DeviceNumber] in *.
  all: split; [kind_list; assumption|].
  all: split;
    [ repeat match goal with
             | H : negb (_ =? _)%string = _ |- _ => rewrite H
             end;
      cbn [negb andb];
      first [ reflexivity
            | split; [reflexivity
                     | destruct (HostNic.IsPrimary nic); [discriminate | reflexivity]] ]
    | ].
  all: try discriminate.
  all: intros _.
  all: repeat match goal with
              | H : negb (HostNic.IsPrimary _) = true |- _ =>
                  apply negb_true_iff in H
              | H : negb (HostNic.IsPrimary _) = false |- _ =>
                  apply negb_false_iff in H
              | H : negb (_ =? _)%string = false |- _ =>
                  apply negb_false_iff in H; apply String.eqb_eq in H
              end.
  all: do 4 eexists.
  all: repeat match goal with
              | H : (HostNic.DeviceNumber _ <=? 0) = _ |- _ => rewrite H
              | H : HostNic.IsPrimary _ = _ |- _ => rewrite H
              end.
  all: (split; [first [ eexists; split; reflexivity | split; reflexivity ]|]).
  all: (split; [cbn [app]; reflexivity|]).
  all: (split; [first [exact I | assumption]|]).
  all: first [ reflexivity | do 2 eexists; split; reflexivity ].
Qed.

(** X11.  The calls of [setupNic] are on the NIC it is handed.  The link
    is looked up by the hardware address only when the NIC comes without a
    device number, and then the index of the link found is the device
    number the NIC is registered with; otherwise the NIC is registered
    with its own.  Networking is set up only for a NIC that is not the
    primary one, with the device number it was registered with and the
    subnet of the vxnet of the receiver, and its address is added to the
    pool only after that succeeded: the primary NIC is registered and
    nothing else. *)
Theorem setupNic_calls (nic : HostNic.t) (st : state) :
  let out :=
    setupNic networkClient dataStore os Error DuplicatedNICError IPNet_String
      nic st in
  exists tr,
    trace (snd out) = trace st ++ tr /\
    forall ev,
      In ev tr ->
      match ev with
      | EvLinkByMacAddr mac _ =>
          mac = HostNic.HardwareAddr nic /\ HostNic.DeviceNumber nic <= 0
      | EvAddNIC id dev isPrimary _ =>
          id = HostNic.ID nic /\ isPrimary = HostNic.IsPrimary nic /\
          (0 < HostNic.DeviceNumber nic -> dev = HostNic.DeviceNumber nic) /\
          (HostNic.DeviceNumber nic <= 0 ->
           exists link,
             In (EvLinkByMacAddr (HostNic.HardwareAddr nic) (Ok link)) tr /\
             dev = LinkAttrs.Index (Attrs link))
      | EvSetupNICNetwork address mac dev subnet _ =>
          HostNic.IsPrimary nic = false /\
          address = HostNic.Address nic /\ mac = HostNic.HardwareAddr nic /\
          (exists e, In (EvAddNIC (HostNic.ID nic) dev false e) tr) /\
          exists vx, vxnet (self st) = Some vx /\
                     subnet = IPNet_String (VxNet.Network vx)
      | EvAddIPv4AddressFromStore id address _ =>
          HostNic.IsPrimary nic = false /\
          id = HostNic.ID nic /\ address = HostNic.Address nic /\
          exists dev subnet,
            In (EvSetupNICNetwork (HostNic.Address nic) (HostNic.HardwareAddr nic)
                  dev subnet None) tr
      | _ => False
      end.
Proof.
  intros out. subst out.
  change (wp (setupNic networkClient dataStore os Error DuplicatedNICError
                IPNet_String nic) st
            (fun r st' =>
               exists tr,
                 trace st' = trace st ++ tr /\
                 forall ev,
                   In ev tr ->
                   match ev with
                   | EvLinkByMacAddr mac _ =>
                       mac = HostNic.HardwareAddr nic /\ HostNic.DeviceNumber nic <= 0
                   | EvAddNIC id dev isPrimary _ =>
                       id = HostNic.ID nic /\ isPrimary = HostNic.IsPrimary nic /\
                       (0 < HostNic.DeviceNumber nic ->
                        dev = HostNic.DeviceNumber nic) /\
                       (HostNic.DeviceNumber nic <= 0 ->
                        exists link,
                          In (EvLinkByMacAddr (HostNic.HardwareAddr nic) (Ok link)) tr /\
                          dev = LinkAttrs.Index (Attrs link))
                   | EvSetupNICNetwork address mac dev subnet _ =>
                       HostNic.IsPrimary nic = false /\
                       address = HostNic.Address nic /\
                       mac = HostNic.HardwareAddr nic /\
                       (exists e, In (EvAddNIC (HostNic.ID nic) dev false e) tr) /\
                       exists vx, vxnet (self st) = Some vx /\
                                  subnet = IPNet_String (VxNet.Network vx)
                   | EvAddIPv4AddressFromStore id address _ =>
                       HostNic.IsPrimary nic = false /\
                       id = HostNic.ID nic /\ address = HostNic.Address nic /\
                       exists dev subnet,
                         In (EvSetupNICNetwork (HostNic.Address nic)
                               (HostNic.HardwareAddr nic) dev subnet None) tr
                   | _ => False
                   end)).
  unfold setupNic. wp_go; emitted.
  all: cbn [HostNic.ID HostNic.Address HostNic.HardwareAddr HostNic.DeviceNumber
            HostNic.IsPrimary HostNic.set_DeviceNumber] in *.
  all: repeat match goal with
              | H : (_ <=? _) = true |- _ => apply Z.leb_le in H
              | H : (_ <=? _) = false |- _ => apply Z.leb_gt in H
              | H : negb (HostNic.IsPrimary _) = true |- _ =>
                  apply negb_true_iff in H; rewrite H in *
              | H : negb (HostNic.IsPrimary _) = false |- _ =>
                  apply negb_false_iff in H
              end.
  all: intros ev Hin; cbn [In] in Hin.
  all: repeat (destruct Hin as [<- | Hin]); try contradiction.
  all: repeat split; try assumption; try lia; intros;
    try solve [ lia
              | eexists; split; [left; reflexivity | reflexivity]
              | eexists; left; reflexivity
              | eexists; right; left; reflexivity
              | eexists; split; reflexivity
              | do 2 eexists; left; reflexivity
              | do 2 eexists; right; left; reflexivity
              | do 2 eexists; right; right; left; reflexivity ].
Qed.

(** ** Recovery, pod by pod *)

Lemma recoverPod_calls (rules : list Rule.t) (pod : K8SPodInfo.t) (v : VPC.t)
    (st : state) :
  vpc (self st) = Some v ->
  wp (recoverPod networkClient dataStore IPNet_String ParseIP GetVPNNet rules pod) st
     (fun r st' =>
        r = Return tt /\ self st' = self st /\
        exists tr,
          trace st' = trace st ++ tr /\
          recoverCalls IPNet_String ParseIP GetVPNNet rules v pod tr).
Proof.
  intros Hv. unfold recoverPod, vpcSubnets, getNicIndexByIP, recoverCalls.
  wp_go.
  all: try (rewrite Hv in *; discriminate).
  all: split; [reflexivity|]; split; [reflexivity|]; emitted.
  all: try reflexivity.
  all: assert (Hvt : v = t) by congruence; subst t.
  - do 2 eexists. left. split; [reflexivity|]. apply Z.eqb_eq. assumption.
  - do 2 eexists. right. do 2 eexists. split; [reflexivity|].
    apply Z.eqb_neq. assumption.
Qed.

Lemma recoverPods_calls (rules : list Rule.t) (v : VPC.t)
    (pods : list K8SPodInfo.t) :
  forall st : state,
    vpc (self st) = Some v ->
    wp (recoverPods networkClient dataStore IPNet_String ParseIP GetVPNNet rules pods)
       st
       (fun r st' =>
          r = Return tt /\ self st' = self st /\
          exists trs,
            trace st' = trace st ++ List.concat trs /\
            Forall2 (recoverCalls IPNet_String ParseIP GetVPNNet rules v) pods trs).
Proof.
  induction pods as [| pod rest IH]; intros st Hv; cbn [recoverPods].
  - wp_step. split; [reflexivity|]. split; [reflexivity|]. exists [].
    split; [symmetry; apply app_nil_r | constructor].
  - apply wp_bind. eapply wp_mono; [apply recoverPod_calls; exact Hv|].
    intros r st1 (-> & S1 & tr1 & E1 & C1).
    eapply wp_mono; [apply IH; rewrite S1; exact Hv|].
    intros r st2 (-> & S2 & trs & E2 & C2).
    split; [reflexivity|]. split; [congruence|]. exists (tr1 :: trs).
    split; [cbn [List.concat]; rewrite E2, E1, app_assoc; reflexivity|].
    constructor; assumption.
Qed.

Lemma recoverCalls_recovery (rules : list Rule.t) (v : VPC.t) (pod : K8SPodInfo.t)
    (tr : list event) :
  recoverCalls IPNet_String ParseIP GetVPNNet rules v pod tr ->
  Forall (fun ev => is_recovery ev = true) tr.
Proof.
  unfold recoverCalls. destruct (K8SPodInfo.IP pod =? "")%string.
  - intros ->. constructor.
  - intros (r & infos & [(-> & _) | (snat & e & -> & _)]); kind_list.
Qed.

Lemma recoverCalls_all_recovery (rules : list Rule.t) (v : VPC.t)
    (pods : list K8SPodInfo.t) (trs : list (list event)) :
  Forall2 (recoverCalls IPNet_String ParseIP GetVPNNet rules v) pods trs ->
  Forall (fun ev => is_recovery ev = true) (List.concat trs).
Proof.
  induction 1 as [| pod tr pods trs H _ IH]; [constructor|].
  cbn [List.concat]. apply Forall_app. split; [|exact IH].
  eapply recoverCalls_recovery. exact H.
Qed.

Lemma prepareLocalPods_shape (pods : list K8SPodInfo.t) (v : VPC.t) (st : state) :
  vpc (self st) = Some v ->
  wp (prepareLocalPods networkClient dataStore IPNet_String ParseIP GetVPNNet pods) st
     (fun r st' =>
        r = Return tt /\ self st' = self st /\
        exists rl rest,
          trace st' = trace st ++ EvGetRuleList rl :: rest /\
          rl = fst (GetRuleList networkClient (kernel st)) /\
          match rl with
          | Err _ => rest = []
          | Ok rules =>
              exists trs,
                rest = List.concat trs /\
                Forall2 (recoverCalls IPNet_String ParseIP GetVPNNet rules v) pods trs
          end).
Proof.
  intros Hv. unfold prepareLocalPods. apply wp_bind. apply wp_call_exact.
  destruct (fst (GetRuleList networkClient (kernel st))) as [rules | e].
  - apply wp_bind. eapply wp_mono; [apply recoverPods_calls; exact Hv|].
    intros r st1 (-> & S1 & trs & E1 & C1). cbn [self trace] in S1, E1.
    wp_step. split; [reflexivity|]. split; [exact S1|].
    exists (Ok rules), (List.concat trs).
    split; [rewrite E1, <- app_assoc; reflexivity|]. split; [reflexivity|]. eauto.
  - wp_step. split; [reflexivity|]. split; [reflexivity|].
    exists (Err e), []. repeat split.
Qed.

(** X12.  With [s.vpc] set, [prepareLocalPods] reads the rule list and
    then recovers the pods one by one, in the order it was handed them,
    and returns nil with the receiver as it was.  A pod without an
    address costs no call.  For any other pod the datastore is asked to
    assign its address, then read for the NIC that carries it; when none
    does the pod is left at that; otherwise the SNAT setting is read and
    the rules of the pod are updated, from the rule list read at the
    start, for the /32 of the pod, with the subnets of the VPC followed by
    the VPN net of the pod, SNAT required exactly when external SNAT is
    not used, and the device number of the carrying NIC as table. *)
Theorem prepareLocalPods_pod_by_pod (pods : list K8SPodInfo.t) (v : VPC.t)
    (st : state) :
  let out :=
    prepareLocalPods networkClient dataStore IPNet_String ParseIP GetVPNNet pods st in
  vpc (self st) = Some v ->
  fst out = Return tt /\
  self (snd out) = self st /\
  match fst (GetRuleList networkClient (kernel st)) with
  | Err e => trace (snd out) = trace st ++ [EvGetRuleList (Err e)]
  | Ok rules =>
      exists trs,
        trace (snd out) = trace st ++ EvGetRuleList (Ok rules) :: List.concat trs /\
        Forall2
          (fun pod tr =>
             if (K8SPodInfo.IP pod =? "")%string then tr = []
             else
               exists r infos,
                 let table := nicIndexByIP (NICIPPools infos) (K8SPodInfo.IP pod) in
                 (tr = [EvAssignPodIPv4Address pod r; EvGetNICInfos infos] /\
                  table = -1) \/
                 (exists snat e,
                     tr = [ EvAssignPodIPv4Address pod r;
                            EvGetNICInfos infos;
                            EvUseExternalSNAT snat;
                            EvUpdateRuleListBySrc rules
                              (IPNet.mk (ParseIP (K8SPodInfo.IP pod))
                                        [255; 255; 255; 255])
                              (map (fun vxnet => IPNet_String (VxNet.Network vxnet))
                                   (VPC.VxNets v)
                               ++ [GetVPNNet (K8SPodInfo.IP pod)])
                              (negb snat) table e ] /\
                     table <> -1))
          pods trs
  end.
Proof.
  intros out Hv. subst out.
  pose proof (prepareLocalPods_shape pods st Hv) as H. unfold wp in H.
  destruct H as (Hr & Hs & rl & rest & E & -> & Hrest).
  split; [exact Hr|]. split; [exact Hs|].
  destruct (fst (GetRuleList networkClient (kernel st))) as [rules | e].
  - destruct Hrest as (trs & -> & F). exists trs. split; [exact E | exact F].
  - subst rest. exact E.
Qed.

(** ** The NICs, one by one *)

Lemma setupNic_about (nic : HostNic.t) (st : state) :
  wp (setupNic networkClient dataStore os Error DuplicatedNICError IPNet_String nic) st
     (fun r st' =>
        self st' = self st /\
        exists tr,
          trace st' = trace st ++ tr /\
          tr <> [] /\
          Forall (about_nic nic) tr /\
          (r = Return tt ->
           forallb (fun ev => negb (fatal_in_setupNic Error DuplicatedNICError ev)) tr
             = true)).
Proof.
  unfold setupNic. wp_go; (split; [reflexivity|]); emitted;
    (split; [discriminate|]);
    (split; [repeat first [ apply Forall_nil | apply Forall_cons ];
             cbn; auto|]);
    try discriminate; intros _;
    cbn [forallb fatal_in_setupNic is_ok];
    repeat match goal with
           | H : negb (_ =? _)%string = _ |- _ => rewrite H
           end;
    reflexivity.
Qed.

Lemma setupNics_runs (nics : list HostNic.t) :
  forall st : state,
    wp (setupNics networkClient dataStore os Error DuplicatedNICError IPNet_String nics)
       st
       (fun r st' =>
          self st' = self st /\
          exists trs,
            trace st' = trace st ++ List.concat trs /\
            (List.length trs <= List.length nics)%nat /\
            Forall2 (fun nic tr => tr <> [] /\ Forall (about_nic nic) tr)
                    (firstn (List.length trs) nics) trs /\
            Forall (fun tr =>
                      forallb (fun ev =>
                                 negb (fatal_in_setupNic Error DuplicatedNICError ev))
                              tr = true)
                   (removelast trs) /\
            (r = Return tt ->
             List.length trs = List.length nics /\
             Forall (fun tr =>
                       forallb (fun ev =>
                                  negb (fatal_in_setupNic Error DuplicatedNICError ev))
                               tr = true)
                    trs)).
Proof.
  induction nics as [| nic rest IH]; intros st; cbn [setupNics].
  - wp_step. split; [reflexivity|]. exists [].
    split; [symmetry; apply app_nil_r|]. split; [apply Nat.le_refl|].
    split; [constructor|]. split; [constructor|]. intros _. split; [reflexivity|].
    constructor.
  - apply wp_bind. eapply wp_mono; [apply setupNic_about|].
    intros r1 st1 (S1 & tr1 & E1 & N1 & A1 & R1).
    assert (Hstop : forall x : exit unit,
               x <> Return tt ->
               self st1 = self st /\
               exists trs,
                 trace st1 = trace st ++ List.concat trs /\
                 (List.length trs <= List.length (nic :: rest))%nat /\
                 Forall2 (fun nic tr => tr <> [] /\ Forall (about_nic nic) tr)
                         (firstn (List.length trs) (nic :: rest)) trs /\
                 Forall (fun tr =>
                           forallb (fun ev =>
                                      negb (fatal_in_setupNic Error
                                              DuplicatedNICError ev))
                                   tr = true)
                        (removelast trs) /\
                 (x = Return tt ->
                  List.length trs = List.length (nic :: rest) /\
                  Forall (fun tr =>
                            forallb (fun ev =>
                                       negb (fatal_in_setupNic Error
                                               DuplicatedNICError ev))
                                    tr = true)
                         trs)).
    { intros x Hx. split; [exact S1|]. exists [tr1].
      split; [cbn [List.concat]; rewrite app_nil_r; exact E1|].
      split; [cbn [List.length]; apply le_n_S, Nat.le_0_l|].
      split; [repeat constructor; assumption|].
      split; [constructor|]. intros H. contradiction (Hx H). }
    destruct r1 as [[] | e | msg]; [|apply Hstop; discriminate ..].
    eapply wp_mono; [apply IH|].
    intros r st2 (S2 & trs & E2 & L2 & A2 & F2 & R2).
    split; [congruence|]. exists (tr1 :: trs).
    split; [cbn [List.concat]; rewrite E2, E1, app_assoc; reflexivity|].
    split; [cbn [List.length]; apply le_n_S; exact L2|].
    split; [cbn [List.length firstn]; constructor; [split; assumption | exact A2]|].
    split.
    + destruct trs as [| tr2 trs]; [constructor|].
      change (removelast (tr1 :: tr2 :: trs)) with (tr1 :: removelast (tr2 :: trs)).
      constructor; [apply R1; reflexivity | exact F2].
    + intros Hr. destruct (R2 Hr) as (Hlen & Hall).
      split; [cbn [List.length]; rewrite Hlen; reflexivity|].
      constructor; [apply R1; reflexivity | exact Hall].
Qed.

(** X13.  The loop of [setup] over the attached NICs sets them up one by
    one, in the order of the list, and stops at the first NIC whose
    setting up does not return nil: the calls are those of a first part
    of the list, NIC after NIC, each NIC costs at least one call, every
    call is on the NIC of its turn, and only the calls of the last NIC
    reached may hold a fatal answer.  The loop returns nil only after the
    whole list, with no fatal answer at all.  The receiver is left as it
    was. *)
Theorem setupNics_one_by_one (attachedNICs : list HostNic.t) (st : state) :
  let out :=
    setupNics networkClient dataStore os Error DuplicatedNICError IPNet_String
      attachedNICs st in
  self (snd out) = self st /\
  exists trs,
    trace (snd out) = trace st ++ List.concat trs /\
    (List.length trs <= List.length attachedNICs)%nat /\
    Forall2 (fun nic tr => tr <> [] /\ Forall (about_nic nic) tr)
            (firstn (List.length trs) attachedNICs) trs /\
    Forall (fun tr =>
              forallb (fun ev => negb (fatal_in_setupNic Error DuplicatedNICError ev))
                      tr = true)
           (removelast trs) /\
    (fst out = Return tt ->
     List.length trs = List.length attachedNICs /\
     Forall (fun tr =>
               forallb (fun ev => negb (fatal_in_setupNic Error DuplicatedNICError ev))
                       tr = true)
            trs).
Proof.
  intros out. subst out. exact (setupNics_runs attachedNICs st).
Qed.

(** ** The phases of the bootstrap *)

Lemma parseEnv_wp (st : state) :
  wp (parseEnv os) st
     (fun r st' =>
        r = Return tt /\
        st' = {| kernel := kernel st;
                 trace := trace st;
                 self :=
                   set_vethPrefix (prefixOf os (kernel st))
                     (set_clusterName (clusterOf os (kernel st))
                        (set_extraTags (tagsOf os (kernel st) (extraTags (self st)))
                           (self st))) |}).
Proof. unfold wp. rewrite parseEnv_result. split; reflexivity. Qed.

Lemma setupNic_kinds (nic : HostNic.t) (st : state) :
  wp (setupNic networkClient dataStore os Error DuplicatedNICError IPNet_String nic) st
     (fun _ st' => calm (fun ev => is_nic_event ev = true) st st').
Proof.
  unfold setupNic. wp_go; (split; [reflexivity | emitted; kind_list]).
Qed.

Lemma setupNics_kinds (nics : list HostNic.t) :
  forall st : state,
    wp (setupNics networkClient dataStore os Error DuplicatedNICError IPNet_String nics)
       st
       (fun _ st' => calm (fun ev => is_nic_event ev = true) st st').
Proof.
  induction nics as [| nic rest IH]; intros st; cbn [setupNics].
  - wp_step. apply IpamFacts.calm_refl.
  - apply wp_bind. eapply wp_mono; [apply setupNic_kinds|].
    intros r st1 C1. destruct r as [[] | e | msg]; auto.
    eapply wp_mono; [apply IH|].
    intros r st2 C2. eapply IpamFacts.calm_trans; eassumption.
Qed.

(** A leaf of a symbolic execution: the error returned is the answer to
    the last call listed, handed on. *)
Ltac last_handed_on :=
  lazymatch goal with
  | |- exists pre ev e0, _ ++ ?L = _ ++ _ ++ _ /\ _ =>
      exists (removelast L), (last L EvGoServe)
  | |- exists pre ev e0, ?L = _ /\ _ =>
      exists (removelast L), (last L EvGoServe)
  end;
  eexists;
  (split; [reflexivity|]); (split; [reflexivity|]);
  first [ left; reflexivity
        | right; left; do 2 eexists; reflexivity
        | right; right; eexists; reflexivity ].

(** [setupNic] fails only right after a failed call, with the error of
    that call handed on; it panics only for want of a vxnet. *)
Lemma setupNic_failure (nic : HostNic.t) (st : state) :
  wp (setupNic networkClient dataStore os Error DuplicatedNICError IPNet_String nic) st
     (fun r st' =>
        match r with
        | Return _ => True
        | Raise e =>
            exists pre ev e0,
              trace st' = trace st ++ pre ++ [ev] /\
              error_of ev = Some e0 /\ handed_on e0 e
        | Panic _ => vxnet (self st) = None
        end).
Proof.
  unfold setupNic. wp_go; try exact I; try reflexivity; trace_norm;
    last_handed_on.
Qed.

Lemma setupNics_failure (nics : list HostNic.t) :
  forall st : state,
    wp (setupNics networkClient dataStore os Error DuplicatedNICError IPNet_String nics)
       st
       (fun r st' =>
          match r with
          | Return _ => True
          | Raise e =>
              exists pre ev e0,
                trace st' = trace st ++ pre ++ [ev] /\
                error_of ev = Some e0 /\ handed_on e0 e
          | Panic _ => vxnet (self st) = None
          end).
Proof.
  induction nics as [| nic rest IH]; intros st; cbn [setupNics].
  - wp_step. exact I.
  - apply wp_bind.
    eapply wp_mono; [apply wp_conj; [apply setupNic_kinds | apply setupNic_failure]|].
    intros r1 st1 ((S1 & tr1 & E1 & _) & H1).
    destruct r1 as [[] | e | msg]; [|exact H1 ..].
    eapply wp_mono; [apply IH|].
    intros r st2 H2. destruct r as [[] | e | msg]; [exact I | |].
    + destruct H2 as (pre & ev & e0 & E2 & He & Hh).
      exists (tr1 ++ pre), ev, e0.
      split; [rewrite E2, E1, <- !app_assoc; reflexivity | auto].
    + rewrite <- S1. exact H2.
Qed.

Lemma fetchPods_listing (st : state) :
  wp (fetchPods k8s) st
     (fun r st' =>
        self st' = self st /\
        exists r0 e,
          trace st' = trace st ++ [EvGetCurrentNodePods r0] /\
          r = Return (listed r0, e)).
Proof.
  unfold fetchPods. wp_go; (split; [reflexivity|]);
    do 2 eexists; (split; [reflexivity|]); reflexivity.
Qed.

Lemma retry_fetchPods_listing (retries : nat) (sleep : Z) :
  forall st : state,
    wp (retry_loop os retries sleep (fetchPods k8s)) st
       (fun r st' =>
          self st' = self st /\
          exists pre r0 e,
            trace st' = trace st ++ pre ++ [EvGetCurrentNodePods r0] /\
            Forall (fun ev => is_listing ev = true) pre /\
            r = Return (listed r0, e)).
Proof.
  induction retries as [| n IH]; intros st; cbn [retry_loop];
    apply wp_bind; (eapply wp_mono; [apply fetchPods_listing|]);
    intros r st1 (S1 & r0 & e & E1 & ->); destruct e as [e |]; cbn [snd].
  - wp_step. split; [exact S1|]. exists [], r0, (Some e). auto.
  - wp_step. split; [exact S1|]. exists [], r0, None. auto.
  - apply wp_bind. apply wp_tell. eapply wp_mono; [apply IH|].
    intros r st2 (S2 & pre & r2 & e2 & E2 & F2 & ->).
    cbn [self trace] in S2, E2.
    split; [congruence|].
    exists (EvGetCurrentNodePods r0 :: EvRetrySleep sleep :: pre), r2, e2.
    split; [rewrite E2, E1, <- !app_assoc; reflexivity|].
    split; [repeat (constructor; [reflexivity|]); exact F2 | reflexivity].
  - wp_step. split; [exact S1|]. exists [], r0, None. auto.
Qed.

(** A leaf of [setup] inside the discovery: explicit calls. *)
Ltac early :=
  ipam_simpl; trace_norm;
  lazymatch goal with
  | |- exists disc nics listing recov, _ ++ ?L = _ /\ _ => exists L, [], [], []
  end;
  (split; [rewrite ?app_nil_r; reflexivity|]);
  (split; [kind_list|]);
  (split; [constructor|]); (split; [constructor|]); (split; [constructor|]);
  (split; [do 2 eexists; reflexivity|]);
  (split; [let H := fresh in intros H; contradiction H; reflexivity|]);
  (split; [let H := fresh in intros H; contradiction H; reflexivity|]);
  (split; [discriminate|]);
  (split; [reflexivity|]); (split; [reflexivity|]);
  (split; [reflexivity|]); (split; [reflexivity|]);
  rewrite ?app_nil_r; last_handed_on.

(** [setup], in every run: the discovery, the NICs, the listing of the
    pods, their recovery. *)
Lemma setup_phases (st : state) :
  wp (setup k8s qc networkClient dataStore os Error DuplicatedNICError IPNet_String
        ParseIP GetVPNNet) st
     (fun r st' =>
        exists disc nics listing recov,
          trace st' = trace st ++ disc ++ nics ++ listing ++ recov /\
          Forall (fun ev => is_discovery ev = true) disc /\
          Forall (fun ev => is_nic_event ev = true) nics /\
          Forall (fun ev => is_listing ev = true) listing /\
          Forall (fun ev => is_recovery ev = true) recov /\
          (exists e0 rest0,
              disc =
                EvNewQingCloudClient
                  (if disableLabel (self st) then None
                   else Some {| ClusterName := clusterOf os (kernel st);
                                ExtraLabels :=
                                  tagsOf os (kernel st) (extraTags (self st)) |})
                  e0 :: rest0) /\
          (nics ++ listing ++ recov <> [] ->
           exists id v vx nic attached,
             disc =
               discoveryCalls IPNet_String ParseIP
                 (if disableLabel (self st) then None
                  else Some {| ClusterName := clusterOf os (kernel st);
                               ExtraLabels :=
                                 tagsOf os (kernel st) (extraTags (self st)) |})
                 id v vx nic attached /\
             InstanceID (self st') = id /\
             vpc (self st') = Some v /\
             vxnet (self st') = Some vx /\
             primaryNic (self st') = Some nic) /\
          (listing <> [] -> r = Return tt) /\
          (r = Return tt ->
           exists pre r0 rl rest v,
             listing = pre ++ [EvGetCurrentNodePods r0] /\
             recov = EvGetRuleList rl :: rest /\
             vpc (self st') = Some v /\
             match rl with
             | Err _ => rest = []
             | Ok rules =>
                 exists trs,
                   rest = List.concat trs /\
                   Forall2 (recoverCalls IPNet_String ParseIP GetVPNNet rules v)
                           (listed r0) trs
             end) /\
          vethPrefix (self st') = prefixOf os (kernel st) /\
          clusterName (self st') = clusterOf os (kernel st) /\
          match r with
          | Return _ => True
          | Raise e =>
              listing = [] /\ recov = [] /\
              exists pre ev e0,
                disc ++ nics = pre ++ [ev] /\
                error_of ev = Some e0 /\ handed_on e0 e
          | Panic _ => False
          end).
Proof.
  unfold setup. apply wp_bind. eapply wp_mono; [apply parseEnv_wp|].
  intros r st1 (-> & ->).
  unfold prepareQingCloudClient, EnsureVxNet, vpcSubnets, retry_Do.
  wp_go.
  all: try solve [early].
  eapply wp_mono; [apply wp_conj; [apply setupNics_kinds | apply setupNics_failure]|].
  intros r st2 ((S2 & tr2 & E2 & F2) & Hfail). cbn [self trace] in S2, E2, Hfail.
  assert (Hlast : match r with
                  | Return _ => True
                  | Raise e =>
                      exists pre ev e0,
                        tr2 = pre ++ [ev] /\ error_of ev = Some e0 /\ handed_on e0 e
                  | Panic _ => False
                  end).
  { destruct r as [[] | e | msg]; [exact I | | cbn in Hfail; discriminate Hfail].
    destruct Hfail as (pre & ev & e0 & Ef & He & Hh).
    rewrite E2 in Ef. apply app_inv_head in Ef. exists pre, ev, e0. auto. }
  clear Hfail.
  set (config := if disableLabel (self st) then None
                 else Some {| ClusterName := clusterOf os (kernel st);
                              ExtraLabels :=
                                tagsOf os (kernel st) (extraTags (self st)) |}) in *.
  assert (Hdisc : exists id v vx nic attached,
             trace st2 =
               trace st
                 ++ discoveryCalls IPNet_String ParseIP config id v vx nic attached
                 ++ tr2 /\
             InstanceID (self st2) = id /\
             vpc (self st2) = Some v /\
             vxnet (self st2) = Some vx /\
             primaryNic (self st2) = Some nic /\
             vethPrefix (self st2) = prefixOf os (kernel st) /\
             clusterName (self st2) = clusterOf os (kernel st)).
  { do 5 eexists.
    split; [rewrite E2; repeat rewrite <- app_assoc; unfold discoveryCalls;
            cbn [app]; reflexivity|].
    rewrite S2. ipam_simpl. repeat split. }
  clear E2 S2.
  destruct Hdisc as (id & v & vx & nic & attached & E2 & Hid & Hvpc & Hvx & Hnic
                     & Hpre & Hcl).
  assert (Fd : Forall (fun ev => is_discovery ev = true)
                 (discoveryCalls IPNet_String ParseIP config id v vx nic attached)).
  { unfold discoveryCalls. kind_list. }
  destruct r as [[] | e | msg].
  2,3: exists (discoveryCalls IPNet_String ParseIP config id v vx nic attached),
         tr2, [], [];
    (split; [rewrite E2, !app_nil_r; reflexivity|]);
    (split; [exact Fd|]); (split; [exact F2|]);
    (split; [constructor|]); (split; [constructor|]);
    (split; [do 2 eexists; reflexivity|]);
    (split; [intros _; exists id, v, vx, nic, attached; repeat split; assumption|]);
    (split; [let H := fresh in intros H; contradiction H; reflexivity|]);
    (split; [discriminate|]); (split; [assumption|]); (split; [assumption|]).
  3: destruct Hlast.
  2: { destruct Hlast as (pre & ev & e0 & -> & He & Hh).
       split; [reflexivity|]. split; [reflexivity|].
       exists (discoveryCalls IPNet_String ParseIP config id v vx nic attached ++ pre),
         ev, e0.
       rewrite <- app_assoc. auto. }
  apply wp_bind. eapply wp_mono; [apply retry_fetchPods_listing|].
  intros r st3 (S3 & pre & r0 & e0 & E3 & F3 & ->). cbn [fst].
  apply wp_bind.
  eapply wp_mono; [eapply prepareLocalPods_shape; rewrite S3; exact Hvpc|].
  intros r st4 (-> & S4 & rl & rest & E4 & _ & Hrest).
  wp_step.
  exists (discoveryCalls IPNet_String ParseIP config id v vx nic attached),
    tr2, (pre ++ [EvGetCurrentNodePods r0]), (EvGetRuleList rl :: rest).
  split; [rewrite E4, E3, E2, <- !app_assoc; reflexivity|].
  split; [exact Fd|]. split; [exact F2|].
  split; [apply Forall_app; split; [exact F3 | kind_list]|].
  split.
  { constructor; [reflexivity|].
    destruct rl as [rules | e].
    - destruct Hrest as (trs & -> & F). eapply recoverCalls_all_recovery. exact F.
    - subst rest. constructor. }
  rewrite S4, S3.
  split; [do 2 eexists; reflexivity|].
  split; [intros _; exists id, v, vx, nic, attached; repeat split; assumption|].
  split; [reflexivity|].
  split; [intros _; exists pre, r0, rl, rest, v; repeat split; assumption|].
  split; [assumption|]. split; [assumption | exact I].
Qed.

(** X14.  [setup] works in strict order, in every run: first the
    discovery of the node in the cloud, then the setting up of the
    attached NICs, then the listing of the pods of the node, then their
    recovery.  A NIC is set up, the pods are listed or recovered only
    after a complete discovery: the cloud client created (with the
    cluster name and the extra tags of the environment as labels, unless
    labels are disabled), the instance id read, the VPC of the node found,
    a vxnet ensured, the primary NIC found, the host network set up with
    the network and the subnets of the VPC and the hardware address and
    the address of the primary NIC, and the NICs attached to the vxnet
    listed, every one of these without an error.  A run that returns nil
    has listed the pods and then read the rule list. *)
Theorem setup_in_strict_order (st : state) :
  let out :=
    setup k8s qc networkClient dataStore os Error DuplicatedNICError IPNet_String
      ParseIP GetVPNNet st in
  exists disc nics listing recov,
    trace (snd out) = trace st ++ disc ++ nics ++ listing ++ recov /\
    Forall (fun ev => is_discovery ev = true) disc /\
    Forall (fun ev => is_nic_event ev = true) nics /\
    Forall (fun ev => is_listing ev = true) listing /\
    Forall (fun ev => is_recovery ev = true) recov /\
    (nics ++ listing ++ recov <> [] ->
     exists id v vx nic attached,
       disc =
         [ EvNewQingCloudClient
             (if disableLabel (self st) then None
              else Some {| ClusterName := clusterOf os (kernel st);
                           ExtraLabels :=
                             tagsOf os (kernel st) (extraTags (self st)) |})
             None;
           EvGetInstanceID id;
           EvGetNodeVPC (Ok v);
           EvEnsureVxNet (Ok vx);
           EvGetPrimaryNIC (Ok nic);
           EvSetupHostNetwork (VPC.Network v)
             (map (fun vxnet => IPNet_String (VxNet.Network vxnet)) (VPC.VxNets v))
             (HostNic.HardwareAddr nic) (ParseIP (HostNic.Address nic)) None;
           EvGetAttachedNICs (VxNet.ID vx) (Ok attached) ]) /\
    (fst out = Return tt ->
     listing <> [] /\ exists rl rest, recov = EvGetRuleList rl :: rest).
Proof.
  intros out. subst out.
  pose proof (setup_phases st) as H. unfold wp in H.
  destruct H as (disc & nics & listing & recov & E & Fd & Fn & Fl & Fr & _ & Hd & _
                 & Hret & _).
  exists disc, nics, listing, recov.
  split; [exact E|]. split; [exact Fd|]. split; [exact Fn|]. split; [exact Fl|].
  split; [exact Fr|]. split.
  - intros Hne. destruct (Hd Hne) as (id & v & vx & nic & attached & -> & _).
    exists id, v, vx, nic, attached. reflexivity.
  - intros Hr. destruct (Hret Hr) as (pre & r0 & rl & rest & v & -> & -> & _).
    split; [destruct pre; discriminate | eauto].
Qed.

(** X15.  Once the pods of the node are being listed, [setup] cannot
    fail: whatever the listing answers (an error at every attempt, pods
    still without an address) and whatever happens in the recovery, nil
    is returned.  After a nil return the receiver holds what the
    discovery found (the instance id, the VPC, the vxnet and the primary
    NIC the cloud answered with) and the cluster name and the veth prefix
    of the environment. *)
Theorem setup_cannot_fail_once_pods_are_listed (st : state) :
  let out :=
    setup k8s qc networkClient dataStore os Error DuplicatedNICError IPNet_String
      ParseIP GetVPNNet st in
  exists tr,
    trace (snd out) = trace st ++ tr /\
    (forall r0, In (EvGetCurrentNodePods r0) tr -> fst out = Return tt) /\
    (fst out = Return tt ->
     exists id v vx nic,
       In (EvGetInstanceID id) tr /\
       In (EvGetNodeVPC (Ok v)) tr /\
       In (EvEnsureVxNet (Ok vx)) tr /\
       In (EvGetPrimaryNIC (Ok nic)) tr /\
       InstanceID (self (snd out)) = id /\
       vpc (self (snd out)) = Some v /\
       vxnet (self (snd out)) = Some vx /\
       primaryNic (self (snd out)) = Some nic /\
       clusterName (self (snd out)) = clusterOf os (kernel st) /\
       vethPrefix (self (snd out)) = prefixOf os (kernel st)).
Proof.
  intros out. subst out.
  pose proof (setup_phases st) as H. unfold wp in H.
  destruct H as (disc & nics & listing & recov & E & Fd & Fn & Fl & Fr & _ & Hd & Hl
                 & Hret & Hp & Hc & _).
  exists (disc ++ nics ++ listing ++ recov). split; [exact E|]. split.
  - intros r0 Hin. apply Hl. intros ->.
    rewrite Forall_forall in Fd, Fn, Fr. cbn [app] in Hin.
    rewrite !in_app_iff in Hin.
    destruct Hin as [Hin | [Hin | Hin]];
      [apply Fd in Hin | apply Fn in Hin | apply Fr in Hin]; discriminate.
  - intros Hr. destruct (Hret Hr) as (pre & r0 & rl & rest & v0 & El & _).
    destruct Hd as (id & v & vx & nic & attached & -> & Hid & Hv & Hvx & Hnic).
    { intros Habs. apply app_eq_nil in Habs. destruct Habs as (_ & Habs).
      apply app_eq_nil in Habs. destruct Habs as (Habs & _).
      rewrite El in Habs. destruct pre; discriminate. }
    exists id, v, vx, nic. unfold discoveryCalls.
    split; [right; left; reflexivity|].
    split; [right; right; left; reflexivity|].
    split; [do 3 right; left; reflexivity|].
    split; [do 4 right; left; reflexivity|].
    repeat split; assumption.
Qed.

(** ** Start *)

Lemma StartIPAMD_bootstrap (st : state) :
  wp (StartIPAMD k8s qc networkClient dataStore os Error DuplicatedNICError
        IPNet_String ParseIP GetVPNNet) st
     (fun r st' =>
        exists tr,
          trace st' = trace st ++ tr /\
          Forall (fun ev => is_bootstrap ev = true) tr /\
          (r = Return tt ->
           exists rest, tr = EvK8sStart None :: rest /\ rest <> [])).
Proof.
  unfold StartIPAMD. apply wp_bind. apply wp_call. intros [e |] k1.
  - wp_go. emitted. split; [kind_list | discriminate].
  - wp_go. eapply wp_mono; [apply setup_phases|].
    intros r st1 (disc & nics & listing & recov & E & Fd & Fn & Fl & Fr & _ & _ & _
                  & Hret & _).
    cbn [trace] in E.
    exists (EvK8sStart None :: disc ++ nics ++ listing ++ recov).
    split; [rewrite E, <- app_assoc; reflexivity|]. split.
    + constructor; [reflexivity|].
      repeat (apply Forall_app; split);
        [ eapply Forall_impl; [|exact Fd] | eapply Forall_impl; [|exact Fn]
        | eapply Forall_impl; [|exact Fl] | eapply Forall_impl; [|exact Fr] ];
        intros ev Hev; destruct ev; try discriminate Hev; reflexivity.
    + intros Hr. eexists. split; [reflexivity|].
      destruct (Hret Hr) as (pre & r0 & rl & rest & v0 & El & _). intros Habs.
      apply app_eq_nil in Habs. destruct Habs as (_ & Habs).
      apply app_eq_nil in Habs. destruct Habs as (_ & Habs).
      apply app_eq_nil in Habs. destruct Habs as (Habs & _).
      rewrite El in Habs. destruct pre; discriminate.
Qed.

Lemma writeWhenFree_first (st : state) :
  wp (writeWhenFree dataStore os) st
     (fun r st' =>
        (exists stats rest, trace st' = trace st ++ EvGetStats stats :: rest) /\
        exists e, r = Return (tt, e)).
Proof.
  unfold writeWhenFree, WriteCNIConfig.
  apply wp_bind. apply wp_call. intros [total assigned] k1.
  destruct (assigned <? total); wp_go;
    (split; [do 2 eexists; trace_norm; reflexivity | eauto]).
Qed.

Lemma retry_writeWhenFree_first (retries : nat) (sleep : Z) (st : state) :
  wp (retry_loop os retries sleep (writeWhenFree dataStore os)) st
     (fun r st' =>
        (exists stats rest, trace st' = trace st ++ EvGetStats stats :: rest) /\
        exists e, r = Return (tt, e)).
Proof.
  destruct retries as [| n]; cbn [retry_loop];
    apply wp_bind; (eapply wp_mono; [apply writeWhenFree_first|]);
    intros r st1 ((stats & rest & E1) & e1 & ->); cbn [snd].
  - destruct e1; wp_step; eauto 6.
  - destruct e1 as [err |]; [|wp_step; eauto 6].
    apply wp_bind. apply wp_tell.
    eapply wp_mono; [apply IpamFacts.retry_writeWhenFree_guarded|].
    intros r st2 (_ & tr2 & E2 & _ & e2 & -> & _). cbn [trace] in E2.
    split; [|eauto].
    exists stats, (rest ++ EvRetrySleep sleep :: tr2).
    rewrite E2, E1, <- !app_assoc. reflexivity.
Qed.

(** What [Start] does once [StartIPAMD] has returned nil. *)
Lemma Start_rest_calls (st : state) :
  wp (bind (tell (fun k => k) EvGoStartReconcileIPPool)
        (fun _ =>
           bind (wrap_err (Errorf "Failed to start grpc server, err: %s")
                   (StartGrpcServer os))
             (fun _ =>
                bind (tell (Sleep os 20) (EvSleep 20))
                  (fun _ =>
                     bind (retry_Do os 10 5 (writeWhenFree dataStore os))
                       (fun out => guard (snd out) (fun e => e))))))
     st
     (fun r st' =>
        exists e rest,
          trace st' =
            trace st ++ EvGoStartReconcileIPPool :: EvListen ipamdgRPCaddress e :: rest /\
          match e with
          | Some err =>
              rest = [] /\
              r = Raise (Errorf "Failed to start grpc server, err: %s" err)
          | None =>
              exists stats rest',
                rest = EvGoServe :: EvSleep 20 :: EvGetStats stats :: rest'
          end).
Proof.
  unfold StartGrpcServer, retry_Do. wp_go.
  - exists (Some e), []. trace_norm. split; [reflexivity|]. split; reflexivity.
  - eapply wp_mono; [apply retry_writeWhenFree_first|].
    intros r st1 ((stats & rest & E1) & e1 & ->). cbn [trace] in E1.
    assert (Htr : trace st1 =
              trace st ++ EvGoStartReconcileIPPool :: EvListen ipamdgRPCaddress None
                       :: EvGoServe :: EvSleep 20 :: EvGetStats stats :: rest).
    { rewrite E1. repeat rewrite <- app_assoc. reflexivity. }
    destruct e1 as [err |]; cbn [snd]; wp_step;
      exists None; eexists; (split; [exact Htr|]); eauto.
Qed.

(** X16.  [Start] serves only after the bootstrap: every call of
    [StartIPAMD] (the start of the controller, then [setup]) comes first,
    and when [StartIPAMD] does not return nil [Start] stops there with its
    outcome, unchanged.  Otherwise the pool reconciler is started, then
    the daemon listens on 127.0.0.1:41080; when that fails [Start] returns
    the error reformatted, having started no server, slept no second and
    read no statistics; when it succeeds the server is started, twenty
    seconds are slept, and only then are the statistics of the datastore
    read for the first time. *)
Theorem Start_serves_after_bootstrap (st : state) :
  let st0 := {| kernel := kernel st; trace := trace st; self := NewIpamD |} in
  let boot :=
    StartIPAMD k8s qc networkClient dataStore os Error DuplicatedNICError
      IPNet_String ParseIP GetVPNNet st0 in
  let out :=
    Start k8s qc networkClient dataStore os Error DuplicatedNICError
      IPNet_String ParseIP GetVPNNet st in
  exists tr0,
    trace (snd boot) = trace st ++ tr0 /\
    Forall (fun ev => is_bootstrap ev = true) tr0 /\
    match fst boot with
    | Return _ =>
        exists e rest,
          trace (snd out) =
            trace st ++ tr0
              ++ EvGoStartReconcileIPPool :: EvListen "127.0.0.1:41080" e :: rest /\
          match e with
          | Some err =>
              rest = [] /\
              fst out = Raise (Errorf "Failed to start grpc server, err: %s" err)
          | None =>
              exists stats rest',
                rest = EvGoServe :: EvSleep 20 :: EvGetStats stats :: rest'
          end
    | Raise err => out = (Raise err, snd boot)
    | Panic msg => out = (Panic msg, snd boot)
    end.
Proof.
  intros st0 boot out.
  pose proof (StartIPAMD_bootstrap st0) as Hboot. unfold wp in Hboot.
  fold boot in Hboot. destruct Hboot as (tr0 & E0 & F0 & _).
  unfold st0 in E0. cbn [trace] in E0.
  assert (Hout : out =
            match boot with
            | (Return _, st1) =>
                bind (tell (fun k => k) EvGoStartReconcileIPPool)
                  (fun _ =>
                     bind (wrap_err (Errorf "Failed to start grpc server, err: %s")
                             (StartGrpcServer os))
                       (fun _ =>
                          bind (tell (Sleep os 20) (EvSleep 20))
                            (fun _ =>
                               bind (retry_Do os 10 5 (writeWhenFree dataStore os))
                                 (fun out => guard (snd out) (fun e => e))))) st1
            | (Raise e, st1) => (Raise e, st1)
            | (Panic msg, st1) => (Panic msg, st1)
            end) by reflexivity.
  exists tr0. split; [exact E0|]. split; [exact F0|].
  destruct boot as [rb st1]. cbn [fst snd] in *.
  destruct rb as [[] | e | msg]; [|exact Hout ..].
  pose proof (Start_rest_calls st1) as Hrest. unfold wp in Hrest.
  rewrite <- Hout in Hrest. destruct Hrest as (e & rest & E' & Hcase).
  exists e, rest. split.
  - eapply eq_trans; [exact E'|]. rewrite app_assoc. f_equal. exact E0.
  - exact Hcase.
Qed.

(** X17.  A [setup] that returns nil has recovered the pods of the last
    listing, whether or not all of them have an address by then, and no
    pod at all when that listing failed (a failed listing hands back no
    pods): the last answer of
    [GetCurrentNodePods] is followed at once by the read of the rule
    list, and, when that read succeeds, by the recovery, pod by pod, of
    the pods of that answer, with the VPC of the receiver. *)
Theorem setup_recovers_the_pods_listed (st : state) :
  let out :=
    setup k8s qc networkClient dataStore os Error DuplicatedNICError IPNet_String
      ParseIP GetVPNNet st in
  exists tr,
    trace (snd out) = trace st ++ tr /\
    (fst out = Return tt ->
     exists before r0 rl rest v,
       tr = before ++ EvGetCurrentNodePods r0 :: EvGetRuleList rl :: rest /\
       vpc (self (snd out)) = Some v /\
       match rl with
       | Err _ => rest = []
       | Ok rules =>
           exists trs,
             rest = List.concat trs /\
             Forall2 (recoverCalls IPNet_String ParseIP GetVPNNet rules v)
                     (match r0 with Ok pods => pods | Err _ => [] end) trs
       end).
Proof.
  intros out. subst out.
  pose proof (setup_phases st) as H. unfold wp in H.
  destruct H as (disc & nics & listing & recov & E & _ & _ & _ & _ & _ & _ & _
                 & Hret & _).
  exists (disc ++ nics ++ listing ++ recov). split; [exact E|].
  intros Hr. destruct (Hret Hr) as (pre & r0 & rl & rest & v & -> & -> & Hv & Hrest).
  exists (disc ++ nics ++ pre), r0, rl, rest, v.
  split; [rewrite <- !app_assoc; reflexivity|]. split; [exact Hv | exact Hrest].
Qed.

(** X18.  [setup] returns an error only right after a failed call, and
    the error is the one that call was answered with, handed on: as it is,
    wrapped (the host network, the registration of a NIC) or reformatted
    with [fmt.Errorf] (the creation of the cloud client).  Nothing is
    called after it.  No run of [setup] ends in a nil pointer. *)
Theorem setup_error_is_the_last_answer (st : state) :
  let out :=
    setup k8s qc networkClient dataStore os Error DuplicatedNICError IPNet_String
      ParseIP GetVPNNet st in
  exists tr,
    trace (snd out) = trace st ++ tr /\
    match fst out with
    | Return _ => True
    | Raise e =>
        exists pre ev e0,
          tr = pre ++ [ev] /\
          error_of ev = Some e0 /\
          (e = e0 \/
           (exists fmt args, e = Wrapf fmt args e0) \/
           (exists fmt, e = Errorf fmt e0))
    | Panic _ => False
    end.
Proof.
  intros out. subst out.
  pose proof (setup_phases st) as H. unfold wp in H.
  destruct H as (disc & nics & listing & recov & E & _ & _ & _ & _ & _ & _ & _ & _
                 & _ & _ & Hfail).
  exists (disc ++ nics ++ listing ++ recov). split; [exact E|].
  destruct (fst (setup k8s qc networkClient dataStore os Error DuplicatedNICError
                   IPNet_String ParseIP GetVPNNet st)) as [[] | e | msg];
    [exact I | | exact Hfail].
  destruct Hfail as (-> & -> & pre & ev & e0 & Ed & He & Hh).
  exists pre, ev, e0. rewrite !app_nil_r. split; [exact Ed|]. split; [exact He|].
  exact Hh.
Qed.

Lemma StartIPAMD_first_calls (st : state) :
  wp (StartIPAMD k8s qc networkClient dataStore os Error DuplicatedNICError
        IPNet_String ParseIP GetVPNNet) st
     (fun r st' =>
        match fst (K8sHelper.Start k8s (kernel st)) with
        | Some err =>
            r = Raise err /\
            st' = {| kernel := snd (K8sHelper.Start k8s (kernel st));
                     trace := trace st ++ [EvK8sStart (Some err)];
                     self := self st |}
        | None =>
            exists e rest,
              trace st' =
                trace st
                  ++ EvK8sStart None
                  :: EvNewQingCloudClient
                       (if disableLabel (self st) then None
                        else Some {| ClusterName :=
                                       clusterOf os (snd (K8sHelper.Start k8s (kernel st)));
                                     ExtraLabels :=
                                       tagsOf os (snd (K8sHelper.Start k8s (kernel st)))
                                         (extraTags (self st)) |})
                       e
                  :: rest
        end).
Proof.
  unfold StartIPAMD. apply wp_bind. apply wp_call_exact.
  destruct (fst (K8sHelper.Start k8s (kernel st))) as [err |].
  - wp_go. split; reflexivity.
  - wp_go. eapply wp_mono; [apply setup_phases|].
    intros r st1 (disc & nics & listing & recov & E & _ & _ & _ & _
                  & (e0 & rest0 & ->) & _).
    cbn [trace kernel self] in E.
    exists e0, (rest0 ++ nics ++ listing ++ recov).
    rewrite E, <- !app_assoc. reflexivity.
Qed.

(** X19.  [Start] works on a receiver of its own, made by [NewIpamD],
    whatever receiver it is run with, so labels are never disabled.  Its
    first call starts the controller; when that fails it is the only
    call, and its error is returned as it is.  Otherwise the second call
    creates the cloud client with the labels of the environment: the
    cluster name (HOSTNIC_CLUSTER_NAME, or "kubernetes") and the extra
    tags (the pieces of HOSTNIC_EXTRA_TAGS, or none). *)
Theorem Start_labels_the_cloud_client (st : state) :
  let started := K8sHelper.Start k8s (kernel st) in
  let out :=
    Start k8s qc networkClient dataStore os Error DuplicatedNICError
      IPNet_String ParseIP GetVPNNet st in
  match fst started with
  | Some err =>
      fst out = Raise err /\
      trace (snd out) = trace st ++ [EvK8sStart (Some err)]
  | None =>
      exists e rest,
        trace (snd out) =
          trace st
            ++ EvK8sStart None
            :: EvNewQingCloudClient
                 (Some {| ClusterName :=
                            (if (envOf os (snd started) "HOSTNIC_CLUSTER_NAME" =? "")%string
                             then "kubernetes"
                             else envOf os (snd started) "HOSTNIC_CLUSTER_NAME");
                          ExtraLabels :=
                            (if (envOf os (snd started) "HOSTNIC_EXTRA_TAGS" =? "")%string
                             then []
                             else Split (envOf os (snd started) "HOSTNIC_EXTRA_TAGS")
                                        ",") |})
                 e
            :: rest
  end.
Proof.
  intros started out.
  set (st0 := {| kernel := kernel st; trace := trace st; self := NewIpamD |}).
  set (boot := StartIPAMD k8s qc networkClient dataStore os Error DuplicatedNICError
                 IPNet_String ParseIP GetVPNNet st0).
  pose proof (StartIPAMD_first_calls st0) as Hboot. unfold wp in Hboot.
  fold boot in Hboot. unfold st0 in Hboot. cbn [kernel trace self] in Hboot.
  fold started in Hboot.
  assert (Hout : out =
            match boot with
            | (Return _, st1) =>
                bind (tell (fun k => k) EvGoStartReconcileIPPool)
                  (fun _ =>
                     bind (wrap_err (Errorf "Failed to start grpc server, err: %s")
                             (StartGrpcServer os))
                       (fun _ =>
                          bind (tell (Sleep os 20) (EvSleep 20))
                            (fun _ =>
                               bind (retry_Do os 10 5 (writeWhenFree dataStore os))
                                 (fun out => guard (snd out) (fun e => e))))) st1
            | (Raise e, st1) => (Raise e, st1)
            | (Panic msg, st1) => (Panic msg, st1)
            end) by reflexivity.
  destruct (fst started) as [err |].
  - destruct Hboot as (Hr & Hs). destruct boot as [rb st1]. cbn [fst snd] in Hr, Hs.
    subst rb st1. rewrite Hout. split; reflexivity.
  - destruct Hboot as (e & rest & E0).
    destruct boot as [rb st1]. cbn [fst snd] in E0.
    destruct rb as [[] | e1 | msg].
    + pose proof (Start_rest_calls st1) as Hrest. unfold wp in Hrest.
      rewrite <- Hout in Hrest. destruct Hrest as (e' & rest' & E' & _).
      exists e. eexists.
      eapply eq_trans; [exact E'|]. rewrite E0, <- app_assoc. reflexivity.
    + rewrite Hout. exists e, rest. exact E0.
    + rewrite Hout. exists e, rest. exact E0.
Qed.
End Properties.

(** ** The properties on the test doubles *)

(** X9 on an environment with two tags. *)
Lemma parseEnv_tags_round_trip_witness :
  envOf (stubOS longPrefixEnv) tt "HOSTNIC_EXTRA_TAGS" <> "" /\
  String.concat ","
    (extraTags (self (snd (parseEnv (stubOS longPrefixEnv) startIpam))))
    = "team=net,env=prod" /\
  Forall (fun tag => occurrences "," tag = O)
         (extraTags (self (snd (parseEnv (stubOS longPrefixEnv) startIpam)))) /\
  List.length (extraTags (self (snd (parseEnv (stubOS longPrefixEnv) startIpam))))
    = 2%nat.
Proof.
  split; [intros H; vm_compute in H; discriminate H|].
  apply (parseEnv_tags_round_trip (stubOS longPrefixEnv) startIpam).
  intros H; vm_compute in H; discriminate H.
Defined.

(** X12 on the two pods of the examples, with an empty rule list. *)
Lemma prepareLocalPods_pod_by_pod_witness :
  vpc (self ipamWithVPC) = Some stubVPC /\
  fst (recoverStubPods (Ok [])) = Return tt /\
  self (snd (recoverStubPods (Ok []))) = self ipamWithVPC /\
  exists trs,
    trace (snd (recoverStubPods (Ok []))) =
      trace ipamWithVPC ++ EvGetRuleList (Ok []) :: List.concat trs /\
    Forall2 (recoverCalls stubIPNetString stubParseIP stubVPNNet [] stubVPC)
            stubPods trs.
Proof.
  split; [reflexivity|].
  apply (prepareLocalPods_pod_by_pod (stubNetwork (Ok [])) (stubDataStore (1, 0))
           stubIPNetString stubParseIP stubVPNNet stubPods ipamWithVPC).
  reflexivity.
Defined.

(** A NIC that comes without a device number and whose link is not found
    is not registered; a secondary NIC with one is registered, set up and
    pooled. *)
Example setupNic_on_stubs :
  setupNic (stubNetwork (Ok [])) (stubDataStore (1, 0)) (stubOS []) stubError
    "NIC already added" stubIPNetString
    (HostNic.mk "nic-0" "10.0.0.5" "52:54:00:00:00:05" 0 true) startIpam =
    (Raise (ErrorNew "Link not found"),
     {| kernel := tt;
        trace := [EvLinkByMacAddr "52:54:00:00:00:05" (Err (ErrorNew "Link not found"))];
        self := NewIpamD |}) /\
  trace (snd (setupNic (stubNetwork (Ok [])) (stubDataStore (1, 0)) (stubOS [])
                stubError "NIC already added" stubIPNetString
                (HostNic.mk "nic-1" "10.0.1.7" "52:54:00:00:01:07" 2 false)
                {| kernel := tt; trace := [];
                   self := set_vxnet (Some stubVxNet) NewIpamD |})) =
    [ EvAddNIC "nic-1" 2 false None;
      EvSetupNICNetwork "10.0.1.7" "52:54:00:00:01:07" 2 "10.0.1.0/24" None;
      EvAddIPv4AddressFromStore "nic-1" "10.0.1.7" None ].
Proof. split; reflexivity. Qed.

(** The first calls of the daemon on the stubs: the controller, then the
    discovery, with the default cluster name as label. *)
Example Start_first_calls :
  firstn 8 (trace (snd (startOnStubs (1, 0)))) =
    [ EvK8sStart None;
      EvNewQingCloudClient
        (Some {| ClusterName := "kubernetes"; ExtraLabels := [] |}) None;
      EvGetInstanceID "i-node1";
      EvGetNodeVPC (Ok stubVPC);
      EvEnsureVxNet (Ok stubVxNet);
      EvGetPrimaryNIC (Ok (HostNic.mk "nic-0" "10.0.0.5" "52:54:00:00:00:05" 0 true));
      EvSetupHostNetwork (IPNet.mk [10; 0; 0; 0] [255; 255; 0; 0]) ["10.0.1.0/24"]
        "52:54:00:00:00:05" [] None;
      EvGetAttachedNICs "vxnet-1"
        (Ok [HostNic.mk "nic-1" "10.0.1.7" "52:54:00:00:01:07" 2 false]) ].
Proof. reflexivity. Qed.

End IpamMore.
